(** * Employee / pay-structure import pipeline (database.py)

    A shallow embedding of [DatabaseManager]: the server-side tax routine
    created by [create_tables], the two record validators, the connection
    retry loop and the import loop of [import_data].

    Modelling conventions.
    - A number held by a cell or by a NUMERIC value is modelled by its exact
      value, a rational; NaN and the two infinities are explicit.  NUMERIC
      arithmetic is exact.  The arithmetic of the frame's columns is the
      machine's: [int64] wraps around and [float64] rounds to the nearest
      binary64 number after every operation.
    - A Python exception is [None] in an [option]; [psycopg2.Error] raised by
      [cursor.execute] is the [None] of the session's operations.
    - A [pd.Series] row is a finite map from column names to cells. *)

From Stdlib Require Import ZArith QArith Qround Qabs String Ascii List Lia Lqa.
From Stdlib Require Import Decimal DecimalFacts DecimalPos DecimalString.
From stdpp Require Import gmap strings list sorting.

Local Open Scope Q_scope.

(** ** PostgreSQL NUMERIC arithmetic used by [calculate_income_tax] *)

(** [ROUND(x, 2)] on NUMERIC: to the nearest hundredth, ties away from zero. *)
Definition round_half_away (q : Q) : Z :=
  if Qle_bool 0 q then Qfloor (q + (1 # 2)) else (- Qfloor (- q + (1 # 2)))%Z.

Definition round2 (q : Q) : Q := Qmake (round_half_away (q * 100)) 100.

(** The right-hand sides of the five taxed branches of the PL/pgSQL body. *)
Definition band2 (annual_income : Q) : Q := (annual_income - 300000) * (5 # 100).
Definition band3 (annual_income : Q) : Q := 15000 + (annual_income - 600000) * (10 # 100).
Definition band4 (annual_income : Q) : Q := 45000 + (annual_income - 900000) * (15 # 100).
Definition band5 (annual_income : Q) : Q := 90000 + (annual_income - 1200000) * (20 # 100).
Definition band6 (annual_income : Q) : Q := 150000 + (annual_income - 1500000) * (30 # 100).

(** [tax] after the IF / ELSIF chain, before the division by 12. *)
Definition annual_tax (annual_income : Q) : Q :=
  if Qle_bool annual_income 300000 then 0
  else if Qle_bool annual_income 600000 then band2 annual_income
  else if Qle_bool annual_income 900000 then band3 annual_income
  else if Qle_bool annual_income 1200000 then band4 annual_income
  else if Qle_bool annual_income 1500000 then band5 annual_income
  else band6 annual_income.

(** [calculate_income_tax(annual_income NUMERIC) RETURNS NUMERIC]. *)
Definition calculate_income_tax (annual_income : Q) : Q :=
  round2 (annual_tax annual_income / 12).

(** The marginal-bracket computation in the words of the specification: each
    band taxes only the part of the income that lies inside it. *)
Definition portion (lo hi income : Q) : Q :=
  if Qle_bool income lo then 0
  else if Qle_bool income hi then income - lo
  else hi - lo.

Definition portion_above (lo income : Q) : Q :=
  if Qle_bool income lo then 0 else income - lo.

Definition marginal_tax (income : Q) : Q :=
  (0 # 100) * portion 0 300000 income
  + (5 # 100) * portion 300000 600000 income
  + (10 # 100) * portion 600000 900000 income
  + (15 # 100) * portion 900000 1200000 income
  + (20 # 100) * portion 1200000 1500000 income
  + (30 # 100) * portion_above 1500000 income.

Definition marginal_monthly_tax (income : Q) : Q := round2 (marginal_tax income / 12).

(** ** Python values held by the cells of a row *)

(** A Python [float]: a finite value, NaN or an infinity. *)
Inductive pyfloat : Type :=
| Fin (q : Q)
| NaN
| PInf
| NInf.

(** A cell of a [pd.Series]: an [int], a [float] or a [str]. *)
Inductive cell : Type :=
| CInt (z : Z)
| CFloat (f : pyfloat)
| CStr (s : string).

(** Comparisons of floats: every comparison with NaN is false. *)
Definition float_leb (a b : pyfloat) : bool :=
  match a, b with
  | NaN, _ | _, NaN => false
  | NInf, _ => true
  | _, PInf => true
  | Fin p, Fin q => Qle_bool p q
  | _, _ => false
  end.

Definition float_ltb (a b : pyfloat) : bool :=
  match a, b with
  | NaN, _ | _, NaN => false
  | NInf, NInf => false
  | PInf, PInf => false
  | NInf, _ => true
  | _, PInf => true
  | Fin p, Fin q => negb (Qle_bool q p)
  | _, _ => false
  end.

Definition float_gtb (a b : pyfloat) : bool := float_ltb b a.

Definition float_add (a b : pyfloat) : pyfloat :=
  match a, b with
  | NaN, _ | _, NaN => NaN
  | PInf, NInf | NInf, PInf => NaN
  | PInf, _ | _, PInf => PInf
  | NInf, _ | _, NInf => NInf
  | Fin p, Fin q => Fin (p + q)
  end.

(** [x * 12] on a float. *)
Definition float_mul12 (a : pyfloat) : pyfloat :=
  match a with
  | Fin p => Fin (p * 12)
  | other => other
  end.

(** *** binary64 and int64: the arithmetic of a [float64] and of an [int64]
    column

    [float_add] and [float_mul12] above are exact: they serve the NUMERIC
    values of the database.  The columns of a frame hold machine numbers: an
    operation on two [float64] values gives the binary64 number nearest to the
    exact result, and an operation on two [int64] values wraps around. *)

(** The integer nearest to [n / d] for [0 < d], the even one of two that are
    equally near. *)
Definition round_ratio_half_even (n d : Z) : Z :=
  let q := (n / d)%Z in
  let r := (n mod d)%Z in
  if Z.ltb (2 * r) d then q
  else if Z.ltb d (2 * r) then (q + 1)%Z
  else if Z.even q then q else (q + 1)%Z.

(** The integer part of the binary logarithm of [n / d], for [0 < n] and
    [0 < d]. *)
Definition floor_log2_ratio (n d : Z) : Z :=
  if Z.leb d n then Z.log2 (n / d) else (- Z.log2_up ((d + n - 1) / n))%Z.

(** The binary64 number nearest to [q], ties to the even significand: 53
    bits above the exponent -1074 of the subnormal numbers, an infinity from
    2^1024 on.  The sign of a zero is not kept. *)
Definition binary64 (q : Q) : pyfloat :=
  let n := Z.abs (Qnum q) in
  let d := Zpos (Qden q) in
  if Z.eqb n 0 then Fin 0
  else
    let e := Z.max (floor_log2_ratio n d - 52) (-1074) in
    let m := round_ratio_half_even (n * 2 ^ Z.max 0 (- e)) (d * 2 ^ Z.max 0 e) in
    if Z.leb (2 ^ 1024) (m * 2 ^ Z.max 0 e) then
      (if Z.ltb (Qnum q) 0 then NInf else PInf)
    else
      Fin (Qred (Qmake (Z.sgn (Qnum q) * m * 2 ^ Z.max 0 e)
                       (Z.to_pos (2 ^ Z.max 0 (- e))))).

(** [x + y] on two [float64] values. *)
Definition double_add (a b : pyfloat) : pyfloat :=
  match a, b with
  | Fin p, Fin q => binary64 (p + q)
  | _, _ => float_add a b
  end.

(** [x * 12] on a [float64] value. *)
Definition double_mul12 (a : pyfloat) : pyfloat :=
  match a with
  | Fin p => binary64 (p * 12)
  | other => other
  end.

(** The [int64] value of an integer result: two's complement, modulo 2^64. *)
Definition int64 (z : Z) : Z := ((z + 2 ^ 63) mod 2 ^ 64 - 2 ^ 63)%Z.

(** An [int64] value converted for an operation with a [float64] one. *)
Definition double_of_int64 (z : Z) : pyfloat := binary64 (inject_Z z).

(** *** Characters *)

Definition in_range (lo hi : nat) (c : ascii) : bool :=
  let n := nat_of_ascii c in Nat.leb lo n && Nat.leb n hi.

Definition is_digit : ascii -> bool := in_range 48 57.
Definition is_upper : ascii -> bool := in_range 65 90.
Definition is_lower : ascii -> bool := in_range 97 122.
Definition is_alpha (c : ascii) : bool := is_upper c || is_lower c.
Definition is_char (d : ascii) (c : ascii) : bool := Nat.eqb (nat_of_ascii c) (nat_of_ascii d).

(** ASCII characters for which [str.isspace] holds; [str.strip], [int] and
    [float] drop them at both ends. *)
Definition is_space (c : ascii) : bool := in_range 9 13 c || in_range 28 32 c.

Definition digit_value (c : ascii) : Z := Z.of_nat (nat_of_ascii c - 48).

Definition to_lower (c : ascii) : ascii :=
  if is_upper c then ascii_of_nat (nat_of_ascii c + 32) else c.

Fixpoint drop_while (p : ascii -> bool) (s : list ascii) : list ascii :=
  match s with
  | c :: s' => if p c then drop_while p s' else s
  | [] => []
  end.

Definition strip_chars (s : list ascii) : list ascii :=
  rev (drop_while is_space (rev (drop_while is_space s))).

(** [s.strip()] *)
Definition py_strip (s : string) : string :=
  string_of_list_ascii (strip_chars (list_ascii_of_string s)).

(** *** [int(str)] and [float(str)] on ASCII text *)

(** The rest of a digit run [digit (_? digit)*] whose first digits have the
    value [acc] and number [n]: value, number of digits, unread text. *)
Fixpoint digit_run_rest (s : list ascii) (acc : Z) (n : nat) : Z * nat * list ascii :=
  match s with
  | c :: s' =>
      if is_digit c then digit_run_rest s' (acc * 10 + digit_value c)%Z (S n)
      else if is_char "_" c then
        match s' with
        | d :: s'' =>
            if is_digit d then digit_run_rest s'' (acc * 10 + digit_value d)%Z (S n)
            else (acc, n, s)
        | [] => (acc, n, s)
        end
      else (acc, n, s)
  | [] => (acc, n, [])
  end.

Definition digit_run (s : list ascii) : option (Z * nat * list ascii) :=
  match s with
  | c :: s' => if is_digit c then Some (digit_run_rest s' (digit_value c) 1) else None
  | [] => None
  end.

(** An optional sign: [true] for a minus. *)
Definition read_sign (s : list ascii) : bool * list ascii :=
  match s with
  | c :: s' => if is_char "-" c then (true, s')
               else if is_char "+" c then (false, s')
               else (false, s)
  | [] => (false, [])
  end.

(** [int(s)] for a [str] in base 10; [None] is [ValueError]. *)
Definition int_of_string (s : string) : option Z :=
  let '(neg, t) := read_sign (strip_chars (list_ascii_of_string s)) in
  match digit_run t with
  | Some (v, _, []) => Some (if neg then (- v)%Z else v)
  | _ => None
  end.

Definition lower_string (s : list ascii) : string :=
  string_of_list_ascii (map to_lower s).

(** The mantissa [digits [. [digits]]] or [. digits]: its value as an integer
    and the number of digits after the point. *)
Definition read_mantissa (s : list ascii) : option (Z * nat * list ascii) :=
  match digit_run s with
  | Some (i, _, rest) =>
      match rest with
      | c :: rest' =>
          if is_char "." c then
            match digit_run rest' with
            | Some (_, _, _) =>
                match rest' with
                | d :: rest'' =>
                    let '(v, n, r) := digit_run_rest rest'' (i * 10 + digit_value d)%Z 1 in
                    Some (v, n, r)
                | [] => Some (i, 0%nat, rest')
                end
            | None => Some (i, 0%nat, rest')
            end
          else Some (i, 0%nat, rest)
      | [] => Some (i, 0%nat, [])
      end
  | None =>
      match s with
      | c :: rest' =>
          if is_char "." c then
            match digit_run rest' with
            | Some (v, n, r) => Some (v, n, r)
            | None => None
            end
          else None
      | [] => None
      end
  end.

(** The optional exponent [(e|E) [sign] digits]. *)
Definition read_exponent (s : list ascii) : option (Z * list ascii) :=
  match s with
  | c :: s' =>
      if is_char "e" (to_lower c) then
        let '(neg, t) := read_sign s' in
        match digit_run t with
        | Some (v, _, r) => Some (if neg then (- v)%Z else v, r)
        | None => None
        end
      else Some (0%Z, s)
  | [] => Some (0%Z, [])
  end.

(** [float(s)] for a [str]; [None] is [ValueError].  The value of a decimal
    literal is taken exactly. *)
Definition float_of_string (s : string) : option pyfloat :=
  let '(neg, t) := read_sign (strip_chars (list_ascii_of_string s)) in
  let word := lower_string t in
  if String.eqb word "nan" then Some NaN
  else if String.eqb word "inf" || String.eqb word "infinity"
  then Some (if neg then NInf else PInf)
  else
    match read_mantissa t with
    | Some (m, n, rest) =>
        match read_exponent rest with
        | Some (e, []) =>
            let v := inject_Z m * Qpower 10 (e - Z.of_nat n) in
            Some (Fin (if neg then - v else v))
        | _ => None
        end
    | None => None
    end.

(** *** [int(x)], [float(x)], [str(x)] and [pd.isna(x)] on a cell *)

(** [int(x)]: a float is truncated toward zero; NaN raises [ValueError] and an
    infinity [OverflowError]. *)
Definition py_int (c : cell) : option Z :=
  match c with
  | CInt z => Some z
  | CFloat (Fin q) => Some (Z.quot (Qnum q) (Zpos (Qden q)))
  | CFloat _ => None
  | CStr s => int_of_string s
  end.

Definition py_float (c : cell) : option pyfloat :=
  match c with
  | CInt z => Some (Fin (inject_Z z))
  | CFloat f => Some f
  | CStr s => float_of_string s
  end.

Definition string_of_Z (z : Z) : string := NilZero.string_of_int (Z.to_int z).

(** The digits of [r / d] after the point, at most [n] of them, for
    [0 <= r < d]. *)
Fixpoint fraction_digits (n : nat) (r d : Z) : string :=
  match n with
  | O => EmptyString
  | S n' =>
      if Z.eqb r 0 then EmptyString
      else String (ascii_of_nat (48 + Z.to_nat (r * 10 / d)))
                  (fraction_digits n' ((r * 10) mod d) d)
  end.

(** [repr] of a finite float in positional notation: the integer part, the
    point, and the decimal expansion ([.0] for a whole number), cut at 17
    digits; the shortest round-tripping digits and the exponent form that
    Python chooses for very large or small magnitudes are not modelled. *)
Definition float_repr (q : Q) : string :=
  let n := Z.abs (Qnum q) in
  let d := Zpos (Qden q) in
  let frac := fraction_digits 17 (n mod d) d in
  (if Z.ltb (Qnum q) 0 then "-" else "")
  +:+ string_of_Z (n / d) +:+ "."
  +:+ (if String.eqb frac "" then "0" else frac).

Definition py_str (c : cell) : string :=
  match c with
  | CInt z => string_of_Z z
  | CFloat (Fin q) => float_repr q
  | CFloat NaN => "nan"
  | CFloat PInf => "inf"
  | CFloat NInf => "-inf"
  | CStr s => s
  end.

Definition pd_isna (c : cell) : bool :=
  match c with
  | CFloat NaN => true
  | _ => false
  end.

(** *** [re.match] for the patterns of the validators *)

(** One item of a pattern: a character class repeated between [rmin] and
    [rmax] times ([None]: unbounded). *)
Record re_item : Type := ReItem {
  rclass : ascii -> bool;
  rmin : nat;
  rmax : option nat
}.

Definition below (n : nat) (bound : option nat) : bool :=
  match bound with
  | Some m => Nat.ltb n m
  | None => true
  end.

(** [$] without [re.MULTILINE]: the end of the text, or just before a newline
    that ends it. *)
Definition at_dollar (s : list ascii) : bool :=
  match s with
  | [] => true
  | [c] => is_char "010" c
  | _ => false
  end.

(** Whether [^ items $] matches a prefix of the text, trying every admissible
    number of repetitions of each item; [at_end] is the meaning of [$]. *)
Fixpoint match_items (at_end : list ascii -> bool) (items : list re_item) (s : list ascii)
  : bool :=
  match items with
  | [] => at_end s
  | it :: rest =>
      (fix repetitions (n : nat) (s : list ascii) {struct s} : bool :=
         if (if Nat.leb (rmin it) n then match_items at_end rest s else false) then true
         else
           match s with
           | c :: s' =>
               if rclass it c then
                 if below n (rmax it) then repetitions (S n) s' else false
               else false
           | [] => false
           end) 0%nat s
  end.

(** [re.match(pattern, s)] as a truth value. *)
Definition re_match (pattern : list re_item) (s : string) : bool :=
  match_items at_dollar pattern (list_ascii_of_string s).

Definition times (p : ascii -> bool) (n : nat) : re_item := ReItem p n (Some n).
Definition plus (p : ascii -> bool) : re_item := ReItem p 1 None.
Definition lit (s : string) : list re_item :=
  map (fun c => times (is_char c) 1) (list_ascii_of_string s).

(** [^[A-Za-z]+$] *)
Definition re_name : list re_item := [plus is_alpha].
(** [^[0-9]{2}[A-Z]{2}[0-9]{4}$] *)
Definition re_quarter_no : list re_item := [times is_digit 2; times is_upper 2; times is_digit 4].
(** [^[a-zA-Z]+[.][a-zA-Z]+@sail[.]bokaro[.]com$] *)
Definition re_email_id : list re_item :=
  [plus is_alpha; times (is_char ".") 1; plus is_alpha] ++ lit "@sail.bokaro.com".
(** [^[0-9]{10}$] *)
Definition re_phone_number : list re_item := [times is_digit 10].
(** [^[A-Z]{4}[0-9]{5,}$] *)
Definition re_ifsc_code : list re_item := [times is_upper 4; ReItem is_digit 5 None].
(** [^[0-9]{1,20}$] *)
Definition re_account_number : list re_item := [ReItem is_digit 1 (Some 20%nat)].

(** *** [datetime.strptime(s, '%Y-%m-%d')] *)

Definition two_digits (a b : ascii) : Z := (digit_value a * 10 + digit_value b)%Z.

(** [%m]: the alternatives [1[0-2]], [0[1-9]], [[1-9]] in this order, each with
    the text that follows it. *)
Definition month_candidates (s : list ascii) : list (Z * list ascii) :=
  match s with
  | a :: b :: rest =>
      (if is_char "1" a && in_range 48 50 b then [(two_digits a b, rest)] else [])
      ++ (if is_char "0" a && in_range 49 57 b then [(two_digits a b, rest)] else [])
      ++ (if in_range 49 57 a then [(digit_value a, b :: rest)] else [])
  | [a] => if in_range 49 57 a then [(digit_value a, [])] else []
  | [] => []
  end.

(** [%d]: the first of [3[01]], [[12]\d], [0[1-9]], [[1-9]], [ [1-9]] that
    matches. *)
Definition read_day (s : list ascii) : option (Z * list ascii) :=
  match s with
  | a :: b :: rest =>
      if is_char "3" a && in_range 48 49 b then Some (two_digits a b, rest)
      else if in_range 49 50 a && is_digit b then Some (two_digits a b, rest)
      else if is_char "0" a && in_range 49 57 b then Some (digit_value b, rest)
      else if in_range 49 57 a then Some (digit_value a, b :: rest)
      else if is_char " " a && in_range 49 57 b then Some (digit_value b, rest)
      else None
  | [a] => if in_range 49 57 a then Some (digit_value a, []) else None
  | [] => None
  end.

Definition is_leap (y : Z) : bool :=
  (Z.eqb (y mod 4) 0 && negb (Z.eqb (y mod 100) 0)) || Z.eqb (y mod 400) 0.

Definition days_in_month (y m : Z) : Z :=
  if Z.eqb m 2 then (if is_leap y then 29 else 28)
  else if Z.eqb m 4 || Z.eqb m 6 || Z.eqb m 9 || Z.eqb m 11 then 30
  else 31.

(** [true] when [strptime] returns a date, [false] when it raises
    [ValueError]. *)
Definition strptime_ymd (s : string) : bool :=
  match list_ascii_of_string s with
  | y1 :: y2 :: y3 :: y4 :: dash :: rest =>
      if is_digit y1 && is_digit y2 && is_digit y3 && is_digit y4 && is_char "-" dash then
        let y := (two_digits y1 y2 * 100 + two_digits y3 y4)%Z in
        let followed_by_dash (c : Z * list ascii) :=
          match snd c with
          | d :: _ => is_char "-" d
          | [] => false
          end in
        match filter followed_by_dash (month_candidates rest) with
        | (m, _ :: rest') :: _ =>
            match read_day rest' with
            | Some (d, []) => Z.leb 1 y && Z.leb d (days_in_month y m)
            | _ => false
            end
        | _ => false
        end
      else false
  | _ => false
  end.

(** ** Rows and the record validators *)

(** A row of a frame: column name to cell.  [row !! k = None] is the
    [KeyError] of [row[k]]. *)
Abbreviation row := (gmap string cell).

(** The diagnostic of a rejected record: [f"Invalid {field}: {row[field]}"],
    or [f"Validation error: {e}"] for an exception caught by the validator. *)
Inductive reason : Type :=
| Invalid (field : string) (value : cell)
| ValidationError.

Abbreviation verdict := (bool * option reason)%type.

Definition reject (field : string) (value : cell) : option verdict :=
  Some (false, Some (Invalid field value)).

(** [validate_ifsc_code] *)
Definition validate_ifsc_code (ifsc_code : cell) : bool :=
  if pd_isna ifsc_code then false
  else re_match re_ifsc_code (py_strip (py_str ifsc_code)).

(** The body of the [try] of [validate_employee_data]; [None] is an exception
    raised inside it. *)
Definition employee_checks (r : row) : option verdict :=
  employee_id ← r !! "employee_id";
  id ← py_int employee_id;
  if negb (Z.leb 1000000 id && Z.leb id 9999999) then reject "employee_id" employee_id else
  first_name ← r !! "first_name";
  if negb (re_match re_name (py_str first_name)) then reject "first_name" first_name else
  last_name ← r !! "last_name";
  if negb (re_match re_name (py_str last_name)) then reject "last_name" last_name else
  date_of_joining ← r !! "date_of_joining";
  if negb (strptime_ymd (py_str date_of_joining)) then reject "date_of_joining" date_of_joining else
  quarter_no ← r !! "quarter_no";
  if negb (String.eqb (py_str quarter_no) "NA")
     && negb (re_match re_quarter_no (py_str quarter_no))
  then reject "quarter_no" quarter_no else
  email_id ← r !! "email_id";
  if negb (re_match re_email_id (py_str email_id)) then reject "email_id" email_id else
  phone_number ← r !! "phone_number";
  if negb (re_match re_phone_number (py_str phone_number)) then reject "phone_number" phone_number else
  ifsc_code ← r !! "ifsc_code";
  if negb (validate_ifsc_code ifsc_code) then reject "ifsc_code" ifsc_code else
  account_number ← r !! "account_number";
  if negb (re_match re_account_number (py_str account_number))
  then reject "account_number" account_number else
  Some (true, None).

(** [validate_employee_data]: [except Exception] turns every exception of the
    body into a rejection. *)
Definition validate_employee_data (r : row) : verdict :=
  default (false, Some ValidationError) (employee_checks r).

(** The [for field in [...]] loop of [validate_pay_data]: [None] is an
    exception, [Some (Some v)] an early [return v], [Some None] falling out of
    the loop. *)
Fixpoint non_negative_checks (fields : list string) (r : row) : option (option verdict) :=
  match fields with
  | [] => Some None
  | field :: rest =>
      c ← r !! field;
      f ← py_float c;
      if float_ltb f (Fin 0) then Some (Some (false, Some (Invalid field c)))
      else non_negative_checks rest r
  end.

Definition non_negative_fields : list string :=
  ["da"; "hra"; "stocks"; "vacation_tour"; "medical_benefits"].

Definition pay_checks (r : row) : option verdict :=
  base_salary ← r !! "base_salary";
  b ← py_float base_salary;
  if float_leb b (Fin 20000) then reject "base_salary" base_salary else
  early ← non_negative_checks non_negative_fields r;
  match early with
  | Some v => Some v
  | None =>
      bonus_amount ← r !! "bonus_amount";
      bo ← py_float bonus_amount;
      if float_gtb bo (Fin 25000) then reject "bonus_amount" bonus_amount
      else Some (true, None)
  end.

(** [validate_pay_data] *)
Definition validate_pay_data (r : row) : verdict :=
  default (false, Some ValidationError) (pay_checks r).

(** ** The manager *)

(** The attributes of [DatabaseManager] that the methods below read or write. *)
Record DatabaseManager : Type := {
  db_name : string;
  max_retries : nat;
  retry_delay : nat;
  successful_employee_ids : gset Z
}.

(** [__init__] *)
Definition init : DatabaseManager :=
  {| db_name := "employeedb";
     max_retries := 5;
     retry_delay := 3;
     successful_employee_ids := ∅ |}.

Definition with_ids (self : DatabaseManager) (ids : gset Z) : DatabaseManager :=
  {| db_name := db_name self;
     max_retries := max_retries self;
     retry_delay := retry_delay self;
     successful_employee_ids := ids |}.

(** ** The connection manager *)

(** What the server answers: whether the administrative session on [postgres]
    opens, what its catalogue query finds ([None]: the query raises
    [psycopg2.Error]), and whether the connection attempt number [i] (from 0)
    to the target database succeeds. *)
Record server : Type := {
  admin_session_opens : bool;
  catalogue_lists_database : option bool;
  attempt_succeeds : nat -> bool
}.

(** The calls a method makes, in order. *)
Inductive event : Type :=
| Connect (database : string)
| QueryCatalogue (datname : string)
| Sleep (seconds : nat).

(** [verify_database_exists]: its own session on [postgres]; every
    [psycopg2.Error] gives [False]. *)
Definition verify_database_exists (self : DatabaseManager) (srv : server)
  : list event * bool :=
  if admin_session_opens srv then
    ([Connect "postgres"; QueryCatalogue (db_name self)],
     match catalogue_lists_database srv with
     | Some exists_ => exists_
     | None => false
     end)
  else ([Connect "postgres"], false).

Inductive connect_result : Type :=
| Connected (attempt : nat)
| RaisedDoesNotExist
| RaisedConnectError
| NotConnected.

(** The [for attempt in range(self.max_retries)] loop of [connect_to_psu_db]
    over the attempts that are left. *)
Fixpoint connect_attempts (self : DatabaseManager) (srv : server) (attempts : list nat)
  : list event * connect_result :=
  match attempts with
  | [] => ([], NotConnected)
  | attempt :: rest =>
      if attempt_succeeds srv attempt then ([Connect (db_name self)], Connected attempt)
      else if Nat.ltb attempt (max_retries self - 1) then
        let wait_time := (retry_delay self * (attempt + 1))%nat in
        let '(events, result) := connect_attempts self srv rest in
        (Connect (db_name self) :: Sleep wait_time :: events, result)
      else ([Connect (db_name self)], RaisedConnectError)
  end.

(** [connect_to_psu_db] *)
Definition connect_to_psu_db (self : DatabaseManager) (srv : server)
  : list event * connect_result :=
  let '(checked, exists_) := verify_database_exists self srv in
  if negb exists_ then (checked, RaisedDoesNotExist)
  else
    let '(events, result) := connect_attempts self srv (seq 0 (max_retries self)) in
    (checked ++ events, result).

(** [k] failed attempts, the first with index [first], each followed by its
    wait of [retry_delay] times the attempt's number. *)
Fixpoint backoff (self : DatabaseManager) (first k : nat) : list event :=
  match k with
  | O => []
  | S k' =>
      Connect (db_name self) :: Sleep (retry_delay self * (first + 1)) :: backoff self (S first) k'
  end.

(** [float(row[k])], with [None] for a missing key or a failed conversion. *)
Definition amount (r : row) (k : string) : option pyfloat := r !! k ≫= py_float.


(** The seconds slept and the connections opened in a trace. *)
Definition slept (e : event) : nat :=
  match e with
  | Sleep n => n
  | _ => 0%nat
  end.

Definition total_sleep (events : list event) : nat := sum_list_with slept events.

Definition is_connect (e : event) : bool :=
  match e with
  | Connect _ => true
  | _ => false
  end.

Definition connections (events : list event) : nat := length (filter is_connect events).

(** ** The import loop *)

(** A parameter of an SQL statement, as [psycopg2] receives it. *)
Inductive sql_value : Type :=
| SqlInt (z : Z)
| SqlFloat (f : pyfloat)
| SqlText (s : string).

(** An [INSERT INTO table (columns) VALUES (%s, ...)] with its parameters:
    each column of the statement with the value bound to it. *)
Abbreviation insert_row := (list (string * sql_value)).

Inductive log_event : Type :=
| SkippingInvalidEmployee (error_msg : option reason)
| ErrorInsertingEmployee
| EmployeesImportCompleted (successful failed : nat)
| SkippingInvalidPay (error_msg : option reason)
| SkippingNonExistentEmployee (employee_id : cell)
| ErrorInsertingPay
| PayImportCompleted (successful failed : nat)
| ErrorImportingData.

(** The column list of the [INSERT INTO employees] statement. *)
Definition employee_insert_columns : list string :=
  ["employee_id"; "first_name"; "last_name"; "designation";
   "department"; "grade"; "date_of_joining"; "quarter_no";
   "email_id"; "phone_number"; "account_number"; "ifsc_code";
   "branch_name"; "bank_name"; "shop"].

(** The [values] list of an employee row: [int(row['employee_id'])] and
    [str(row[k])] for the other columns. *)
Definition employee_values (r : row) : option (Z * list sql_value) :=
  id ← r !! "employee_id" ≫= py_int;
  texts ← mapM (fun k => (fun c => SqlText (py_str c)) <$> r !! k) (tail employee_insert_columns);
  Some (id, SqlInt id :: texts).

(** The column list of the [INSERT INTO pay_structure] statement. *)
Definition pay_insert_columns : list string :=
  ["pay_id"; "employee_id"; "base_salary"; "ta"; "da"; "hra";
   "stocks"; "vacation_tour"; "uniform_allowance";
   "medical_benefits"; "bonus_amount"; "other_allowances";
   "income_tax"].

Definition pay_float_columns : list string :=
  ["base_salary"; "ta"; "da"; "hra"; "stocks"; "vacation_tour"; "uniform_allowance";
   "medical_benefits"; "bonus_amount"; "other_allowances"].

(** The [values] tuple of a pay row. *)
Definition pay_values (r : row) (monthly_tax : pyfloat) : option (list sql_value) :=
  pay_id ← r !! "pay_id" ≫= py_int;
  employee_id ← r !! "employee_id" ≫= py_int;
  amounts ← mapM (fun k => SqlFloat <$> (r !! k ≫= py_float)) pay_float_columns;
  Some (SqlInt pay_id :: SqlInt employee_id :: amounts ++ [SqlFloat monthly_tax]).

(** [SELECT calculate_income_tax(%s)] with a float parameter.  A finite float
    is sent as a numeric literal; NaN and the infinities are sent as
    ['NaN'::float] and ['Infinity'::float], for which no
    [calculate_income_tax(double precision)] exists: [psycopg2.Error]. *)
Definition select_calculate_income_tax (annual_income : pyfloat) : option pyfloat :=
  match annual_income with
  | Fin q => Some (Fin (calculate_income_tax q))
  | _ => None
  end.

(** [employees_df.fillna('NA')] on one row. *)
Definition fillna_NA (r : row) : row :=
  (fun c => if pd_isna c then CStr "NA" else c) <$> r.

Definition nullable_columns : list string :=
  ["ta"; "stocks"; "vacation_tour"; "uniform_allowance"; "other_allowances"].

(** [pay_df[nullable_columns].fillna(0)] on one row; [None] is the [KeyError]
    of a missing column. *)
Fixpoint fillna_0 (columns : list string) (r : row) : option row :=
  match columns with
  | [] => Some r
  | k :: rest =>
      c ← r !! k;
      fillna_0 rest (<[k := if pd_isna c then CFloat (Fin 0) else c]> r)
  end.

Fixpoint repeat_string (n : nat) (s : string) : string :=
  match n with
  | O => EmptyString
  | S n' => s +:+ repeat_string n' s
  end.

(** [x * 12] on a cell of a column, in the arithmetic of the column: [int64]
    wraps around, [float64] rounds, and in a column of objects a [str] is
    repeated. *)
Definition cell_mul12 (c : cell) : cell :=
  match c with
  | CInt z => CInt (int64 (z * 12))
  | CFloat f => CFloat (double_mul12 f)
  | CStr s => CStr (repeat_string 12 s)
  end.

(** [x + y] on two cells of two columns: the sum of an [int64] and a
    [float64] column is a [float64] one; [None] is the [TypeError] of a [str]
    added to a number. *)
Definition cell_add (a b : cell) : option cell :=
  match a, b with
  | CInt x, CInt y => Some (CInt (int64 (x + y)))
  | CInt x, CFloat g => Some (CFloat (double_add (double_of_int64 x) g))
  | CFloat f, CInt y => Some (CFloat (double_add f (double_of_int64 y)))
  | CFloat f, CFloat g => Some (CFloat (double_add f g))
  | CStr s, CStr t => Some (CStr (s +:+ t))
  | _, _ => None
  end.

(** The [annual_income] column, for one row. *)
Definition annual_income (r : row) : option cell :=
  base_salary ← r !! "base_salary";
  ta ← r !! "ta";
  da ← r !! "da";
  hra ← r !! "hra";
  uniform_allowance ← r !! "uniform_allowance";
  stocks ← r !! "stocks";
  vacation_tour ← r !! "vacation_tour";
  medical_benefits ← r !! "medical_benefits";
  bonus_amount ← r !! "bonus_amount";
  s1 ← cell_add (cell_mul12 base_salary) (cell_mul12 ta);
  s2 ← cell_add s1 (cell_mul12 da);
  s3 ← cell_add s2 (cell_mul12 hra);
  s4 ← cell_add s3 (cell_mul12 uniform_allowance);
  s5 ← cell_add s4 stocks;
  s6 ← cell_add s5 vacation_tour;
  s7 ← cell_add s6 medical_benefits;
  cell_add s7 bonus_amount.

(** A pay row after [fillna(0)] and with its [annual_income] column. *)
Definition prepare_pay_row (r : row) : option row :=
  filled ← fillna_0 nullable_columns r;
  income ← annual_income filled;
  Some (<["annual_income" := income]> filled).

(** [if 'ifsc_code' in row: row['ifsc_code'] = str(row['ifsc_code']).strip()] *)
Definition strip_ifsc_code (r : row) : row :=
  match r !! "ifsc_code" with
  | Some code => <["ifsc_code" := CStr (py_strip (py_str code))]> r
  | None => r
  end.

(** The two counters of one kind of record. *)
Record counts : Type := Counts { successful : nat; failed : nat }.

Definition succeed (c : counts) : counts := Counts (S (successful c)) (failed c).
Definition fail (c : counts) : counts := Counts (successful c) (S (failed c)).

(** The rows counted so far. *)
Definition total (c : counts) : nat := (successful c + failed c)%nat.

Inductive outcome : Type :=
| Completed (employees pay : counts)
| Raised.

Section ImportLoop.

(** The database session: [execute_insert db table params] is the database
    after the [INSERT], or [None] when [cursor.execute] raises
    [psycopg2.Error]. *)
Context {DB : Type}.
Variable execute_insert : DB -> string -> insert_row -> option DB.

(** What a run has changed so far: the manager, the database and the log. *)
Record state : Type := State {
  manager : DatabaseManager;
  session : DB;
  log : list log_event
}.

Definition logging (e : log_event) (st : state) : state :=
  State (manager st) (session st) (log st ++ [e]).

(** One iteration of the employee loop.  [None] for the counters: an exception
    that [except Error] does not catch leaves the loop. *)
Definition import_employee_row (st : state) (c : counts) (r0 : row) : state * option counts :=
  let r := strip_ifsc_code r0 in
  let '(is_valid, error_msg) := validate_employee_data r in
  if is_valid then
    match employee_values r with
    | None => (st, None)
    | Some (id, values) =>
        match execute_insert (session st) "employees" (combine employee_insert_columns values) with
        | Some db' =>
            (State (with_ids (manager st) ({[id]} ∪ successful_employee_ids (manager st)))
                   db' (log st),
             Some (succeed c))
        | None => (logging ErrorInsertingEmployee st, Some (fail c))
        end
    end
  else (logging (SkippingInvalidEmployee error_msg) st, Some (fail c)).

(** One iteration of the pay loop. *)
Definition import_pay_row (st : state) (c : counts) (r : row) : state * option counts :=
  match r !! "employee_id" with
  | None => (st, None)
  | Some employee_id =>
      match py_int employee_id with
      | None => (st, None)
      | Some id =>
      if decide (id ∈ successful_employee_ids (manager st)) then
        let '(is_valid, error_msg) := validate_pay_data r in
        if is_valid then
          match r !! "annual_income" ≫= py_float with
          | None => (st, None)
          | Some income =>
              match select_calculate_income_tax income with
              | None => (logging ErrorInsertingPay st, Some (fail c))
              | Some monthly_tax =>
                  match pay_values r monthly_tax with
                  | None => (st, None)
                  | Some values =>
                      match execute_insert (session st) "pay_structure"
                                           (combine pay_insert_columns values) with
                      | Some db' => (State (manager st) db' (log st), Some (succeed c))
                      | None => (logging ErrorInsertingPay st, Some (fail c))
                      end
                  end
              end
          end
        else (logging (SkippingInvalidPay error_msg) st, Some (fail c))
      else
        (logging (SkippingNonExistentEmployee employee_id) st, Some (fail c))
      end
  end.

(** A [for _, row in frame.iterrows()] loop with the given body. *)
Fixpoint for_rows (body : state -> counts -> row -> state * option counts)
         (rows : list row) (st : state) (c : counts) : state * option counts :=
  match rows with
  | [] => (st, Some c)
  | r :: rest =>
      match body st c r with
      | (st', Some c') => for_rows body rest st' c'
      | (st', None) => (st', None)
      end
  end.

(** [import_data], on the frames read from the two files.  The [except
    Exception] around the whole body logs and raises again. *)
Definition import_data (self : DatabaseManager) (db : DB) (employees_df pay_df : list row)
  : state * outcome :=
  let st0 := State self db [] in
  let abort (st : state) := (logging ErrorImportingData st, Raised) in
  match for_rows import_employee_row (map fillna_NA employees_df) st0 (Counts 0 0) with
  | (st1, None) => abort st1
  | (st1, Some ec) =>
      let st2 := logging (EmployeesImportCompleted (successful ec) (failed ec)) st1 in
      match mapM prepare_pay_row pay_df with
      | None => abort st2
      | Some pay_rows =>
          match for_rows import_pay_row pay_rows st2 (Counts 0 0) with
          | (st3, None) => abort st3
          | (st3, Some pc) =>
              (logging (PayImportCompleted (successful pc) (failed pc)) st3, Completed ec pc)
          end
      end
  end.

End ImportLoop.

Arguments State {DB} _ _ _.
Arguments manager {DB} _.
Arguments session {DB} _.
Arguments log {DB} _.

(** ** The rules in the words of the specification *)







(** ** The two tables of [create_tables]

    A store for the rows of [employees] and [pay_structure] that enforces what
    the DDL declares: the primary keys, the UNIQUE e-mail, the foreign key, NOT
    NULL, the CHECK constraints, the VARCHAR lengths and the NUMERIC(10,2)
    columns, with the generated columns computed on insertion.  A DATE is
    accepted in the year-month-day form that [strptime_ymd] reads. *)

Record table_store : Type := {
  employees : list insert_row;
  pay_structure : list insert_row
}.

Definition empty_store : table_store := {| employees := []; pay_structure := [] |}.

Definition column (k : string) (r : insert_row) : option sql_value :=
  snd <$> find (fun p => String.eqb (fst p) k) r.

Definition int_column (k : string) (r : insert_row) : option Z :=
  match column k r with
  | Some (SqlInt z) => Some z
  | _ => None
  end.

Definition text_column (k : string) (r : insert_row) : option string :=
  match column k r with
  | Some (SqlText s) => Some s
  | _ => None
  end.

Definition amount_column (k : string) (r : insert_row) : option pyfloat :=
  match column k r with
  | Some (SqlFloat f) => Some f
  | Some (SqlInt z) => Some (Fin (inject_Z z))
  | _ => None
  end.

(** The [~] operator: [$] is the end of the text. *)
Definition pg_match (pattern : list re_item) (s : string) : bool :=
  match_items (fun rest => match rest with [] => true | _ => false end)
              pattern (list_ascii_of_string s).

(** Comparison of NUMERIC values: NaN is equal to itself and greater than
    every other value. *)
Definition numeric_leb (a b : pyfloat) : bool :=
  match a, b with
  | _, NaN => true
  | NaN, _ => false
  | _, _ => float_leb a b
  end.

Definition numeric_ltb (a b : pyfloat) : bool := negb (numeric_leb b a).

(** Assignment to a NUMERIC(10,2) column: rounded to two decimals; [None] is
    a numeric field overflow. *)
Definition numeric_10_2 (f : pyfloat) : option pyfloat :=
  match f with
  | Fin q =>
      let v := round2 q in
      if Qle_bool 100000000 (Qabs v) then None else Some (Fin v)
  | NaN => Some NaN
  | _ => None
  end.

Definition varchar_limits : list (string * nat) :=
  [("first_name", 50); ("last_name", 50); ("designation", 50); ("department", 50);
   ("grade", 10); ("quarter_no", 10); ("email_id", 100); ("phone_number", 10);
   ("account_number", 20); ("ifsc_code", 20); ("branch_name", 50); ("bank_name", 50);
   ("shop", 50)]%nat.

Definition within_varchar (r : insert_row) (p : string * nat) : bool :=
  match text_column (fst p) r with
  | Some s => Nat.leb (String.length s) (snd p)
  | None => false
  end.

Definition matches (pattern : list re_item) (k : string) (r : insert_row) : bool :=
  match text_column k r with
  | Some s => pg_match pattern s
  | None => false
  end.

(** The constraints of [employees] on a new row. *)
Definition employees_accepts (t : table_store) (r : insert_row) : bool :=
  match int_column "employee_id" r, text_column "email_id" r,
        text_column "quarter_no" r, text_column "date_of_joining" r with
  | Some id, Some email, Some quarter, Some date =>
      Z.leb 1000000 id && Z.leb id 9999999
      && forallb (fun old => negb (bool_decide (int_column "employee_id" old = Some id)))
                 (employees t)
      && forallb (fun old => negb (bool_decide (text_column "email_id" old = Some email)))
                 (employees t)
      && forallb (within_varchar r) varchar_limits
      && matches re_name "first_name" r
      && matches re_name "last_name" r
      && strptime_ymd date
      && (pg_match re_quarter_no quarter || String.eqb quarter "NA")
      && pg_match re_email_id email
      && matches re_phone_number "phone_number" r
      && matches re_account_number "account_number" r
      && matches re_ifsc_code "ifsc_code" r
  | _, _, _, _ => false
  end.

(** [a * q] and sums of NUMERIC values, for the generated columns. *)
Definition numeric_scale (q : Q) (a : pyfloat) : pyfloat :=
  match a with
  | Fin p => Fin (p * q)
  | other => other
  end.

Definition numeric_sub (a b : pyfloat) : pyfloat := float_add a (numeric_scale (-1) b).

(** The row of [pay_structure] that an accepted [INSERT] stores: the supplied
    columns as NUMERIC(10,2) and the four generated columns. *)
Definition pay_structure_row (r : insert_row) : option insert_row :=
  pay_id ← int_column "pay_id" r;
  employee_id ← int_column "employee_id" r;
  amounts ← mapM (fun k => amount_column k r ≫= numeric_10_2)
                 (pay_float_columns ++ ["income_tax"]);
  match amounts with
  | [base_salary; ta; da; hra; stocks; vacation_tour; uniform_allowance;
     medical_benefits; bonus_amount; other_allowances; income_tax] =>
      employee_pf ← numeric_10_2 (numeric_scale (125 # 1000) base_salary);
      employer_pf ← numeric_10_2 (numeric_scale (125 # 1000) base_salary);
      total_pf ← numeric_10_2 (numeric_scale (25 # 100) base_salary);
      monthly_salary ←
        numeric_10_2
          (numeric_sub
             (numeric_sub
                (float_add (float_add (float_add (float_add base_salary ta) da) hra)
                           uniform_allowance)
                (numeric_scale (125 # 1000) base_salary))
             income_tax);
      if numeric_ltb (Fin 20000) base_salary
         && numeric_leb (Fin 0) da && numeric_leb (Fin 0) hra
         && numeric_leb (Fin 0) stocks && numeric_leb (Fin 0) vacation_tour
         && numeric_leb (Fin 0) medical_benefits
         && numeric_leb bonus_amount (Fin 25000)
      then
        Some ([("pay_id", SqlInt pay_id); ("employee_id", SqlInt employee_id)]
              ++ combine (pay_float_columns ++ ["income_tax"]) (map SqlFloat amounts)
              ++ [("employee_pf", SqlFloat employee_pf);
                  ("employer_pf", SqlFloat employer_pf);
                  ("total_pf", SqlFloat total_pf);
                  ("monthly_salary", SqlFloat monthly_salary)])
      else None
  | _ => None
  end.

(** [cursor.execute] of an [INSERT] on the store. *)
Definition store_insert (t : table_store) (table : string) (r : insert_row)
  : option table_store :=
  if String.eqb table "employees" then
    if employees_accepts t r
    then Some {| employees := employees t ++ [r]; pay_structure := pay_structure t |}
    else None
  else if String.eqb table "pay_structure" then
    stored ← pay_structure_row r;
    pay_id ← int_column "pay_id" stored;
    employee_id ← int_column "employee_id" stored;
    if forallb (fun old => negb (bool_decide (int_column "pay_id" old = Some pay_id)))
               (pay_structure t)
       && existsb (fun e => bool_decide (int_column "employee_id" e = Some employee_id))
                  (employees t)
    then Some {| employees := employees t; pay_structure := pay_structure t ++ [stored] |}
    else None
  else None.

(** The rows of the end-to-end scenario. *)
Definition employee_arjun : row :=
  list_to_map
    [("employee_id", CInt 1234567); ("first_name", CStr "Arjun"); ("last_name", CStr "Rao");
     ("designation", CStr "Manager"); ("department", CStr "Finance"); ("grade", CFloat NaN);
     ("date_of_joining", CStr "2020-01-15"); ("quarter_no", CFloat NaN);
     ("email_id", CStr "arjun.rao@sail.bokaro.com"); ("phone_number", CInt 9876543210);
     ("account_number", CInt 123456789); ("ifsc_code", CStr "SBIN00001");
     ("branch_name", CStr "Bokaro"); ("bank_name", CStr "SBI"); ("shop", CStr "SMS")].

Definition pay_arjun : row :=
  list_to_map
    [("pay_id", CInt 1); ("employee_id", CInt 1234567); ("base_salary", CInt 50000);
     ("ta", CFloat NaN); ("da", CInt 10000); ("hra", CInt 15000); ("stocks", CFloat NaN);
     ("vacation_tour", CFloat NaN); ("uniform_allowance", CFloat NaN);
     ("medical_benefits", CInt 5000); ("bonus_amount", CInt 8000);
     ("other_allowances", CFloat NaN)].



(** The scenario's pay row, prepared, with a negative [ta]. *)
Definition pay_negative_ta : row :=
  <["ta" := CInt (-500)]> (default ∅ (prepare_pay_row pay_arjun)).

(** The store after the scenario's employee has been imported. *)
Definition after_arjun : @state table_store :=
  fst (import_data store_insert init empty_store [employee_arjun] []).

(** ** The employee rules in the words of the code *)

(** The cell of column [k] exists and its text passes [check]. *)
Definition text_passes (r : row) (k : string) (check : string -> bool) : Prop :=
  exists c, r !! k = Some c /\ check (py_str c) = true.

(** Every test of [validate_employee_data] passes. *)
Definition employee_rules_hold (r : row) : Prop :=
  (exists c id, r !! "employee_id" = Some c /\ py_int c = Some id
                /\ (1000000 <= id <= 9999999)%Z)
  /\ text_passes r "first_name" (re_match re_name)
  /\ text_passes r "last_name" (re_match re_name)
  /\ text_passes r "date_of_joining" strptime_ymd
  /\ text_passes r "quarter_no"
       (fun s => String.eqb s "NA" || re_match re_quarter_no s)
  /\ text_passes r "email_id" (re_match re_email_id)
  /\ text_passes r "phone_number" (re_match re_phone_number)
  /\ (exists c, r !! "ifsc_code" = Some c /\ validate_ifsc_code c = true)
  /\ text_passes r "account_number" (re_match re_account_number).

(** ** Integrity of the store *)

Definition employee_keys (t : table_store) : list Z :=
  omap (int_column "employee_id") (employees t).

Definition employee_emails (t : table_store) : list string :=
  omap (text_column "email_id") (employees t).

Definition pay_keys (t : table_store) : list Z :=
  omap (int_column "pay_id") (pay_structure t).

(** Primary keys and e-mails are not repeated, and every pay row refers to an
    employee row. *)
Definition store_consistent (t : table_store) : Prop :=
  NoDup (employee_keys t)
  /\ NoDup (employee_emails t)
  /\ NoDup (pay_keys t)
  /\ forall p id, p ∈ pay_structure t -> int_column "employee_id" p = Some id ->
                  id ∈ employee_keys t.

(** ** The repetition loop of the matcher, by itself *)

(** [match_items] on a pattern that starts with [it], after [n] repetitions
    of [it] have been read. *)
Fixpoint repetitions_from (at_end : list ascii -> bool) (it : re_item) (rest : list re_item)
         (n : nat) (s : list ascii) {struct s} : bool :=
  if (if Nat.leb (rmin it) n then match_items at_end rest s else false) then true
  else
    match s with
    | c :: s' =>
        if rclass it c then
          if below n (rmax it) then repetitions_from at_end it rest (S n) s' else false
        else false
    | [] => false
    end.

(** [$] as the end of the text only. *)
Definition at_very_end (s : list ascii) : bool :=
  match s with
  | [] => true
  | _ => false
  end.

Definition newline : ascii := "010".

(** A text made of whitespace only. *)
Definition all_space (s : string) : bool := forallb is_space (list_ascii_of_string s).

(** ** [calculate_total_compensation]

    On the store; a NULL is [None], and [SELECT ... INTO] takes the first row
    of [pay_structure] with the employee's identifier, in insertion order. *)

Definition coalesce_0 (x : option pyfloat) : pyfloat := default (Fin 0) x.

Definition numeric_add_null (x y : option pyfloat) : option pyfloat :=
  a ← x; b ← y; Some (float_add a b).

Definition calculate_total_compensation (t : table_store) (p_employee_id : Z)
  : pyfloat * pyfloat * pyfloat :=
  let found :=
    find (fun p => bool_decide (int_column "employee_id" p = Some p_employee_id))
         (pay_structure t) in
  let monthly_comp := found ≫= amount_column "monthly_salary" in
  let annual_benefits :=
    p ← found;
    numeric_add_null
      (numeric_add_null
         (numeric_add_null (Some (coalesce_0 (amount_column "stocks" p)))
                           (Some (coalesce_0 (amount_column "vacation_tour" p))))
         (amount_column "medical_benefits" p))
      (amount_column "bonus_amount" p) in
  let annual_comp :=
    float_add (float_mul12 (coalesce_0 monthly_comp)) (coalesce_0 annual_benefits) in
  (coalesce_0 monthly_comp, annual_comp, coalesce_0 annual_benefits).

(** Every pay row of the store belongs to an accepted identifier. *)
Definition pay_rows_accepted (st : @state table_store) : Prop :=
  forall p id, p ∈ pay_structure (session st) -> int_column "employee_id" p = Some id ->
               id ∈ successful_employee_ids (manager st).

(** * The generator of the two files

    Every call of [random] is an argument of the function that makes it: the
    value drawn, with the range it is drawn from stated where a property needs
    it. *)

(** ** [DataConstants] *)

Definition FIRST_NAMES : list string :=
  ["Aarav"; "Advait"; "Agastya"; "Akshay"; "Anant"; "Arnav"; "Arjun"; "Atharv"; "Ayush";
   "Bharat"; "Chakresh"; "Daksh"; "Darsh"; "Dev"; "Dhruv"; "Eshan"; "Gaurav"; "Harsh";
   "Hemant"; "Ishaan"; "Kabir"; "Kartik"; "Keshav"; "Krishna"; "Lakshay"; "Manan"; "Neel";
   "Nirvaan"; "Om"; "Pranav"; "Reyansh"; "Riddhi"; "Rishabh"; "Rohan"; "Rudra"; "Samar";
   "Shaurya"; "Shivansh"; "Siddharth"; "Tanay"; "Tejas"; "Udayan"; "Veer"; "Vihaan";
   "Virat"; "Vivaan"; "Yash"; "Yuvan"; "Madhav"; "Parth"; "Aadya"; "Aanvi"; "Aditi";
   "Ahana"; "Amara"; "Ananya"; "Anika"; "Anvi"; "Aparajita"; "Avani"; "Chahana"; "Diya";
   "Divya"; "Gauri"; "Geetika"; "Hansika"; "Ira"; "Ishika"; "Jwala"; "Kaavya"; "Kashvi";
   "Keya"; "Kiara"; "Lasya"; "Lavanya"; "Mahika"; "Mira"; "Naira"; "Navya"; "Nisha";
   "Ojaswini"; "Palak"; "Pihu"; "Rashi"; "Ridhi"; "Saanvi"; "Sahana"; "Samaira";
   "Shanaya"; "Tara"; "Trisha"; "Uma"; "Vanya"; "Vedika"; "Veda"; "Vidhi"; "Yashi";
   "Zara"; "Nitya"; "Ishani"].

Definition LAST_NAMES : list string :=
  ["Acharya"; "Adhikari"; "Ahuja"; "Apte"; "Arora"; "Athreya"; "Bajaj"; "Bakshi";
   "Balakrishnan"; "Basu"; "Bhagat"; "Bhandari"; "Bhardwaj"; "Bhat"; "Bhatnagar";
   "Bhowmik"; "Birla"; "Biswas"; "Bose"; "Chakraborty"; "Chand"; "Chandran"; "Chaturvedi";
   "Chawla"; "Dasgupta"; "Deshpande"; "Devan"; "Dewan"; "Dharma"; "Dhillon"; "Dwivedi";
   "Ganesan"; "Ghosh"; "Gokhale"; "Gowda"; "Gulati"; "Hegde"; "Hora"; "Iyengar"; "Iyer";
   "Jadhav"; "Jaggi"; "Jaiswal"; "Jindal"; "Johar"; "Juneja"; "Kadak"; "Kale"; "Kalra";
   "Kanda"; "Kannan"; "Kar"; "Kashyap"; "Kaur"; "Khanna"; "Khatri"; "Krishna"; "Kulkarni";
   "Kumar"; "Kurup"; "Lamba"; "Mahajan"; "Maitra"; "Mane"; "Mangal"; "Mehra"; "Mhatre";
   "Mitra"; "Murthy"; "Nag"; "Nanda"; "Narang"; "Nehru"; "Oak"; "Pai"; "Parikh"; "Prabhu";
   "Pradhan"; "Prakash"; "Rajan"; "Rajput"; "Raman"; "Ramanathan"; "Rathi"; "Roshan";
   "Sabharwal"; "Sachdeva"; "Sami"; "Sankaran"; "Saxena"; "Sen"; "Seshadri"; "Sethi";
   "Shankar"; "Shastri"; "Shinde"; "Shukla"; "Suri"; "Swamy"; "Tagore"; "Tandon"; "Tyagi";
   "Varma"].

Definition DEPARTMENTS : list string :=
  ["Finance"; "HR"; "Operations"; "IT"; "Production"; "Quality Control"; "Maintenance";
   "Safety"; "Supply Chain"; "R&D"].

Definition SHOPS : list string :=
  ["Mining"; "Blast Furnace 1"; "Blast Furnace 2"; "Blast Furnace 3"; "Blast Furnace 4";
   "Blast Furnace 5"; "SMS"; "HSM"; "CRM"; "Sinter Plant"; "Machine Shop";
   "Structural Shop"; "Coke Oven"].

Definition MANAGER_DESIGNATIONS : list string :=
  ["Junior Manager"; "Assistant Manager"; "Deputy Manager"; "Manager"; "Senior Manager"].

Definition EXECUTIVE_DESIGNATIONS : list string :=
  ["AGM"; "DGM"; "GM"; "CGM"; "ED"; "Director"; "Chairman"].

Definition BANKS : list (string * string) :=
  [("State Bank of India", "SBIN");
   ("Punjab National Bank", "PUNB");
   ("Bank of Baroda", "BARB");
   ("HDFC Bank", "HDFC");
   ("ICICI Bank", "ICIC");
   ("Union Bank of India", "UBIN")].

Definition BRANCHES : list string :=
  ["Main Branch"; "Civil Lines"; "Sector 4"; "Industrial Area"; "City Center";
   "Station Road"; "Steel Plant Branch"; "Township Branch"].

(** ** [EmployeeGenerator] *)

(** [create_name_mapping]: the first name number [i] gets the last names
    number [(i * 100 + j) % len(last_names)] for [j] below 100. *)
Definition create_name_mapping : gmap string (list string) :=
  foldl (fun mapping '(i, first_name) =>
           <[first_name :=
               map (fun j => nth ((i * 100 + j) mod length LAST_NAMES) LAST_NAMES "")
                   (seq 0 100)]> mapping)
        ∅ (imap pair FIRST_NAMES).

(** [sorted(list(employee_ids))] *)
Definition sorted (s : gset Z) : list Z := merge_sort Z.le (elements s).

(** The [while] loop of [generate_employee_ids] over the identifiers that
    [random.randint] returns one after the other; [None]: the loop is still
    running when these are used up. *)
Fixpoint generate_employee_ids_loop (count : Z) (employee_ids : gset Z) (draws : list Z)
  : option (gset Z) :=
  if Z.ltb (Z.of_nat (size employee_ids)) count then
    match draws with
    | emp_id :: rest => generate_employee_ids_loop count ({[emp_id]} ∪ employee_ids) rest
    | [] => None
    end
  else Some employee_ids.

(** [generate_employee_ids] *)
Definition generate_employee_ids (count : Z) (draws : list Z) : option (list Z) :=
  sorted <$> generate_employee_ids_loop count ∅ draws.

Definition full_name (first_name last_name : string) : string :=
  first_name +:+ " " +:+ last_name.

(** [generate_unique_full_name] over the names that the two [random.choice]
    return one pair after the other: the first pair that is not in
    [existing_names], which is updated; [None]: the loop is still running
    when these are used up. *)
Fixpoint generate_unique_full_name (existing_names : gset string)
         (draws : list (string * string)) : option (string * string * gset string) :=
  match draws with
  | [] => None
  | (first_name, last_name) :: rest =>
      if decide (full_name first_name last_name ∈ existing_names)
      then generate_unique_full_name existing_names rest
      else Some (first_name, last_name, {[full_name first_name last_name]} ∪ existing_names)
  end.

(** [generate_phone_number] *)
Definition generate_phone_number (draw : Z) : string := "9" +:+ string_of_Z draw.

(** [generate_account_number] *)
Definition generate_account_number (draw : Z) : string := string_of_Z draw.

(** [generate_ifsc_code] *)
Definition generate_ifsc_code (bank_code : string) (draw : Z) : string :=
  bank_code +:+ string_of_Z draw.

(** *** Dates *)

Definition date : Type := (Z * Z * Z)%type.

(** The day after a date. *)
Definition next_day (d : date) : date :=
  let '(y, m, day) := d in
  if Z.ltb day (days_in_month y m) then (y, m, day + 1)%Z
  else if Z.ltb m 12 then (y, m + 1, 1)%Z
  else (y + 1, 1, 1)%Z.

(** [d + timedelta(days=n)] *)
Fixpoint add_days (d : date) (n : nat) : date :=
  match n with
  | O => d
  | S n' => add_days (next_day d) n'
  end.

(** The [n] dates from [d] on. *)
Fixpoint dates_from (d : date) (n : nat) : list date :=
  match n with
  | O => []
  | S n' => d :: dates_from (next_day d) n'
  end.

(** [date.toordinal]: the days from the year 1 to the date, both included. *)
Definition days_before_year (y : Z) : Z :=
  ((y - 1) * 365 + (y - 1) / 4 - (y - 1) / 100 + (y - 1) / 400)%Z.

Definition days_before_month (y m : Z) : Z :=
  foldr Z.add 0%Z (map (fun k => days_in_month y (Z.of_nat k)) (seq 1 (Z.to_nat m - 1))).

Definition toordinal (d : date) : Z :=
  let '(y, m, day) := d in (days_before_year y + days_before_month y m + day)%Z.

Definition zero_padded (width : nat) (z : Z) : string :=
  let s := string_of_Z z in
  repeat_string (width - String.length s) "0" +:+ s.

(** [strftime('%Y-%m-%d')] *)
Definition strftime_ymd (d : date) : string :=
  let '(y, m, day) := d in
  zero_padded 4 y +:+ "-" +:+ zero_padded 2 m +:+ "-" +:+ zero_padded 2 day.

Definition start_date : date := (2000, 1, 1)%Z.
Definition end_date : date := (2023, 12, 31)%Z.

(** [(end_date - start_date).days] *)
Definition days_between : Z := (toordinal end_date - toordinal start_date)%Z.

(** [generate_date_of_joining], with the value of
    [random.randrange(days_between)]. *)
Definition generate_date_of_joining (random_days : nat) : string :=
  strftime_ymd (add_days start_date random_days).

(** The draws of [generate_quarter_no]: whether [random.random() < 0.6], and
    then the four choices. *)
Record quarter_draws : Type := QuarterDraws {
  has_quarter_draw : bool;
  second_digit : Z;
  third_digit : string;
  quarter_type : string;
  quarter_number : Z
}.

(** [generate_quarter_no] *)
Definition generate_quarter_no (d : quarter_draws) : string :=
  if has_quarter_draw d then
    "0" +:+ string_of_Z (second_digit d) +:+ third_digit d +:+ quarter_type d
        +:+ string_of_Z (quarter_number d)
  else "".

(** The draws of one call of [generate_employee_data], in the order of the
    calls. *)
Record employee_draws : Type := EmployeeDraws {
  name_draws : list (string * string);
  role_type : string;
  grade_draw : Z;
  designation_draw : string;
  bank_draw : string * string;
  branch_draw : string;
  quarter : quarter_draws;
  department_draw : string;
  joining_draw : nat;
  phone_draw : Z;
  account_draw : Z;
  ifsc_draw : Z;
  shop_draw : string
}.

(** The [grade] and the [designation] of a role. *)
Definition grade_and_designation (d : employee_draws) : string * string :=
  if String.eqb (role_type d) "Worker" then ("S" +:+ string_of_Z (grade_draw d), "Worker ")
  else if String.eqb (role_type d) "Officer" then
    ("S" +:+ string_of_Z (grade_draw d), "Supervisor ")
  else ("", designation_draw d).

(** [generate_employee_data]: the record, and [existing_names] as the call
    leaves it. *)
Definition generate_employee_data (emp_id : Z) (existing_names : gset string)
           (d : employee_draws) : option (gmap string string * gset string) :=
  '(first_name, last_name, existing_names') ←
    generate_unique_full_name existing_names (name_draws d);
  let '(grade, designation) := grade_and_designation d in
  let '(bank_name, bank_code) := bank_draw d in
  let quarter_no := generate_quarter_no (quarter d) in
  Some (list_to_map
          [("employee_id", string_of_Z emp_id);
           ("first_name", first_name);
           ("last_name", last_name);
           ("designation", designation);
           ("department", department_draw d);
           ("grade", grade);
           ("date_of_joining", generate_date_of_joining (joining_draw d));
           ("quarter_no", quarter_no);
           ("has_quarter", if String.eqb quarter_no "" then "No" else "Yes");
           ("email_id",
            lower_string (list_ascii_of_string first_name) +:+ "."
              +:+ lower_string (list_ascii_of_string last_name) +:+ "@sail.bokaro.com");
           ("phone_number", generate_phone_number (phone_draw d));
           ("account_number", generate_account_number (account_draw d));
           ("ifsc_code", generate_ifsc_code bank_code (ifsc_draw d));
           ("branch_name", branch_draw d);
           ("bank_name", bank_name);
           ("shop", shop_draw d)],
        existing_names').

(** The list comprehension of [generate_employees]: one record for each
    identifier, all calls sharing [existing_names]. *)
Fixpoint generate_employees_from (employee_ids : list Z) (existing_names : gset string)
         (draws : list employee_draws) : option (list (gmap string string)) :=
  match employee_ids, draws with
  | [], _ => Some []
  | emp_id :: ids, d :: ds =>
      '(employee, existing_names') ← generate_employee_data emp_id existing_names d;
      rest ← generate_employees_from ids existing_names' ds;
      Some (employee :: rest)
  | _ :: _, [] => None
  end.

(** [generate_employees] *)
Definition generate_employees (num_employees : Z) (id_draws : list Z)
           (draws : list employee_draws) : option (list (gmap string string)) :=
  employee_ids ← generate_employee_ids num_employees id_draws;
  generate_employees_from employee_ids ∅ draws.

(** What the draws of one record can be: the ranges of [random.randint] and
    [random.randrange], the sequences of [random.choice] and
    [random.choices]; the four choices of a quarter number are made only when
    there is one. *)
Definition possible_quarter (d : quarter_draws) : Prop :=
  has_quarter_draw d = true ->
  (1 <= second_digit d <= 9)%Z
  /\ third_digit d ∈ ["A"; "B"; "C"; "D"; "E"; "F"]
  /\ quarter_type d ∈ ["A"; "B"; "C"; "D"]
  /\ (1799 <= quarter_number d <= 2099)%Z.

Definition possible_name (draw : string * string) : Prop :=
  exists last_names, create_name_mapping !! fst draw = Some last_names /\ snd draw ∈ last_names.

Definition possible (d : employee_draws) : Prop :=
  Forall possible_name (name_draws d)
  /\ role_type d ∈ ["Worker"; "Officer"; "Manager"; "Executive"]
  /\ (role_type d = "Worker" -> 1 <= grade_draw d <= 5)%Z
  /\ (role_type d = "Officer" -> 6 <= grade_draw d <= 11)%Z
  /\ (role_type d = "Manager" -> designation_draw d ∈ MANAGER_DESIGNATIONS)
  /\ (role_type d = "Executive" -> designation_draw d ∈ EXECUTIVE_DESIGNATIONS)
  /\ bank_draw d ∈ BANKS
  /\ branch_draw d ∈ BRANCHES
  /\ possible_quarter (quarter d)
  /\ department_draw d ∈ DEPARTMENTS
  /\ (Z.of_nat (joining_draw d) < days_between)%Z
  /\ (100000000 <= phone_draw d <= 999999999)%Z
  /\ (10000000000 <= account_draw d <= 99999999999999999)%Z
  /\ (10000 <= ifsc_draw d <= 99999)%Z
  /\ shop_draw d ∈ SHOPS.

(** What [pandas.read_csv] makes of a field written by [csv.DictWriter]: an
    empty field is NaN; any other is the text itself or, in a column of
    integers, the integer with this text. *)
Definition read_as (field : string) (c : cell) : Prop :=
  if String.eqb field "" then c = CFloat NaN
  else c = CStr field \/ exists z, c = CInt z /\ string_of_Z z = field.

Definition read_csv (record : gmap string string) (r : row) : Prop :=
  forall k field, record !! k = Some field -> exists c, r !! k = Some c /\ read_as field c.

(** ** [PayStructureGenerator] *)

Definition salary_ranges : gmap string (Z * Z) :=
  list_to_map [("Worker", (20000, 28000)); ("Supervisor", (44000, 57000));
               ("Manager", (73000, 92000)); ("Executive", (145000, 205000))]%Z.

Definition bonus_ranges : gmap string (Z * Z) :=
  list_to_map [("Worker", (7500, 10000)); ("Supervisor", (14500, 19000));
               ("Manager", (21500, 24250)); ("Executive", (25000, 25000))]%Z.

(** [round(x)] to an integer: the nearest one, the even one of two that are
    equally near. *)
Definition round_half_even (x : Q) : Z :=
  let n := Qfloor x in
  let rest := x - inject_Z n in
  if Qle_bool rest (1 # 2) then
    if Qle_bool (1 # 2) rest then (if Z.even n then n else n + 1)%Z else n
  else (n + 1)%Z.

(** [round(x, -3)] *)
Definition round_to_thousands (x : Q) : Q := inject_Z (round_half_even (x / 1000) * 1000).

(** [generate_base_salary], with the value of [random.uniform]; [None] is the
    [KeyError] of a role without a salary range. *)
Definition generate_base_salary (role : string) (draw : Q) : option Q :=
  match salary_ranges !! role with
  | Some _ => Some (round_to_thousands draw)
  | None => None
  end.

(** [needle in text] on two strings. *)
Fixpoint contains (needle text : string) : bool :=
  if String.prefix needle text then true
  else
    match text with
    | String _ rest => contains needle rest
    | EmptyString => false
    end.

(** [get_role_from_designation] *)
Definition get_role_from_designation (designation : string) : string :=
  if contains "Worker" designation then "Worker"
  else if contains "Supervisor" designation then "Supervisor"
  else if contains "Manager" designation then "Manager"
  else "Executive".

(** *** One run of the generator *)

(** The draws of a record for a manager without a quarter. *)
Definition draws_of_a_manager : employee_draws :=
  {| name_draws := [("Arjun", "Acharya")];
     role_type := "Manager";
     grade_draw := 0;
     designation_draw := "Deputy Manager";
     bank_draw := ("State Bank of India", "SBIN");
     branch_draw := "Civil Lines";
     quarter := QuarterDraws false 0 "" "" 0;
     department_draw := "Finance";
     joining_draw := 4321;
     phone_draw := 876543210;
     account_draw := 12345678901;
     ifsc_draw := 10001;
     shop_draw := "SMS" |}.

(** The draws of a record for a worker with a quarter, whose first name draws
    repeat the manager's. *)
Definition draws_of_a_worker : employee_draws :=
  {| name_draws := [("Arjun", "Acharya"); ("Diya", "Bose")];
     role_type := "Worker";
     grade_draw := 3;
     designation_draw := "";
     bank_draw := ("HDFC Bank", "HDFC");
     branch_draw := "Sector 4";
     quarter := QuarterDraws true 4 "C" "B" 1805;
     department_draw := "Production";
     joining_draw := 59;
     phone_draw := 100000000;
     account_draw := 99999999999999999;
     ifsc_draw := 99999;
     shop_draw := "Coke Oven" |}.

(** A field as [pandas.read_csv] gives it when it leaves every column a text. *)
Definition field_cell (field : string) : cell :=
  if String.eqb field "" then CFloat NaN else CStr field.

(** The worker's record, made when the manager's name is taken. *)
Definition record_of_a_worker : gmap string string :=
  default ∅ (fst <$> generate_employee_data 1234567 {["Arjun Acharya"]} draws_of_a_worker).

(** ** Rounding lemmas *)

Lemma round_half_away_comp (p q : Q) : p == q -> round_half_away p = round_half_away q.
Proof.
  intros E. unfold round_half_away.
  assert (Hb : Qle_bool 0 p = Qle_bool 0 q).
  { destruct (Qle_bool 0 p) eqn:P, (Qle_bool 0 q) eqn:Q0; try reflexivity.
    - apply Qle_bool_iff in P. rewrite E in P. apply Qle_bool_iff in P. congruence.
    - apply Qle_bool_iff in Q0. rewrite <- E in Q0. apply Qle_bool_iff in Q0. congruence. }
  rewrite Hb. destruct (Qle_bool 0 q); rewrite E; reflexivity.
Qed.

Lemma round2_comp (p q : Q) : p == q -> round2 p = round2 q.
Proof.
  intros E. unfold round2. f_equal. apply round_half_away_comp. rewrite E. reflexivity.
Qed.

Lemma Qle_bool_false (p q : Q) : Qle_bool p q = false -> q < p.
Proof.
  intros H. apply Qnot_le_lt. intros L. apply Qle_bool_iff in L. congruence.
Qed.

Lemma round_half_away_mono (p q : Q) : p <= q -> (round_half_away p <= round_half_away q)%Z.
Proof.
  intros L. unfold round_half_away.
  destruct (Qle_bool 0 p) eqn:P, (Qle_bool 0 q) eqn:Q0.
  - apply Qfloor_resp_le. lra.
  - apply Qle_bool_iff in P. apply Qle_bool_false in Q0. lra.
  - apply Qle_bool_false in P. apply Qle_bool_iff in Q0.
    assert (0 <= Qfloor (q + (1 # 2)))%Z.
    { change 0%Z with (Qfloor 0). apply Qfloor_resp_le. lra. }
    assert (0 <= Qfloor (- p + (1 # 2)))%Z.
    { change 0%Z with (Qfloor 0). apply Qfloor_resp_le. lra. }
    lia.
  - assert (Qfloor (- q + (1 # 2)) <= Qfloor (- p + (1 # 2)))%Z.
    { apply Qfloor_resp_le. lra. }
    lia.
Qed.

Lemma round2_mono (p q : Q) : p <= q -> round2 p <= round2 q.
Proof.
  intros L. unfold round2, Qle. simpl.
  apply Z.mul_le_mono_nonneg_r; [lia|].
  apply round_half_away_mono. lra.
Qed.

(** ** The tax routine *)

Ltac split_bands :=
  repeat match goal with
  | |- context [if Qle_bool ?a ?b then _ else _] =>
      let E := fresh "E" in
      destruct (Qle_bool a b) eqn:E;
      [apply Qle_bool_iff in E | apply Qle_bool_false in E]
  end.

Lemma annual_tax_marginal (x : Q) : annual_tax x == marginal_tax x.
Proof.
  unfold annual_tax, marginal_tax, portion, portion_above, band2, band3, band4, band5, band6.
  split_bands; lra.
Qed.

Lemma annual_tax_mono (x y : Q) : x <= y -> annual_tax x <= annual_tax y.
Proof.
  intros L. unfold annual_tax, band2, band3, band4, band5, band6.
  split_bands; lra.
Qed.

Lemma annual_tax_comp (x y : Q) : x == y -> annual_tax x == annual_tax y.
Proof.
  intros E. apply Qle_antisym; apply annual_tax_mono; rewrite E; apply Qle_refl.
Qed.

(** C1. The routine is the marginal six-band computation, divided by 12 and
    rounded to two decimals; on an annual income of 913000 it returns 3912.50. *)
Theorem calculate_income_tax_is_marginal :
  (forall annual_income : Q,
      calculate_income_tax annual_income = marginal_monthly_tax annual_income)
  /\ calculate_income_tax 913000 == 391250 # 100.
Proof.
  split.
  - intros x. unfold calculate_income_tax, marginal_monthly_tax.
    apply round2_comp. rewrite (annual_tax_marginal x). reflexivity.
  - vm_compute. reflexivity.
Qed.

(** C8. The routine is a function of the income's value, it is monotonic
    non-decreasing, and at each of the five band boundaries the formulas of the
    two adjoining bands give the same amount. *)
Theorem calculate_income_tax_monotone :
  (forall x y : Q, x == y -> calculate_income_tax x = calculate_income_tax y)
  /\ (forall x y : Q, x <= y -> calculate_income_tax x <= calculate_income_tax y)
  /\ (0 == band2 300000
      /\ band2 600000 == band3 600000
      /\ band3 900000 == band4 900000
      /\ band4 1200000 == band5 1200000
      /\ band5 1500000 == band6 1500000).
Proof.
  split; [|split].
  - intros x y E. unfold calculate_income_tax. apply round2_comp.
    rewrite (annual_tax_comp x y E). reflexivity.
  - intros x y L. unfold calculate_income_tax. apply round2_mono.
    apply Qmult_le_compat_r; [apply annual_tax_mono; exact L | discriminate].
  - repeat split; vm_compute; reflexivity.
Qed.

Lemma calculate_income_tax_monotone_witness :
  calculate_income_tax 600000 <= calculate_income_tax 913000.
Proof.
  apply (proj1 (proj2 calculate_income_tax_monotone)). discriminate.
Defined.

(** ** The validators *)



Lemma non_negative_checks_insert (fields : list string) (k : string) (c : cell) (r : row) :
  k ∉ fields ->
  non_negative_checks fields (<[k := c]> r) = non_negative_checks fields r.
Proof.
  induction fields as [|f fields IH]; intros Hk; simpl; [reflexivity|].
  apply not_elem_of_cons in Hk as [Hne Hk].
  rewrite lookup_insert_ne by done.
  destruct (r !! f) as [cf|]; simpl; [|reflexivity].
  destruct (py_float cf) as [v|]; simpl; [|reflexivity].
  destruct (float_ltb v (Fin 0)); [reflexivity|]. apply IH, Hk.
Qed.



Lemma non_negative_checks_pass (fields : list string) (r : row) :
  non_negative_checks fields r = Some None <->
  forall k, k ∈ fields -> exists f, amount r k = Some f /\ float_ltb f (Fin 0) = false.
Proof.
  unfold amount. induction fields as [|f fields IH]; simpl.
  - split; [intros _ k Hk; inversion Hk | reflexivity].
  - split.
    + intros H k Hk.
      destruct (r !! f) as [cf|] eqn:Ec; simpl in H; [|discriminate].
      destruct (py_float cf) as [v|] eqn:Ev; simpl in H; [|discriminate].
      destruct (float_ltb v (Fin 0)) eqn:El; [discriminate|].
      apply elem_of_cons in Hk as [->|Hk].
      * exists v. rewrite Ec. simpl. split; assumption.
      * apply IH; assumption.
    + intros H. destruct (H f) as [v [Ev El]]; [left|].
      destruct (r !! f) as [cf|]; simpl in Ev; [|discriminate].
      simpl. rewrite Ev. simpl. rewrite El. apply IH.
      intros k Hk. apply H. right. exact Hk.
Qed.

Lemma pay_checks_unfold (r : row) :
  pay_checks r =
  match r !! "base_salary" with
  | None => None
  | Some cb =>
      match py_float cb with
      | None => None
      | Some b =>
          if float_leb b (Fin 20000) then reject "base_salary" cb
          else
            match non_negative_checks non_negative_fields r with
            | None => None
            | Some (Some v) => Some v
            | Some None =>
                match r !! "bonus_amount" with
                | None => None
                | Some cbo =>
                    match py_float cbo with
                    | None => None
                    | Some bo =>
                        if float_gtb bo (Fin 25000) then reject "bonus_amount" cbo
                        else Some (true, None)
                    end
                end
            end
      end
  end.
Proof.
  unfold pay_checks.
  destruct (r !! "base_salary") as [cb|]; [|reflexivity].
  cbn -[non_negative_checks]. destruct (py_float cb) as [b|]; [|reflexivity].
  cbn -[non_negative_checks]. destruct (float_leb b (Fin 20000)); [reflexivity|].
  destruct (non_negative_checks non_negative_fields r) as [[v|]|]; reflexivity.
Qed.

Lemma non_negative_checks_early (fields : list string) (r : row) (v : verdict) :
  non_negative_checks fields r = Some (Some v) -> fst v = false.
Proof.
  induction fields as [|f fields IH]; simpl; [discriminate|].
  destruct (r !! f) as [cf|]; simpl; [|discriminate].
  destruct (py_float cf) as [x|]; simpl; [|discriminate].
  destruct (float_ltb x (Fin 0)); [|exact IH].
  intros E. injection E as <-. reflexivity.
Qed.

(** When [validate_pay_data] accepts. *)
Lemma validate_pay_data_accepts (r : row) :
  validate_pay_data r = (true, None) <->
  (exists b, amount r "base_salary" = Some b /\ float_leb b (Fin 20000) = false)
  /\ non_negative_checks non_negative_fields r = Some None
  /\ (exists bo, amount r "bonus_amount" = Some bo /\ float_gtb bo (Fin 25000) = false).
Proof.
  unfold validate_pay_data, amount, reject. rewrite pay_checks_unfold. split.
  - intros H.
    destruct (r !! "base_salary") as [cb|]; [|discriminate].
    cbn [mbind option_bind].
    destruct (py_float cb) as [b|]; [|discriminate].
    destruct (float_leb b (Fin 20000)) eqn:Eb; [discriminate|].
    destruct (non_negative_checks non_negative_fields r) as [[v|]|] eqn:En;
      try discriminate.
    { apply non_negative_checks_early in En. cbn in H. rewrite H in En. discriminate. }
    destruct (r !! "bonus_amount") as [cbo|]; [|discriminate].
    cbn [mbind option_bind].
    destruct (py_float cbo) as [bo|]; [|discriminate].
    destruct (float_gtb bo (Fin 25000)) eqn:Ebo; [discriminate|].
    repeat split; eauto.
  - intros [[b [Eb Lb]] [En [bo [Ebo Lbo]]]].
    destruct (r !! "base_salary") as [cb|]; [|discriminate].
    cbn [mbind option_bind] in Eb. rewrite Eb, Lb, En.
    destruct (r !! "bonus_amount") as [cbo|]; [|discriminate].
    cbn [mbind option_bind] in Ebo. rewrite Ebo, Lbo. reflexivity.
Qed.

Lemma amount_insert_eq (r : row) (k : string) (c : cell) :
  amount (<[k := c]> r) k = py_float c.
Proof. unfold amount. rewrite lookup_insert_eq. reflexivity. Qed.

Lemma amount_insert_ne (r : row) (k k' : string) (c : cell) :
  k <> k' -> amount (<[k := c]> r) k' = amount r k'.
Proof. intros H. unfold amount. rewrite lookup_insert_ne by done. reflexivity. Qed.

(** C7. On a row whose fields are otherwise valid, a [base_salary] of 20000
    is rejected and one of 20000.01 accepted; a [bonus_amount] of 25000 is
    accepted and one of 25000.01 rejected. *)
Theorem validate_pay_data_boundaries (r : row) :
  validate_pay_data r = (true, None) ->
  validate_pay_data (<["base_salary" := CInt 20000]> r)
    = (false, Some (Invalid "base_salary" (CInt 20000)))
  /\ validate_pay_data (<["base_salary" := CFloat (Fin (2000001 # 100))]> r) = (true, None)
  /\ validate_pay_data (<["bonus_amount" := CInt 25000]> r) = (true, None)
  /\ validate_pay_data (<["bonus_amount" := CFloat (Fin (2500001 # 100))]> r)
    = (false, Some (Invalid "bonus_amount" (CFloat (Fin (2500001 # 100))))).
Proof.
  intros H. apply validate_pay_data_accepts in H as [[b [Eb Lb]] [En [bo [Ebo Lbo]]]].
  assert (Hb : "base_salary" ∉ non_negative_fields) by (rewrite list_elem_of_In; simpl; intuition discriminate).
  assert (Hbo : "bonus_amount" ∉ non_negative_fields) by (rewrite list_elem_of_In; simpl; intuition discriminate).
  repeat split.
  - unfold validate_pay_data. rewrite pay_checks_unfold, lookup_insert_eq. reflexivity.
  - apply validate_pay_data_accepts. repeat split.
    + exists (Fin (2000001 # 100)). rewrite amount_insert_eq. split; reflexivity.
    + rewrite non_negative_checks_insert by exact Hb. exact En.
    + exists bo. rewrite amount_insert_ne by done. split; assumption.
  - apply validate_pay_data_accepts. repeat split.
    + exists b. rewrite amount_insert_ne by done. split; assumption.
    + rewrite non_negative_checks_insert by exact Hbo. exact En.
    + exists (Fin (inject_Z 25000)). rewrite amount_insert_eq. split; reflexivity.
  - unfold validate_pay_data, amount in *. rewrite pay_checks_unfold.
    rewrite lookup_insert_ne by done.
    destruct (r !! "base_salary") as [cb|]; [|discriminate].
    cbn [mbind option_bind] in Eb. rewrite Eb, Lb.
    rewrite non_negative_checks_insert by exact Hbo. rewrite En.
    rewrite lookup_insert_eq. reflexivity.
Qed.

Lemma validate_pay_data_boundaries_witness :
  validate_pay_data (<["base_salary" := CInt 20000]> pay_arjun)
    = (false, Some (Invalid "base_salary" (CInt 20000)))
  /\ validate_pay_data (<["base_salary" := CFloat (Fin (2000001 # 100))]> pay_arjun) = (true, None)
  /\ validate_pay_data (<["bonus_amount" := CInt 25000]> pay_arjun) = (true, None)
  /\ validate_pay_data (<["bonus_amount" := CFloat (Fin (2500001 # 100))]> pay_arjun)
    = (false, Some (Invalid "bonus_amount" (CFloat (Fin (2500001 # 100))))).
Proof. apply (validate_pay_data_boundaries pay_arjun). vm_compute. reflexivity. Defined.

(** C5. A missing [first_name] (NaN, or the ['NA'] that [fillna] puts in its
    place) passes [validate_employee_data], and a missing [base_salary] passes
    [validate_pay_data]: neither validator returns invalid there. *)
Theorem validators_accept_missing_values :
  validate_employee_data (<["first_name" := CFloat NaN]> (fillna_NA employee_arjun))
    = (true, None)
  /\ validate_employee_data (fillna_NA (<["first_name" := CFloat NaN]> employee_arjun))
    = (true, None)
  /\ validate_pay_data (<["base_salary" := CFloat NaN]> pay_arjun) = (true, None).
Proof. repeat split; vm_compute; reflexivity. Qed.

(** ** The connection manager *)

Lemma connect_attempts_spec (self : DatabaseManager) (srv : server) (m a : nat) :
  (a + m = max_retries self)%nat ->
  (0 < m)%nat ->
  exists k : nat,
    (k < m)%nat
    /\ (forall i, (a <= i < a + k)%nat -> attempt_succeeds srv i = false)
    /\ fst (connect_attempts self srv (seq a m)) = backoff self a k ++ [Connect (db_name self)]
    /\ ((attempt_succeeds srv (a + k) = true
         /\ snd (connect_attempts self srv (seq a m)) = Connected (a + k))
        \/ (attempt_succeeds srv (a + k) = false /\ k = (m - 1)%nat
            /\ snd (connect_attempts self srv (seq a m)) = RaisedConnectError)).
Proof.
  revert a. induction m as [|m IH]; intros a Hsum Hm; [lia|].
  simpl. destruct (attempt_succeeds srv a) eqn:Ea.
  - exists 0%nat. rewrite Nat.add_0_r. simpl.
    split; [lia|]. split; [intros i Hi; lia|]. split; [reflexivity|].
    left. split; [exact Ea | reflexivity].
  - destruct (Nat.ltb a (max_retries self - 1)) eqn:El.
    + apply Nat.ltb_lt in El.
      destruct (IH (S a)) as [k [Hk [Hfail [Hev Hres]]]]; [lia | lia |].
      exists (S k).
      destruct (connect_attempts self srv (seq (S a) m)) as [events result]. simpl in *.
      replace (a + S k)%nat with (S (a + k))%nat by lia.
      split; [lia|]. split.
      { intros i Hi. destruct (Nat.eq_dec i a) as [->|Hne]; [exact Ea|]. apply Hfail. lia. }
      split; [rewrite Hev; reflexivity|].
      destruct Hres as [[H1 H2]|[H1 [H2 H3]]]; [left | right].
      * split; assumption.
      * split; [assumption|]. split; [lia | assumption].
    + apply Nat.ltb_ge in El. exists 0%nat. rewrite Nat.add_0_r. simpl.
      split; [lia|]. split; [intros i Hi; lia|]. split; [reflexivity|].
      right. split; [exact Ea|]. split; [lia | reflexivity].
Qed.

(** C9. A manager made by [__init__] first runs the existence check on a
    session of its own to [postgres]: when that session does not open, or when
    the catalogue query raises or does not list the database, the call raises
    after the check alone, with no attempt on the database and no wait.  When
    the catalogue lists the database it makes between one and five attempts,
    waits [3 * n] seconds after the failed attempt number [n] before the next
    one, stops at the first success, and raises when the fifth attempt
    fails. *)
Theorem connect_to_psu_db_retries (srv : server) :
  let '(events, result) := connect_to_psu_db init srv in
  hd_error events = Some (Connect "postgres")
  /\ (admin_session_opens srv = false ->
      events = [Connect "postgres"] /\ result = RaisedDoesNotExist)
  /\ (admin_session_opens srv = true -> catalogue_lists_database srv <> Some true ->
      events = [Connect "postgres"; QueryCatalogue "employeedb"]
      /\ result = RaisedDoesNotExist)
  /\ (admin_session_opens srv = true -> catalogue_lists_database srv = Some true ->
      exists k : nat,
        (k < 5)%nat
        /\ (forall i, (i < k)%nat -> attempt_succeeds srv i = false)
        /\ events = [Connect "postgres"; QueryCatalogue "employeedb"]
                    ++ backoff init 0 k ++ [Connect "employeedb"]
        /\ ((attempt_succeeds srv k = true /\ result = Connected k)
            \/ (attempt_succeeds srv k = false /\ k = 4%nat
                /\ result = RaisedConnectError))).
Proof.
  unfold connect_to_psu_db, verify_database_exists.
  destruct (admin_session_opens srv) eqn:Ea.
  - destruct (catalogue_lists_database srv) as [[|]|] eqn:Ec; cbn [negb].
    + destruct (connect_attempts_spec init srv 5 0) as [k [Hk [Hfail [Hev Hres]]]];
        [reflexivity | lia |].
      change (max_retries init) with 5%nat.
      destruct (connect_attempts init srv (seq 0 5)) as [events result].
      cbn [fst snd] in Hev, Hres. rewrite Nat.add_0_l in Hres. subst events.
      split; [reflexivity|]. split; [discriminate|].
      split; [intros _ H; contradiction H; reflexivity|].
      intros _ _. exists k.
      split; [exact Hk|]. split; [intros i Hi; apply Hfail; lia|].
      split; [reflexivity|].
      destruct Hres as [[H1 H2]|[H1 [H2 H3]]]; [left | right].
      * split; assumption.
      * split; [assumption|]. split; [lia | assumption].
    + split; [reflexivity|]. split; [discriminate|].
      split; [intros _ _; split; reflexivity | intros _ H; discriminate H].
    + split; [reflexivity|]. split; [discriminate|].
      split; [intros _ _; split; reflexivity | intros _ H; discriminate H].
  - cbn [negb]. split; [reflexivity|].
    split; [intros _; split; reflexivity|].
    split; intros H; discriminate H.
Qed.

Lemma connect_to_psu_db_retries_witness :
  connect_to_psu_db init
    {| admin_session_opens := true;
       catalogue_lists_database := Some false;
       attempt_succeeds := fun _ => true |}
  = ([Connect "postgres"; QueryCatalogue "employeedb"], RaisedDoesNotExist)
  /\ connect_to_psu_db init
       {| admin_session_opens := true;
          catalogue_lists_database := Some true;
          attempt_succeeds := fun _ => false |}
     = ([Connect "postgres"; QueryCatalogue "employeedb";
         Connect "employeedb"; Sleep 3; Connect "employeedb"; Sleep 6;
         Connect "employeedb"; Sleep 9; Connect "employeedb"; Sleep 12;
         Connect "employeedb"], RaisedConnectError).
Proof.
  split.
  - pose proof (connect_to_psu_db_retries
                  {| admin_session_opens := true;
                     catalogue_lists_database := Some false;
                     attempt_succeeds := fun _ => true |}) as H.
    destruct (connect_to_psu_db init _) as [events result] eqn:E in H.
    destruct H as [_ [_ [H _]]]. rewrite E.
    destruct (H eq_refl ltac:(discriminate)) as [-> ->]. reflexivity.
  - pose proof (connect_to_psu_db_retries
                  {| admin_session_opens := true;
                     catalogue_lists_database := Some true;
                     attempt_succeeds := fun _ => false |}) as H.
    destruct (connect_to_psu_db init _) as [events result] eqn:E in H.
    destruct H as [_ [_ [_ H]]]. specialize (H eq_refl eq_refl).
    rewrite E. destruct H as [k [Hk [_ [Hev [[H _]|[_ [-> ->]]]]]]]; [discriminate H|].
    rewrite Hev. reflexivity.
Defined.

(** ** The import loop *)

Section ImportFacts.

Context {DB : Type}.
Variable execute_insert : DB -> string -> insert_row -> option DB.

Abbreviation ids st := (successful_employee_ids (manager st)).

Lemma import_employee_row_ids (st : @state DB) (c : counts) (r : row) :
  ids st ⊆ ids (fst (import_employee_row execute_insert st c r)).
Proof.
  unfold import_employee_row.
  destruct (validate_employee_data (strip_ifsc_code r)) as [[|] msg]; [|reflexivity].
  destruct (employee_values (strip_ifsc_code r)) as [[id values]|]; [|reflexivity].
  destruct (execute_insert _ _ _); simpl; set_solver.
Qed.

Lemma import_pay_row_ids (st : @state DB) (c : counts) (r : row) :
  ids (fst (import_pay_row execute_insert st c r)) = ids st.
Proof.
  unfold import_pay_row.
  destruct (r !! "employee_id") as [cid|]; [|reflexivity].
  destruct (py_int cid) as [id|]; [|reflexivity].
  destruct (decide _); [|reflexivity].
  destruct (validate_pay_data r) as [[|] msg]; [|reflexivity].
  destruct (r !! "annual_income" ≫= py_float) as [a|]; [|reflexivity].
  destruct (select_calculate_income_tax a); [|reflexivity].
  destruct (pay_values r p); [|reflexivity].
  destruct (execute_insert _ _ _); reflexivity.
Qed.

Lemma import_employee_row_counts (st : @state DB) (c c' : counts) (r : row) :
  snd (import_employee_row execute_insert st c r) = Some c' -> total c' = S (total c).
Proof.
  unfold import_employee_row, total.
  destruct (validate_employee_data (strip_ifsc_code r)) as [[|] msg].
  - destruct (employee_values (strip_ifsc_code r)) as [[id values]|]; [|discriminate].
    destruct (execute_insert _ _ _); simpl; intros [= <-]; simpl; lia.
  - simpl. intros [= <-]. simpl. lia.
Qed.

Lemma import_pay_row_counts (st : @state DB) (c c' : counts) (r : row) :
  snd (import_pay_row execute_insert st c r) = Some c' -> total c' = S (total c).
Proof.
  unfold import_pay_row, total.
  destruct (r !! "employee_id") as [cid|]; [|discriminate].
  destruct (py_int cid) as [id|]; [|discriminate].
  destruct (decide _); [|simpl; intros [= <-]; simpl; lia].
  destruct (validate_pay_data r) as [[|] msg]; [|simpl; intros [= <-]; simpl; lia].
  destruct (r !! "annual_income" ≫= py_float) as [a|]; [|discriminate].
  destruct (select_calculate_income_tax a); [|simpl; intros [= <-]; simpl; lia].
  destruct (pay_values r p); [|discriminate].
  destruct (execute_insert _ _ _); simpl; intros [= <-]; simpl; lia.
Qed.

Lemma for_rows_counts (body : @state DB -> counts -> row -> @state DB * option counts) :
  (forall st c c' r, snd (body st c r) = Some c' -> total c' = S (total c)) ->
  forall rows st c c',
    snd (for_rows body rows st c) = Some c' -> total c' = (total c + length rows)%nat.
Proof.
  intros Hbody. induction rows as [|r rows IH]; intros st c c'; simpl.
  - intros [= <-]. lia.
  - destruct (body st c r) as [st1 [c1|]] eqn:E; [|discriminate].
    intros H. apply IH in H. rewrite H.
    rewrite (Hbody st c c1 r) by (rewrite E; reflexivity). lia.
Qed.

Lemma for_rows_ids (body : @state DB -> counts -> row -> @state DB * option counts) :
  (forall st c r, ids st ⊆ ids (fst (body st c r))) ->
  forall rows st c, ids st ⊆ ids (fst (for_rows body rows st c)).
Proof.
  intros Hbody. induction rows as [|r rows IH]; intros st c; simpl; [reflexivity|].
  specialize (Hbody st c r).
  destruct (body st c r) as [st1 [c1|]]; simpl in *; [|exact Hbody].
  etransitivity; [exact Hbody | apply IH].
Qed.

(** C3. One employee row leaves in the set only what was there and, when the
    row passed validation and its [INSERT] succeeded, its own identifier; when
    the row passed validation and the [INSERT] raised, the set and the database
    are unchanged and the row is counted as failed. *)
Theorem import_employee_row_accepts_after_insert (st : @state DB) (c : counts) (r : row) :
  let st' := fst (import_employee_row execute_insert st c r) in
  (forall i, i ∈ ids st' ->
     i ∈ ids st
     \/ exists values db',
         validate_employee_data (strip_ifsc_code r) = (true, None)
         /\ employee_values (strip_ifsc_code r) = Some (i, values)
         /\ execute_insert (session st) "employees" (combine employee_insert_columns values)
            = Some db'
         /\ session st' = db')
  /\ (forall id values,
        fst (validate_employee_data (strip_ifsc_code r)) = true ->
        employee_values (strip_ifsc_code r) = Some (id, values) ->
        execute_insert (session st) "employees" (combine employee_insert_columns values) = None ->
        ids st' = ids st /\ session st' = session st
        /\ snd (import_employee_row execute_insert st c r) = Some (fail c)).
Proof.
  unfold import_employee_row. split.
  - intros i.
    destruct (validate_employee_data (strip_ifsc_code r)) as [[|] msg] eqn:Ev;
      [|intros H; left; exact H].
    assert (msg = None) as ->.
    { unfold validate_employee_data in Ev.
      destruct (employee_checks (strip_ifsc_code r)) as [v|] eqn:Ec; [|discriminate Ev].
      simpl in Ev. subst v. clear - Ec. unfold employee_checks, reject in Ec.
      repeat match type of Ec with
             | (?o ≫= _) = _ => destruct o; simpl in Ec; [|discriminate Ec]
             | (if ?b then _ else _) = _ => destruct b; [discriminate Ec|]
             end.
      congruence. }
    destruct (employee_values (strip_ifsc_code r)) as [[id values]|]; [|intros H; left; exact H].
    destruct (execute_insert _ _ _) as [db'|] eqn:Ei; [|intros H; left; exact H].
    simpl. intros H. apply elem_of_union in H as [H|H]; [|left; exact H].
    apply elem_of_singleton in H as ->. right. exists values, db'. repeat split; assumption.
  - intros id values Hv Hvals Hins.
    destruct (validate_employee_data (strip_ifsc_code r)) as [[|] msg]; [|discriminate Hv].
    rewrite Hvals, Hins. repeat split.
Qed.

(** A pay row whose [employee_id] converts to an integer outside the set is
    counted as failed, before [validate_pay_data] is consulted, and nothing is
    sent to the database. *)
Lemma import_pay_row_unknown_employee (st : @state DB) (c : counts) (r : row)
      (employee_id : cell) (id : Z) :
  r !! "employee_id" = Some employee_id ->
  py_int employee_id = Some id ->
  id ∉ ids st ->
  import_pay_row execute_insert st c r
  = (logging (SkippingNonExistentEmployee employee_id) st, Some (fail c)).
Proof.
  intros Hc Hi Hn. unfold import_pay_row. rewrite Hc, Hi.
  destruct (decide _); [contradiction | reflexivity].
Qed.

(** C2. A pay row whose [employee_id] is missing (NaN) is in nobody's
    accepted set, yet it is not counted as failed: [int] raises, the run logs
    the error and raises again. *)
Theorem import_data_raises_on_missing_pay_employee_id (self : DatabaseManager) (db : DB) :
  import_data execute_insert self db [] [<["employee_id" := CFloat NaN]> pay_arjun]
  = (State self db [EmployeesImportCompleted 0 0; ErrorImportingData], Raised).
Proof. reflexivity. Qed.

(** C6 as amended. A run never removes an identifier from the set it was
    given, so identifiers accepted by an earlier run on the same manager still
    gate the pay rows of this one; the four counters of a completed run count
    the rows of this run only; a new manager starts with the empty set. *)
Theorem import_data_keeps_accepted_ids (self : DatabaseManager) (db : DB)
        (employees_df pay_df : list row) :
  let '(st, result) := import_data execute_insert self db employees_df pay_df in
  successful_employee_ids self ⊆ ids st
  /\ (forall ec pc, result = Completed ec pc ->
        total ec = length employees_df /\ total pc = length pay_df)
  /\ successful_employee_ids init = ∅.
Proof.
  unfold import_data.
  pose proof (for_rows_ids (import_employee_row execute_insert) import_employee_row_ids
                (map fillna_NA employees_df) (State self db []) (Counts 0 0)) as Hids.
  pose proof (for_rows_counts (import_employee_row execute_insert) import_employee_row_counts
                (map fillna_NA employees_df) (State self db []) (Counts 0 0)) as Hcnt.
  destruct (for_rows (import_employee_row execute_insert) _ _ _) as [st1 [ec|]]; simpl in *.
  2: { repeat split; [exact Hids | discriminate | discriminate]. }
  destruct (mapM prepare_pay_row pay_df) as [pay_rows|] eqn:Em.
  2: { repeat split; [exact Hids | discriminate | discriminate]. }
  apply length_mapM in Em.
  set (st2 := logging _ st1).
  pose proof (for_rows_ids (import_pay_row execute_insert)
                (fun st c r => eq_ind_r (fun s => ids st ⊆ s) (reflexivity _)
                                        (import_pay_row_ids st c r))
                pay_rows st2 (Counts 0 0)) as Hids2.
  pose proof (for_rows_counts (import_pay_row execute_insert) import_pay_row_counts
                pay_rows st2 (Counts 0 0)) as Hcnt2.
  destruct (for_rows (import_pay_row execute_insert) _ _ _) as [st3 [pc|]]; simpl in *.
  - repeat split.
    + etransitivity; [exact Hids | exact Hids2].
    + injection H as <- _. rewrite (Hcnt ec eq_refl), length_map. reflexivity.
    + injection H as _ <-. rewrite (Hcnt2 pc eq_refl). simpl. lia.
  - repeat split; [etransitivity; [exact Hids | exact Hids2] | discriminate | discriminate].
Qed.

End ImportFacts.

(** C6, as stated, fails: the identifier accepted by a first run gates the pay
    row of a second run on the same manager, which has no employee rows. *)
Lemma accepted_ids_survive_into_next_run :
  let run1 := import_data store_insert init empty_store [employee_arjun] [] in
  let run2 := import_data store_insert (manager (fst run1)) (session (fst run1))
                          [] [pay_arjun] in
  elements (successful_employee_ids (manager (fst run1))) = [1234567%Z]
  /\ snd run2 = Completed (Counts 0 0) (Counts 1 0)
  /\ ~ (successful_employee_ids (manager (fst run1)) = ∅).
Proof.
  cbv zeta. split; [vm_compute; reflexivity|]. split; [vm_compute; reflexivity|].
  intros H. apply (f_equal elements) in H. vm_compute in H. discriminate H.
Qed.

(** ** Annual income and the pay [INSERT] *)






(** *** Whole amounts in machine arithmetic *)















(** ** The unchecked allowances *)




Section Unchecked.

Context {DB : Type}.
Variable execute_insert : DB -> string -> insert_row -> option DB.


End Unchecked.


Lemma import_employee_row_accepts_after_insert_witness :
  successful_employee_ids
    (manager (fst (import_employee_row store_insert after_arjun (Counts 1 0)
                                       (fillna_NA employee_arjun))))
  = successful_employee_ids (manager after_arjun)
  /\ session (fst (import_employee_row store_insert after_arjun (Counts 1 0)
                                       (fillna_NA employee_arjun)))
     = session after_arjun
  /\ snd (import_employee_row store_insert after_arjun (Counts 1 0) (fillna_NA employee_arjun))
     = Some (Counts 1 1).
Proof.
  pose proof (proj2 (import_employee_row_accepts_after_insert
                       store_insert after_arjun (Counts 1 0) (fillna_NA employee_arjun))) as H.
  cbv zeta in H.
  destruct (employee_values (strip_ifsc_code (fillna_NA employee_arjun)))
    as [[id values]|] eqn:E; [|vm_compute in E; discriminate E].
  apply (H id values); [vm_compute; reflexivity | reflexivity |].
  vm_compute in E. injection E as <- <-. vm_compute. reflexivity.
Defined.

(** ** Further properties of the tax routine *)

Lemma round2_zero : round2 0 == 0.
Proof. reflexivity. Qed.

Lemma annual_tax_nonneg (x : Q) : 0 <= annual_tax x.
Proof.
  unfold annual_tax, band2, band3, band4, band5, band6. split_bands; lra.
Qed.

(** The monthly tax is never negative, and it is zero up to an annual income
    of 300000. *)
Theorem calculate_income_tax_nonnegative (annual_income : Q) :
  0 <= calculate_income_tax annual_income
  /\ (annual_income <= 300000 -> calculate_income_tax annual_income == 0).
Proof.
  unfold calculate_income_tax. split.
  - rewrite <- round2_zero. apply round2_mono.
    apply Qle_shift_div_l; [reflexivity|]. rewrite Qmult_0_l. apply annual_tax_nonneg.
  - intros H. unfold annual_tax. apply Qle_bool_iff in H. rewrite H. reflexivity.
Qed.

Lemma calculate_income_tax_nonnegative_witness :
  calculate_income_tax 300000 == 0.
Proof.
  apply (proj2 (calculate_income_tax_nonnegative 300000)). apply Qle_refl.
Defined.

Lemma round_half_away_near (q : Q) :
  q - (1 # 2) <= inject_Z (round_half_away q) <= q + (1 # 2).
Proof.
  unfold round_half_away. destruct (Qle_bool 0 q).
  - pose proof (Qfloor_le (q + (1 # 2))). pose proof (Qlt_floor (q + (1 # 2))) as L.
    rewrite inject_Z_plus in L. change (inject_Z 1) with 1 in L. lra.
  - pose proof (Qfloor_le (- q + (1 # 2))). pose proof (Qlt_floor (- q + (1 # 2))) as L.
    rewrite inject_Z_plus in L. change (inject_Z 1) with 1 in L.
    rewrite inject_Z_opp. lra.
Qed.

Lemma round2_near (q : Q) : q - (1 # 200) <= round2 q <= q + (1 # 200).
Proof.
  pose proof (round_half_away_near (q * 100)) as H.
  assert (E : round2 q == inject_Z (round_half_away (q * 100)) / 100).
  { unfold round2. rewrite Qmake_Qdiv. reflexivity. }
  rewrite E. split.
  - apply Qle_shift_div_l; [reflexivity|]. lra.
  - apply Qle_shift_div_r; [reflexivity|]. lra.
Qed.

(** No cliff: out of each extra unit of annual income the annual tax takes at
    most 30 hundredths, so the monthly figure grows by at most a twelfth of
    that, up to one hundredth of rounding. *)
Theorem calculate_income_tax_marginal_rate (x y : Q) :
  x <= y ->
  annual_tax y - annual_tax x <= (30 # 100) * (y - x)
  /\ calculate_income_tax y - calculate_income_tax x
     <= (30 # 100) * (y - x) / 12 + (1 # 100).
Proof.
  intros L.
  assert (A : annual_tax y - annual_tax x <= (30 # 100) * (y - x)).
  { unfold annual_tax, band2, band3, band4, band5, band6. split_bands; lra. }
  split; [exact A|]. unfold calculate_income_tax.
  pose proof (round2_near (annual_tax y / 12)) as [_ Hy].
  pose proof (round2_near (annual_tax x / 12)) as [Hx _].
  assert (D : annual_tax y / 12 - annual_tax x / 12 <= (30 # 100) * (y - x) / 12).
  { unfold Qdiv. rewrite <- (Qmult_le_r _ _ 12) by reflexivity. field_simplify. lra. }
  lra.
Qed.

Lemma calculate_income_tax_marginal_rate_witness :
  annual_tax 913000 - annual_tax 600000 <= (30 # 100) * (913000 - 600000)
  /\ calculate_income_tax 913000 - calculate_income_tax 600000
     <= (30 # 100) * (913000 - 600000) / 12 + (1 # 100).
Proof. apply (calculate_income_tax_marginal_rate 600000 913000). discriminate. Defined.

(** ** Further properties of the validators *)

Ltac stage H :=
  match type of H with
  | default _ (?o ≫= _) = _ =>
      let c := fresh "c" in let E := fresh "E" in
      destruct o as [c|] eqn:E; cbn [mbind option_bind default] in H; [|discriminate H]
  | default _ (if ?b then _ else _) = _ =>
      let E := fresh "E" in
      destruct b eqn:E; cbn [default] in H; [discriminate H|]
  end.

Lemma validate_employee_data_shape (r : row) :
  validate_employee_data r = (true, None)
  \/ exists why, validate_employee_data r = (false, Some why).
Proof.
  unfold validate_employee_data, employee_checks, reject.
  repeat match goal with
         | |- context [default _ (?o ≫= _)] =>
             destruct o; cbn [mbind option_bind default]; [|right; eexists; reflexivity]
         | |- context [default _ (if ?b then _ else _)] =>
             destruct b; cbn [default]; [right; eexists; reflexivity|]
         end.
  left. reflexivity.
Qed.

(** Acceptance by [validate_employee_data] against the nine tests, read as
    a property of the row. *)
Lemma validate_employee_data_rules (r : row) :
  (validate_employee_data r = (true, None) <-> employee_rules_hold r)
  /\ (~ employee_rules_hold r -> exists why, validate_employee_data r = (false, Some why)).
Proof.
  assert (Hiff : validate_employee_data r = (true, None) <-> employee_rules_hold r).
  { unfold employee_rules_hold, text_passes. split.
    - intros H. unfold validate_employee_data, employee_checks, reject in H.
      do 20 (try stage H).
      repeat match goal with
             | G : negb (?a && ?b) = false |- _ =>
                 apply negb_false_iff, andb_true_iff in G as [Lo Hi];
                 apply Z.leb_le in Lo, Hi
             | G : negb ?a && negb ?b = false |- _ =>
                 assert (a || b = true)
                   by (destruct a; [reflexivity|]; destruct b; [reflexivity | discriminate G]);
                 clear G
             | G : negb _ = false |- _ => apply negb_false_iff in G
             end.
      repeat split; eauto 6.
    - intros (H0 & H1 & H2 & H3 & H4 & H5 & H6 & H7 & H8).
      destruct H0 as (c & id & E & Ei & Lo & Hi).
      destruct H1 as (c1 & E1 & P1). destruct H2 as (c2 & E2 & P2).
      destruct H3 as (c3 & E3 & P3). destruct H4 as (c4 & E4 & P4).
      destruct H5 as (c5 & E5 & P5). destruct H6 as (c6 & E6 & P6).
      destruct H7 as (c7 & E7 & P7). destruct H8 as (c8 & E8 & P8).
      unfold validate_employee_data, employee_checks, reject.
      rewrite E. cbn [mbind option_bind]. rewrite Ei. cbn [mbind option_bind].
      apply Z.leb_le in Lo, Hi. rewrite Lo, Hi. cbn [andb negb].
      rewrite E1. cbn [mbind option_bind]. rewrite P1. cbn [negb].
      rewrite E2. cbn [mbind option_bind]. rewrite P2. cbn [negb].
      rewrite E3. cbn [mbind option_bind]. rewrite P3. cbn [negb].
      rewrite E4. cbn [mbind option_bind].
      replace (negb (String.eqb (py_str c4) "NA") && negb (re_match re_quarter_no (py_str c4)))
        with false
        by (destruct (String.eqb (py_str c4) "NA"), (re_match re_quarter_no (py_str c4));
            try reflexivity; discriminate P4).
      rewrite E5. cbn [mbind option_bind]. rewrite P5. cbn [negb].
      rewrite E6. cbn [mbind option_bind]. rewrite P6. cbn [negb].
      rewrite E7. cbn [mbind option_bind]. rewrite P7. cbn [negb].
      rewrite E8. cbn [mbind option_bind]. rewrite P8. reflexivity. }
  split; [exact Hiff|].
  intros Hn. destruct (validate_employee_data_shape r) as [H|H]; [|exact H].
  contradiction Hn. apply Hiff, H.
Qed.

(** [validate_employee_data] accepts exactly the rows that have the nine
    validated columns with values passing their tests; every other row is
    rejected with a diagnostic, never accepted with one. *)
Theorem validate_employee_data_accepts (r : row) :
  (validate_employee_data r = (true, None) <-> employee_rules_hold r)
  /\ (~ employee_rules_hold r -> exists why, validate_employee_data r = (false, Some why)).
Proof. exact (validate_employee_data_rules r). Qed.

Lemma validate_employee_data_accepts_witness :
  exists why, validate_employee_data (<["phone_number" := CStr "12345"]> employee_arjun)
              = (false, Some why).
Proof.
  apply (proj2 (validate_employee_data_accepts _)).
  intros [_ [_ [_ [_ [_ [_ [[c [E P]] _]]]]]]].
  vm_compute in E. injection E as <-. vm_compute in P. discriminate P.
Defined.

(** An [employee_id] that converts to an integer outside 1000000..9999999 is
    rejected with the diagnostic of that field, whatever the other columns
    hold; one that is missing or does not convert is rejected as a validation
    error. *)
Theorem validate_employee_data_employee_id (r : row) :
  (forall c id, r !! "employee_id" = Some c -> py_int c = Some id ->
     (id < 1000000 \/ 9999999 < id)%Z ->
     validate_employee_data r = (false, Some (Invalid "employee_id" c)))
  /\ (r !! "employee_id" ≫= py_int = None ->
      validate_employee_data r = (false, Some ValidationError)).
Proof.
  unfold validate_employee_data, employee_checks, reject. split.
  - intros c id E Ei Hr. rewrite E. cbn [mbind option_bind]. rewrite Ei.
    cbn [mbind option_bind].
    replace (Z.leb 1000000 id && Z.leb id 9999999) with false; [reflexivity|].
    symmetry. apply andb_false_iff. destruct Hr; [left | right]; apply Z.leb_gt; assumption.
  - intros H. destruct (r !! "employee_id") as [c|]; cbn [mbind option_bind] in *;
      [|reflexivity].
    rewrite H. reflexivity.
Qed.

Lemma validate_employee_data_employee_id_witness :
  validate_employee_data (<["employee_id" := CInt 999999]> employee_arjun)
  = (false, Some (Invalid "employee_id" (CInt 999999)))
  /\ validate_employee_data (<["employee_id" := CStr "NA"]> employee_arjun)
     = (false, Some ValidationError).
Proof.
  split.
  - apply (proj1 (validate_employee_data_employee_id _) (CInt 999999) 999999%Z);
      [reflexivity | reflexivity | left; reflexivity].
  - apply (proj2 (validate_employee_data_employee_id _)). reflexivity.
Defined.

Lemma validate_pay_data_shape (r : row) :
  validate_pay_data r = (true, None) \/ exists why, validate_pay_data r = (false, Some why).
Proof.
  unfold validate_pay_data. rewrite pay_checks_unfold. unfold reject.
  destruct (r !! "base_salary") as [cb|]; [|right; eexists; reflexivity].
  destruct (py_float cb) as [b|]; [|right; eexists; reflexivity].
  destruct (float_leb b (Fin 20000)); [right; eexists; reflexivity|].
  destruct (non_negative_checks non_negative_fields r) as [[[ok why]|]|] eqn:E;
    [|destruct (r !! "bonus_amount") as [cbo|]; [|right; eexists; reflexivity];
      destruct (py_float cbo) as [bo|]; [|right; eexists; reflexivity];
      destruct (float_gtb bo (Fin 25000)); [right; eexists; reflexivity | left; reflexivity]
     |right; eexists; reflexivity].
  right. clear - E. revert E. generalize non_negative_fields.
  induction l as [|f l IH]; simpl; [discriminate|].
  destruct (r !! f) as [cf|]; simpl; [|discriminate].
  destruct (py_float cf) as [x|]; simpl; [|discriminate].
  destruct (float_ltb x (Fin 0)); [|exact IH].
  intros [= <- <-]. eexists; reflexivity.
Qed.

(** [validate_pay_data] accepts exactly when the seven checked fields convert
    to floats for which none of the rejecting comparisons is true; otherwise it
    rejects with a diagnostic. *)
Theorem validate_pay_data_accepts_exactly (r : row) :
  (validate_pay_data r = (true, None) <->
   (exists b, amount r "base_salary" = Some b /\ float_leb b (Fin 20000) = false)
   /\ (forall k, k ∈ non_negative_fields ->
         exists f, amount r k = Some f /\ float_ltb f (Fin 0) = false)
   /\ (exists bo, amount r "bonus_amount" = Some bo /\ float_gtb bo (Fin 25000) = false))
  /\ (validate_pay_data r <> (true, None) -> exists why, validate_pay_data r = (false, Some why)).
Proof.
  split.
  - rewrite validate_pay_data_accepts, non_negative_checks_pass. reflexivity.
  - intros Hn. destruct (validate_pay_data_shape r) as [H|H]; [contradiction | exact H].
Qed.

Lemma validate_pay_data_accepts_exactly_witness :
  exists why, validate_pay_data (<["da" := CStr "ten"]> pay_arjun) = (false, Some why).
Proof.
  apply (proj2 (validate_pay_data_accepts_exactly _)). vm_compute. discriminate.
Defined.

(** The first failing test decides: a [base_salary] of at most 20000 gives
    the diagnostic of [base_salary] whatever the other fields hold, and a
    missing or non-numeric [base_salary] gives a validation error. *)
Theorem validate_pay_data_base_salary_first (r : row) :
  (forall c b, r !! "base_salary" = Some c -> py_float c = Some b ->
     float_leb b (Fin 20000) = true ->
     validate_pay_data r = (false, Some (Invalid "base_salary" c)))
  /\ (amount r "base_salary" = None -> validate_pay_data r = (false, Some ValidationError)).
Proof.
  unfold validate_pay_data, amount. rewrite pay_checks_unfold. split.
  - intros c b E Eb L. rewrite E, Eb, L. reflexivity.
  - intros H. destruct (r !! "base_salary") as [c|]; cbn [mbind option_bind] in H;
      [|reflexivity].
    rewrite H. reflexivity.
Qed.

Lemma validate_pay_data_base_salary_first_witness :
  validate_pay_data (<["base_salary" := CInt 15000]> (<["bonus_amount" := CInt 99999]> pay_arjun))
  = (false, Some (Invalid "base_salary" (CInt 15000)))
  /\ validate_pay_data (<["base_salary" := CStr "abc"]> pay_arjun)
     = (false, Some ValidationError).
Proof.
  split.
  - apply (proj1 (validate_pay_data_base_salary_first _) (CInt 15000) (Fin 15000));
      reflexivity.
  - apply (proj2 (validate_pay_data_base_salary_first _)). reflexivity.
Defined.

(** ** Further properties of the import loop *)

Section ImportExtras.

Context {DB : Type}.
Variable execute_insert : DB -> string -> insert_row -> option DB.

(** A pay row whose [employee_id] converts to an integer that is not in the
    set is counted as failed and logged as referring to a non-existent
    employee; the database and the set are untouched, and the verdict of
    [validate_pay_data] plays no part. *)
Theorem import_pay_row_rejects_unknown_employee (st : @state DB) (c : counts) (r : row)
        (employee_id : cell) (id : Z) :
  r !! "employee_id" = Some employee_id ->
  py_int employee_id = Some id ->
  id ∉ successful_employee_ids (manager st) ->
  import_pay_row execute_insert st c r
  = (State (manager st) (session st) (log st ++ [SkippingNonExistentEmployee employee_id]),
     Some (Counts (successful c) (S (failed c)))).
Proof.
  intros Hc Hi Hn.
  rewrite (import_pay_row_unknown_employee execute_insert st c r employee_id id Hc Hi Hn).
  reflexivity.
Qed.

(** A row of either kind that is not counted as successful changes neither
    the database nor the set of accepted identifiers. *)
Theorem unsuccessful_rows_change_nothing (st : @state DB) (c : counts) (r : row) :
  (snd (import_employee_row execute_insert st c r) <> Some (succeed c) ->
   session (fst (import_employee_row execute_insert st c r)) = session st
   /\ manager (fst (import_employee_row execute_insert st c r)) = manager st)
  /\ (snd (import_pay_row execute_insert st c r) <> Some (succeed c) ->
      session (fst (import_pay_row execute_insert st c r)) = session st
      /\ manager (fst (import_pay_row execute_insert st c r)) = manager st).
Proof.
  split.
  - unfold import_employee_row.
    destruct (validate_employee_data (strip_ifsc_code r)) as [[|] msg]; [|split; reflexivity].
    destruct (employee_values (strip_ifsc_code r)) as [[id values]|]; [|split; reflexivity].
    destruct (execute_insert _ _ _); cbn [fst snd]; [|split; reflexivity].
    intros H. contradiction H. reflexivity.
  - unfold import_pay_row.
    destruct (r !! "employee_id") as [cid|]; [|split; reflexivity].
    destruct (py_int cid) as [id|]; [|split; reflexivity].
    destruct (decide _); [|split; reflexivity].
    destruct (validate_pay_data r) as [[|] msg]; [|split; reflexivity].
    destruct (r !! "annual_income" ≫= py_float) as [a|]; [|split; reflexivity].
    destruct (select_calculate_income_tax a); [|split; reflexivity].
    destruct (pay_values r p); [|split; reflexivity].
    destruct (execute_insert _ _ _); cbn [fst snd]; [|split; reflexivity].
    intros H. contradiction H. reflexivity.
Qed.


(** A property of the database kept by every successful [INSERT] is kept by
    the two loops of [import_data]. *)
Lemma import_data_invariant (I : DB -> Prop) (self : DatabaseManager) (db : DB)
        (employees_df pay_df : list row) :
  (forall d table params d', execute_insert d table params = Some d' -> I d -> I d') ->
  I db ->
  I (session (fst (import_data execute_insert self db employees_df pay_df))).
Proof.
  intros Hstep Hdb.
  assert (Hemp : forall st c r, I (session st) ->
                   I (session (fst (import_employee_row execute_insert st c r)))).
  { intros st c r H. unfold import_employee_row.
    destruct (validate_employee_data (strip_ifsc_code r)) as [[|] msg]; [|exact H].
    destruct (employee_values (strip_ifsc_code r)) as [[id values]|]; [|exact H].
    destruct (execute_insert _ _ _) eqn:E; [|exact H]. exact (Hstep _ _ _ _ E H). }
  assert (Hpay : forall st c r, I (session st) ->
                   I (session (fst (import_pay_row execute_insert st c r)))).
  { intros st c r H. unfold import_pay_row.
    destruct (r !! "employee_id") as [cid|]; [|exact H].
    destruct (py_int cid) as [id|]; [|exact H].
    destruct (decide _); [|exact H].
    destruct (validate_pay_data r) as [[|] msg]; [|exact H].
    destruct (r !! "annual_income" ≫= py_float) as [a|]; [|exact H].
    destruct (select_calculate_income_tax a); [|exact H].
    destruct (pay_values r p); [|exact H].
    destruct (execute_insert _ _ _) eqn:E; [|exact H]. exact (Hstep _ _ _ _ E H). }
  assert (Hloop : forall body,
             (forall st c r, I (session st) -> I (session (fst (body st c r)))) ->
             forall rows st c, I (session st) ->
                               I (session (fst (for_rows body rows st c)))).
  { intros body Hbody. induction rows as [|r rows IH]; intros st c H; [exact H|].
    simpl. specialize (Hbody st c r H).
    destruct (body st c r) as [st1 [c1|]]; [apply IH|]; exact Hbody. }
  unfold import_data.
  pose proof (Hloop _ Hemp (map fillna_NA employees_df) (State self db []) (Counts 0 0) Hdb)
    as H1.
  destruct (for_rows (import_employee_row execute_insert) _ _ _) as [st1 [ec|]];
    cbn [fst session logging] in *; [|exact H1].
  destruct (mapM prepare_pay_row pay_df) as [pay_rows|]; [|exact H1].
  pose proof (Hloop _ Hpay pay_rows
                (logging (EmployeesImportCompleted (successful ec) (failed ec)) st1)
                (Counts 0 0) H1) as H2.
  destruct (for_rows (import_pay_row execute_insert) _ _ _) as [st3 [pc|]];
    cbn [fst session logging] in *; exact H2.
Qed.

(** [import_data] changes the database through [INSERT]s only: a property of
    the database that every successful [INSERT] preserves holds after the run,
    completed or aborted, if it held before. *)
Theorem import_data_preserves_invariants (I : DB -> Prop) (self : DatabaseManager) (db : DB)
        (employees_df pay_df : list row) :
  (forall d table params d', execute_insert d table params = Some d' -> I d -> I d') ->
  I db ->
  I (session (fst (import_data execute_insert self db employees_df pay_df))).
Proof. exact (import_data_invariant I self db employees_df pay_df). Qed.

End ImportExtras.

(** ** The constraints of the two tables *)

Lemma forallb_no_key {A} `{EqDecision A} (get : insert_row -> option A) (x : A)
      (rows : list insert_row) :
  forallb (fun old => negb (bool_decide (get old = Some x))) rows = true ->
  x ∉ omap get rows.
Proof.
  intros H Hin. apply list_elem_of_omap in Hin as [old [Hold Hget]].
  rewrite forallb_forall in H. apply list_elem_of_In in Hold.
  specialize (H old Hold). rewrite bool_decide_eq_true_2 in H by exact Hget. discriminate H.
Qed.

Lemma omap_snoc {A B} (f : A -> option B) (l : list A) (x : A) (y : B) :
  f x = Some y -> omap f (l ++ [x]) = omap f l ++ [y].
Proof. intros H. rewrite omap_app. simpl. rewrite H. reflexivity. Qed.

Lemma NoDup_snoc {A} (l : list A) (x : A) : NoDup l -> x ∉ l -> NoDup (l ++ [x]).
Proof.
  intros Hl Hx. apply NoDup_app. split; [exact Hl|]. split.
  - intros y Hy Hin. apply list_elem_of_singleton in Hin as ->. contradiction.
  - apply NoDup_singleton.
Qed.

Lemma pay_structure_row_keys (r stored : insert_row) :
  pay_structure_row r = Some stored ->
  int_column "pay_id" stored = int_column "pay_id" r
  /\ int_column "employee_id" stored = int_column "employee_id" r
  /\ is_Some (int_column "pay_id" r) /\ is_Some (int_column "employee_id" r).
Proof.
  unfold pay_structure_row.
  destruct (int_column "pay_id" r) as [pay_id|]; [|discriminate].
  destruct (int_column "employee_id" r) as [employee_id|]; [|discriminate].
  cbn [mbind option_bind].
  destruct (mapM _ _) as [amounts|]; [|discriminate]. cbn [mbind option_bind].
  do 12 (destruct amounts as [|? amounts]; try discriminate).
  repeat match goal with
         | |- context [numeric_10_2 ?x ≫= _] =>
             destruct (numeric_10_2 x); cbn [mbind option_bind]; [|discriminate]
         end.
  match goal with |- context [if ?b then _ else _] => destruct b; [|discriminate] end.
  intros [= <-]. repeat split; try reflexivity; eexists; reflexivity.
Qed.

(** The constraints of the two tables, one accepted [INSERT] at a time. *)
Lemma store_insert_consistent (t t' : table_store) (table : string) (r : insert_row) :
  store_insert t table r = Some t' -> store_consistent t -> store_consistent t'.
Proof.
  unfold store_insert. intros H (Hk & He & Hp & Hfk).
  destruct (String.eqb table "employees").
  - destruct (employees_accepts t r) eqn:Ha; [|discriminate]. injection H as <-.
    unfold employees_accepts in Ha.
    destruct (int_column "employee_id" r) as [id|] eqn:Eid; [|discriminate].
    destruct (text_column "email_id" r) as [email|] eqn:Eem; [|discriminate].
    destruct (text_column "quarter_no" r); [|discriminate].
    destruct (text_column "date_of_joining" r); [|discriminate].
    repeat (apply andb_true_iff in Ha as [Ha ?]).
    unfold store_consistent, employee_keys, employee_emails, pay_keys. cbn [employees pay_structure].
    rewrite (omap_snoc _ _ _ _ Eid), (omap_snoc _ _ _ _ Eem).
    split; [apply NoDup_snoc; [exact Hk | apply forallb_no_key; assumption]|].
    split; [apply NoDup_snoc; [exact He | apply forallb_no_key; assumption]|].
    split; [exact Hp|].
    intros p i Hp' Hi. apply elem_of_app. left. exact (Hfk p i Hp' Hi).
  - destruct (String.eqb table "pay_structure"); [|discriminate].
    destruct (pay_structure_row r) as [stored|] eqn:Es; [|discriminate].
    destruct (pay_structure_row_keys _ _ Es) as (Kp & Ke & [pid Epid] & [eid Eeid]).
    cbn [mbind option_bind] in H. rewrite Kp, Ke, Epid, Eeid in H.
    cbn [mbind option_bind] in H.
    match type of H with (if ?b then _ else _) = _ => destruct b eqn:Hb; [|discriminate] end.
    injection H as <-. apply andb_true_iff in Hb as [Hfresh Hknown].
    unfold store_consistent, employee_keys, employee_emails, pay_keys.
    cbn [employees pay_structure].
    split; [exact Hk|]. split; [exact He|]. split.
    + rewrite (omap_snoc _ _ _ pid) by (rewrite Kp; exact Epid).
      apply NoDup_snoc; [exact Hp | apply forallb_no_key; assumption].
    + intros p i Hin Hi. apply elem_of_app in Hin as [Hin|Hin]; [exact (Hfk p i Hin Hi)|].
      apply list_elem_of_singleton in Hin as ->. rewrite Ke, Eeid in Hi. injection Hi as <-.
      apply existsb_exists in Hknown as [e [Hin He']].
      apply bool_decide_eq_true_1 in He'. apply list_elem_of_omap.
      exists e. split; [apply list_elem_of_In; exact Hin | exact He'].
Qed.

(** Every accepted [INSERT] keeps the primary keys and the e-mails unique and
    every pay row attached to an employee row. *)
Theorem store_insert_keeps_consistency (t t' : table_store) (table : string) (r : insert_row) :
  store_insert t table r = Some t' -> store_consistent t -> store_consistent t'.
Proof. exact (store_insert_consistent t t' table r). Qed.

Lemma store_insert_keeps_consistency_witness :
  store_consistent (session after_arjun).
Proof.
  apply (store_insert_keeps_consistency empty_store (session after_arjun) "employees"
           (combine employee_insert_columns
              (default [] (snd <$> employee_values (strip_ifsc_code (fillna_NA employee_arjun)))))).
  - vm_compute. reflexivity.
  - repeat split; try apply NoDup_nil_2. intros p id Hp. inversion Hp.
Defined.

(** Whatever the two files hold, a run of [import_data] on a consistent store
    leaves a consistent store, also when it aborts. *)
Theorem import_data_keeps_store_consistent (self : DatabaseManager) (t : table_store)
        (employees_df pay_df : list row) :
  store_consistent t ->
  store_consistent (session (fst (import_data store_insert self t employees_df pay_df))).
Proof.
  apply (import_data_invariant store_insert store_consistent).
  intros d table params d' H. exact (store_insert_consistent d d' table params H).
Qed.

Lemma import_data_keeps_store_consistent_witness :
  store_consistent
    (session (fst (import_data store_insert init empty_store
                               [employee_arjun; employee_arjun] [pay_arjun; pay_arjun]))).
Proof.
  apply import_data_keeps_store_consistent.
  repeat split; try apply NoDup_nil_2. intros p id Hp. inversion Hp.
Defined.

(** The primary key of [employees]: once a row is stored, an [INSERT] of any
    row with the same [employee_id] raises, so running the same file again
    adds nothing. *)
Theorem store_rejects_duplicate_employee (t t' : table_store) (r r' : insert_row) :
  store_insert t "employees" r = Some t' ->
  int_column "employee_id" r' = int_column "employee_id" r ->
  store_insert t' "employees" r' = None.
Proof.
  unfold store_insert. cbn [String.eqb Ascii.eqb Bool.eqb].
  change (String.eqb "employees" "employees") with true. cbv iota.
  destruct (employees_accepts t r) eqn:Ha; [|discriminate]. intros [= <-] Hsame.
  unfold employees_accepts in *. cbn [employees].
  rewrite Hsame.
  destruct (int_column "employee_id" r) as [id|] eqn:Eid; [|reflexivity].
  destruct (text_column "email_id" r'); [|reflexivity].
  destruct (text_column "quarter_no" r'); [|reflexivity].
  destruct (text_column "date_of_joining" r'); [|reflexivity].
  assert (Hdup : forallb (fun old => negb (bool_decide (int_column "employee_id" old = Some id)))
                         (employees t ++ [r]) = false).
  { rewrite forallb_app. simpl. rewrite (bool_decide_eq_true_2 _ Eid).
    simpl. apply andb_false_r. }
  rewrite Hdup. rewrite andb_false_r. reflexivity.
Qed.

Lemma store_rejects_duplicate_employee_witness :
  store_insert (session after_arjun) "employees"
               [("employee_id", SqlInt 1234567); ("email_id", SqlText "x.y@sail.bokaro.com")]
  = None.
Proof.
  apply (store_rejects_duplicate_employee empty_store (session after_arjun)
           (combine employee_insert_columns
              (default [] (snd <$> employee_values (strip_ifsc_code (fillna_NA employee_arjun)))))).
  - vm_compute. reflexivity.
  - reflexivity.
Defined.

Lemma import_pay_row_rejects_unknown_employee_witness :
  import_pay_row store_insert (State init empty_store []) (Counts 0 0) pay_negative_ta
  = (State init empty_store [SkippingNonExistentEmployee (CInt 1234567)], Some (Counts 0 1)).
Proof.
  apply (import_pay_row_rejects_unknown_employee store_insert (State init empty_store [])
           (Counts 0 0) pay_negative_ta (CInt 1234567) 1234567%Z).
  - reflexivity.
  - reflexivity.
  - apply not_elem_of_empty.
Defined.

Lemma unsuccessful_rows_change_nothing_witness :
  session (fst (import_employee_row store_insert after_arjun (Counts 1 0)
                                    (fillna_NA employee_arjun)))
  = session after_arjun
  /\ manager (fst (import_employee_row store_insert after_arjun (Counts 1 0)
                                       (fillna_NA employee_arjun)))
     = manager after_arjun.
Proof.
  apply (proj1 (unsuccessful_rows_change_nothing store_insert after_arjun (Counts 1 0)
                  (fillna_NA employee_arjun))).
  vm_compute. discriminate.
Defined.


Lemma import_data_preserves_invariants_witness :
  NoDup (employee_keys
           (session (fst (import_data store_insert init empty_store
                                      [employee_arjun; employee_arjun] [pay_arjun])))).
Proof.
  apply (import_data_preserves_invariants store_insert
           (fun t => store_consistent t) init empty_store
           [employee_arjun; employee_arjun] [pay_arjun]).
  - intros d table params d' H. exact (store_insert_consistent d d' table params H).
  - repeat split; try apply NoDup_nil_2. intros p id Hp. inversion Hp.
Defined.

(** ** Further properties of the connection manager *)

Lemma total_sleep_app (a b : list event) :
  total_sleep (a ++ b) = (total_sleep a + total_sleep b)%nat.
Proof. apply sum_list_with_app. Qed.

Lemma connections_app (a b : list event) :
  connections (a ++ b) = (connections a + connections b)%nat.
Proof. unfold connections. rewrite filter_app, length_app. reflexivity. Qed.

Lemma backoff_sleep (self : DatabaseManager) (k a : nat) :
  (2 * total_sleep (backoff self a k) = retry_delay self * (k * (2 * a + k + 1)))%nat.
Proof.
  revert a. induction k as [|k IH]; intros a; [simpl; lia|].
  change (total_sleep (backoff self a (S k)))
    with (0 + (retry_delay self * (a + 1) + total_sleep (backoff self (S a) k)))%nat.
  specialize (IH (S a)). nia.
Qed.

Lemma backoff_connections (self : DatabaseManager) (k a : nat) :
  connections (backoff self a k) = k.
Proof.
  revert a. induction k as [|k IH]; intros a; [reflexivity|].
  change (connections (backoff self a (S k))) with (S (connections (backoff self (S a) k))).
  rewrite IH. reflexivity.
Qed.

Lemma verify_database_exists_trace (self : DatabaseManager) (srv : server) :
  connections (fst (verify_database_exists self srv)) = 1%nat
  /\ total_sleep (fst (verify_database_exists self srv)) = 0%nat.
Proof.
  unfold verify_database_exists. destruct (admin_session_opens srv); split; reflexivity.
Qed.

(** The trace and the result of [connect_to_psu_db], for any ceiling and delay. *)
Lemma connect_to_psu_db_trace (self : DatabaseManager) (srv : server) :
  let '(events, result) := connect_to_psu_db self srv in
  (connections events <= S (max_retries self))%nat
  /\ (2 * total_sleep events <= retry_delay self * (max_retries self * (max_retries self - 1)))%nat
  /\ (forall k, result = Connected k ->
        (k < max_retries self)%nat /\ attempt_succeeds srv k = true
        /\ forall i, (i < k)%nat -> attempt_succeeds srv i = false)
  /\ (result = NotConnected <->
      max_retries self = 0%nat /\ snd (verify_database_exists self srv) = true).
Proof.
  unfold connect_to_psu_db.
  pose proof (verify_database_exists_trace self srv) as [Hc Hs].
  destruct (verify_database_exists self srv) as [checked exists_]. cbn [fst snd] in *.
  destruct exists_; cbn [negb].
  2: { rewrite Hc, Hs. split; [lia|]. split; [lia|]. split; [discriminate|].
       split; [discriminate | intros [_ H]; discriminate H]. }
  destruct (max_retries self) as [|n] eqn:En.
  { simpl. rewrite app_nil_r, Hc, Hs. split; [lia|]. split; [lia|].
    split; [discriminate|]. split; [intros _; split; reflexivity | reflexivity]. }
  destruct (connect_attempts_spec self srv (S n) 0) as [k [Hk [Hfail [Hev Hres]]]];
    [lia | lia |].
  destruct (connect_attempts self srv (seq 0 (S n))) as [events result].
  cbn [fst snd] in Hev, Hres. rewrite Nat.add_0_l in Hres. subst events.
  rewrite !connections_app, !total_sleep_app, Hc, Hs, backoff_connections.
  pose proof (backoff_sleep self k 0) as Hb.
  change (connections [Connect (db_name self)]) with 1%nat.
  change (total_sleep [Connect (db_name self)]) with 0%nat.
  split; [lia|]. split.
  { assert (Hq : (k * (2 * 0 + k + 1) <= S n * (S n - 1))%nat) by nia.
    apply (Nat.mul_le_mono_l _ _ (retry_delay self)) in Hq. lia. }
  split.
  - intros j Hj. destruct Hres as [[H1 H2]|[H1 [H2 H3]]]; rewrite Hj in *; [|discriminate H3].
    injection H2 as <-. split; [lia|]. split; [exact H1|].
    intros i Hi. apply Hfail. lia.
  - split.
    + intros H. destruct Hres as [[_ H2]|[_ [_ H3]]]; rewrite H in *; discriminate.
    + intros [H _]. discriminate H.
Qed.

(** For a manager with any retry ceiling and delay: besides the session of
    the existence check, at most [max_retries] connections are opened; the
    waits add up to at most [retry_delay * max_retries * (max_retries - 1) / 2]
    seconds; a reported connection is the first attempt that succeeded; and
    the call ends without a connection and without raising exactly when the
    ceiling is 0 and the database exists. *)
Theorem connect_to_psu_db_bounds (self : DatabaseManager) (srv : server) :
  let '(events, result) := connect_to_psu_db self srv in
  (connections events <= S (max_retries self))%nat
  /\ (2 * total_sleep events <= retry_delay self * (max_retries self * (max_retries self - 1)))%nat
  /\ (forall k, result = Connected k ->
        (k < max_retries self)%nat /\ attempt_succeeds srv k = true
        /\ forall i, (i < k)%nat -> attempt_succeeds srv i = false)
  /\ (result = NotConnected <->
      max_retries self = 0%nat /\ snd (verify_database_exists self srv) = true).
Proof. exact (connect_to_psu_db_trace self srv). Qed.

(** With the values that [__init__] sets, one call sleeps at most 30 seconds
    and opens at most six connections. *)
Theorem connect_to_psu_db_sleeps_at_most_30 (srv : server) :
  (total_sleep (fst (connect_to_psu_db init srv)) <= 30)%nat
  /\ (connections (fst (connect_to_psu_db init srv)) <= 6)%nat.
Proof.
  pose proof (connect_to_psu_db_trace init srv) as H.
  destruct (connect_to_psu_db init srv) as [events result].
  destruct H as [H1 [H2 _]]. cbn [fst max_retries retry_delay init] in *. lia.
Qed.

(** ** The patterns of the validators *)

Lemma match_items_cons (at_end : list ascii -> bool) (it : re_item) (rest : list re_item)
      (s : list ascii) :
  match_items at_end (it :: rest) s = repetitions_from at_end it rest 0 s.
Proof.
  cbn [match_items]. generalize 0%nat. induction s as [|c s IH]; intros n.
  - reflexivity.
  - cbn [repetitions_from]. rewrite <- IH. reflexivity.
Qed.

Lemma pg_match_unfold (pattern : list re_item) (s : string) :
  pg_match pattern s = match_items at_very_end pattern (list_ascii_of_string s).
Proof. reflexivity. Qed.

(** What matches to the very end also matches under Python's [$], with or
    without a newline after it. *)
Lemma match_items_newline (items : list re_item) (s : list ascii) :
  match_items at_very_end items s = true ->
  match_items at_dollar items s = true /\ match_items at_dollar items (s ++ [newline]) = true.
Proof.
  revert s. induction items as [|it rest IH]; intros s.
  - destruct s; [split; reflexivity | discriminate].
  - rewrite !match_items_cons. generalize 0%nat. induction s as [|c s IHs]; intros n.
    + cbn [repetitions_from app].
      destruct (Nat.leb (rmin it) n); [|discriminate].
      destruct (match_items at_very_end rest []) eqn:E; [|discriminate].
      intros _. destruct (IH [] E) as [H1 H2]. cbn [app] in H2. rewrite H1, H2.
      split; reflexivity.
    + cbn [repetitions_from app].
      destruct (Nat.leb (rmin it) n).
      * destruct (match_items at_very_end rest (c :: s)) eqn:E.
        { intros _. destruct (IH _ E) as [H1 H2]. cbn [app] in H2. rewrite H1, H2.
          split; reflexivity. }
        destruct (rclass it c); [|discriminate].
        destruct (below n (rmax it)); [|discriminate].
        intros H. destruct (IHs _ H) as [H1 H2]. rewrite H1, H2.
        split; destruct (match_items at_dollar rest _); reflexivity.
      * destruct (rclass it c); [|discriminate].
        destruct (below n (rmax it)); [|discriminate].
        intros H. destruct (IHs _ H) as [H1 H2]. rewrite H1, H2. split; reflexivity.
Qed.

Lemma list_ascii_of_string_app (a b : string) :
  list_ascii_of_string (a +:+ b) = list_ascii_of_string a ++ list_ascii_of_string b.
Proof. induction a as [|c a IH]; simpl; [reflexivity|]. rewrite IH. reflexivity. Qed.

Lemma re_match_newline (pattern : list re_item) (s : string) :
  pg_match pattern s = true ->
  re_match pattern s = true /\ re_match pattern (s +:+ String newline "") = true.
Proof.
  intros H. unfold re_match. rewrite list_ascii_of_string_app.
  apply match_items_newline. exact H.
Qed.

Lemma employee_rules_insert_text (r : row) (k : string) (c : cell) :
  employee_rules_hold r ->
  k ∈ ["first_name"; "last_name"] ->
  re_match re_name (py_str c) = true ->
  employee_rules_hold (<[k := c]> r).
Proof.
  intros (H0 & H1 & H2 & H3 & H4 & H5 & H6 & H7 & H8) Hk Hc.
  unfold employee_rules_hold, text_passes in *.
  apply list_elem_of_In in Hk. simpl in Hk.
  destruct Hk as [<-|[<-|[]]]; rewrite ?lookup_insert_eq, !lookup_insert_ne by done;
    repeat split; try assumption; exists c; split; try reflexivity; try assumption.
Qed.

(** The validator accepts a name followed by a newline: Python's [$] matches
    before a final newline, where the [~] of the CHECK constraint does not.
    The [INSERT] of such a row is left to fail in the database. *)
Theorem validate_employee_data_accepts_trailing_newline (r : row) (k name : string) :
  validate_employee_data r = (true, None) ->
  k ∈ ["first_name"; "last_name"] ->
  pg_match re_name name = true ->
  validate_employee_data (<[k := CStr (name +:+ String newline "")]> r) = (true, None)
  /\ pg_match re_name (name +:+ String newline "") = false.
Proof.
  intros Hv Hk Hn. split.
  - apply (proj1 (validate_employee_data_rules _)).
    apply employee_rules_insert_text; [|exact Hk|].
    + apply (proj1 (validate_employee_data_rules _)), Hv.
    + apply (re_match_newline _ _ Hn).
  - unfold pg_match, re_name. rewrite list_ascii_of_string_app.
    rewrite match_items_cons. generalize 0%nat.
    induction (list_ascii_of_string name) as [|c s IH]; intros n.
    + destruct n; vm_compute; reflexivity.
    + cbn [app repetitions_from]. cbn [match_items at_very_end].
      rewrite IH. destruct (Nat.leb (rmin (plus is_alpha)) n), (rclass (plus is_alpha) c),
        (below n (rmax (plus is_alpha))); reflexivity.
Qed.

Lemma validate_employee_data_accepts_trailing_newline_witness :
  validate_employee_data
    (<["first_name" := CStr ("Arjun" +:+ String newline "")]> (fillna_NA employee_arjun))
  = (true, None)
  /\ pg_match re_name ("Arjun" +:+ String newline "") = false.
Proof.
  apply (validate_employee_data_accepts_trailing_newline (fillna_NA employee_arjun)
           "first_name" "Arjun").
  - vm_compute. reflexivity.
  - left.
  - vm_compute. reflexivity.
Defined.

(** ** [strip] and the IFSC code *)

Lemma drop_while_spaces_app (l u : list ascii) :
  forallb is_space l = true -> drop_while is_space (l ++ u) = drop_while is_space u.
Proof.
  induction l as [|c l IH]; simpl; [reflexivity|].
  intros H. apply andb_true_iff in H as [Hc Hl]. rewrite Hc. apply IH, Hl.
Qed.

Lemma drop_while_spaces (l : list ascii) :
  forallb is_space l = true <-> drop_while is_space l = [].
Proof.
  induction l as [|c l IH]; simpl; [split; reflexivity|].
  destruct (is_space c); simpl; [exact IH|]. split; discriminate.
Qed.

Lemma drop_while_app_kept (u t : list ascii) :
  drop_while is_space u <> [] ->
  drop_while is_space (u ++ t) = drop_while is_space u ++ t.
Proof.
  induction u as [|c u IH]; simpl; [intros H; contradiction H; reflexivity|].
  destruct (is_space c); [exact IH | reflexivity].
Qed.

Lemma forallb_rev (p : ascii -> bool) (l : list ascii) :
  forallb p l = true -> forallb p (rev l) = true.
Proof.
  rewrite !forallb_forall. intros H x Hx. apply H. apply in_rev. exact Hx.
Qed.

Lemma strip_chars_padding (l u t : list ascii) :
  forallb is_space l = true -> forallb is_space t = true ->
  strip_chars (l ++ u ++ t) = strip_chars u.
Proof.
  intros Hl Ht. unfold strip_chars. rewrite (drop_while_spaces_app l _ Hl).
  destruct (drop_while is_space u) as [|c u'] eqn:E.
  - apply drop_while_spaces in E.
    assert (H : forallb is_space (u ++ t) = true) by (rewrite forallb_app, E, Ht; reflexivity).
    apply drop_while_spaces in H. rewrite H. reflexivity.
  - rewrite drop_while_app_kept by (rewrite E; discriminate). rewrite E.
    rewrite rev_app_distr. rewrite drop_while_spaces_app by (apply forallb_rev, Ht).
    reflexivity.
Qed.

(** [validate_ifsc_code] ignores whitespace before and after the code, and
    the import loop stores the code without it. *)
Theorem validate_ifsc_code_ignores_padding (before code after : string) :
  all_space before = true -> all_space after = true ->
  validate_ifsc_code (CStr (before +:+ code +:+ after)) = validate_ifsc_code (CStr code)
  /\ forall r : row,
       strip_ifsc_code (<["ifsc_code" := CStr (before +:+ code +:+ after)]> r)
       = strip_ifsc_code (<["ifsc_code" := CStr code]> r).
Proof.
  intros Hb Ha.
  assert (E : py_strip (before +:+ code +:+ after) = py_strip code).
  { unfold py_strip. rewrite !list_ascii_of_string_app.
    rewrite (strip_chars_padding _ _ _ Hb Ha). reflexivity. }
  split.
  - unfold validate_ifsc_code. cbn [pd_isna py_str]. rewrite E. reflexivity.
  - intros r. unfold strip_ifsc_code. rewrite !lookup_insert_eq. cbn [py_str].
    rewrite E, !insert_insert_eq. reflexivity.
Qed.

Lemma validate_ifsc_code_ignores_padding_witness :
  validate_ifsc_code (CStr ("  " +:+ "SBIN00001" +:+ String newline ""))
  = validate_ifsc_code (CStr "SBIN00001").
Proof.
  apply (proj1 (validate_ifsc_code_ignores_padding "  " "SBIN00001" (String newline "")
                  eq_refl eq_refl)).
Defined.

(** ** Total compensation after an import *)

Lemma for_rows_state_invariant {DB : Type} (J : @state DB -> Prop)
      (body : @state DB -> counts -> row -> @state DB * option counts) :
  (forall st c r, J st -> J (fst (body st c r))) ->
  forall rows st c, J st -> J (fst (for_rows body rows st c)).
Proof.
  intros Hbody. induction rows as [|r rows IH]; intros st c H; [exact H|].
  simpl. specialize (Hbody st c r H).
  destruct (body st c r) as [st1 [c1|]]; [apply IH|]; exact Hbody.
Qed.

Lemma store_insert_employees_pay (t t' : table_store) (r : insert_row) :
  store_insert t "employees" r = Some t' -> pay_structure t' = pay_structure t.
Proof.
  unfold store_insert. change (String.eqb "employees" "employees") with true. cbv iota.
  destruct (employees_accepts t r); [|discriminate]. intros [= <-]. reflexivity.
Qed.

Lemma store_insert_pay_row (t t' : table_store) (r : insert_row) :
  store_insert t "pay_structure" r = Some t' ->
  exists stored, pay_structure t' = pay_structure t ++ [stored]
                 /\ int_column "employee_id" stored = int_column "employee_id" r.
Proof.
  unfold store_insert. change (String.eqb "pay_structure" "employees") with false.
  change (String.eqb "pay_structure" "pay_structure") with true. cbv iota.
  destruct (pay_structure_row r) as [stored|] eqn:Es; [|discriminate].
  destruct (pay_structure_row_keys _ _ Es) as (Kp & Ke & [pid Epid] & [eid Eeid]).
  cbn [mbind option_bind]. rewrite Kp, Ke, Epid, Eeid. cbn [mbind option_bind].
  match goal with |- (if ?b then _ else _) = _ -> _ => destruct b; [|discriminate] end.
  intros [= <-]. exists stored. split; [reflexivity|]. rewrite Ke, Eeid. reflexivity.
Qed.

Lemma pay_values_employee_id (r : row) (tax : pyfloat) (values : list sql_value) :
  pay_values r tax = Some values ->
  int_column "employee_id" (combine pay_insert_columns values) = r !! "employee_id" ≫= py_int.
Proof.
  unfold pay_values.
  destruct (r !! "pay_id" ≫= py_int) as [pay_id|]; [|discriminate].
  destruct (r !! "employee_id" ≫= py_int) as [employee_id|]; [|discriminate].
  cbn [mbind option_bind]. destruct (mapM _ _); [|discriminate].
  intros [= <-]. reflexivity.
Qed.

Lemma import_employee_row_pay_rows (st : @state table_store) (c : counts) (r : row) :
  pay_rows_accepted st -> pay_rows_accepted (fst (import_employee_row store_insert st c r)).
Proof.
  intros J. unfold import_employee_row.
  destruct (validate_employee_data (strip_ifsc_code r)) as [[|] msg]; [|exact J].
  destruct (employee_values (strip_ifsc_code r)) as [[id values]|]; [|exact J].
  destruct (store_insert _ _ _) as [t'|] eqn:E; [|exact J].
  apply store_insert_employees_pay in E. intros p i Hp Hi. cbn in *.
  rewrite E in Hp. apply elem_of_union. right. exact (J p i Hp Hi).
Qed.

Lemma import_pay_row_pay_rows (st : @state table_store) (c : counts) (r : row) :
  pay_rows_accepted st -> pay_rows_accepted (fst (import_pay_row store_insert st c r)).
Proof.
  intros J. unfold import_pay_row.
  destruct (r !! "employee_id") as [cid|] eqn:Ec; [|exact J].
  destruct (py_int cid) as [id|] eqn:Ei; [|exact J].
  destruct (decide _) as [Hin|]; [|exact J].
  destruct (validate_pay_data r) as [[|] msg]; [|exact J].
  destruct (r !! "annual_income" ≫= py_float) as [a|]; [|exact J].
  destruct (select_calculate_income_tax a); [|exact J].
  destruct (pay_values r p) as [values|] eqn:Ev; [|exact J].
  destruct (store_insert _ _ _) as [t'|] eqn:E; [|exact J].
  apply store_insert_pay_row in E as [stored [Ep Ek]].
  apply pay_values_employee_id in Ev. rewrite Ec in Ev. cbn [mbind option_bind] in Ev.
  rewrite Ei in Ev. intros q i Hq Hi. cbn in *. rewrite Ep in Hq.
  apply elem_of_app in Hq as [Hq|Hq]; [exact (J q i Hq Hi)|].
  apply list_elem_of_singleton in Hq as ->. rewrite Ek, Ev in Hi. injection Hi as <-. exact Hin.
Qed.

Lemma find_none_compensation (t : table_store) (id : Z) :
  (forall p, p ∈ pay_structure t -> int_column "employee_id" p <> Some id) ->
  calculate_total_compensation t id = (Fin 0, Fin 0, Fin 0).
Proof.
  intros H. unfold calculate_total_compensation.
  destruct (find _ (pay_structure t)) as [p|] eqn:E; [|reflexivity].
  apply find_some in E as [Hin Hb]. apply bool_decide_eq_true_1 in Hb.
  contradiction (H p (proj2 (list_elem_of_In _ _) Hin) Hb).
Qed.

(** When every pay row of the store belongs to an accepted identifier before
    a run (as in an empty store), the same holds after it, completed or
    aborted; so [calculate_total_compensation] reports zero monthly
    compensation, zero annual compensation and zero benefits for every
    identifier that is not in the set. *)
Theorem unaccepted_employees_have_no_compensation (self : DatabaseManager) (t : table_store)
        (employees_df pay_df : list row) (id : Z) :
  pay_rows_accepted (State self t []) ->
  let st := fst (import_data store_insert self t employees_df pay_df) in
  pay_rows_accepted st
  /\ (id ∉ successful_employee_ids (manager st) ->
      calculate_total_compensation (session st) id = (Fin 0, Fin 0, Fin 0)).
Proof.
  intros J0. cbv zeta.
  assert (J : pay_rows_accepted (fst (import_data store_insert self t employees_df pay_df))).
  { unfold import_data.
    pose proof (for_rows_state_invariant pay_rows_accepted _ import_employee_row_pay_rows
                  (map fillna_NA employees_df) (State self t []) (Counts 0 0) J0) as J1.
    destruct (for_rows (import_employee_row store_insert) _ _ _) as [st1 [ec|]];
      cbn [fst] in *; [|exact J1].
    destruct (mapM prepare_pay_row pay_df) as [pay_rows|]; [|exact J1].
    pose proof (for_rows_state_invariant pay_rows_accepted _ import_pay_row_pay_rows pay_rows
                  (logging (EmployeesImportCompleted (successful ec) (failed ec)) st1)
                  (Counts 0 0) J1) as J2.
    destruct (for_rows (import_pay_row store_insert) _ _ _) as [st3 [pc|]];
      cbn [fst] in *; exact J2. }
  split; [exact J|]. intros Hid. apply find_none_compensation.
  intros p Hp Hk. apply Hid. exact (J p id Hp Hk).
Qed.

Lemma unaccepted_employees_have_no_compensation_witness :
  calculate_total_compensation
    (session (fst (import_data store_insert init empty_store
                               [<["phone_number" := CStr "12345"]> employee_arjun] [pay_arjun])))
    1234567
  = (Fin 0, Fin 0, Fin 0).
Proof.
  apply (unaccepted_employees_have_no_compensation init empty_store
           [<["phone_number" := CStr "12345"]> employee_arjun] [pay_arjun] 1234567).
  - intros p id Hp. inversion Hp.
  - vm_compute. intros H. discriminate H.
Defined.

(** ** Counters and stored rows *)

Lemma for_rows_counted_invariant {DB : Type} (K : @state DB -> counts -> Prop)
      (body : @state DB -> counts -> row -> @state DB * option counts) :
  (forall st c r st' c', body st c r = (st', Some c') -> K st c -> K st' c') ->
  forall rows st c st' c',
    for_rows body rows st c = (st', Some c') -> K st c -> K st' c'.
Proof.
  intros Hbody. induction rows as [|r rows IH]; intros st c st' c'; simpl.
  - intros [= <- <-] H. exact H.
  - destruct (body st c r) as [st1 [c1|]] eqn:E; [|discriminate].
    intros H K0. exact (IH _ _ _ _ H (Hbody _ _ _ _ _ E K0)).
Qed.

Lemma store_insert_employees_row (t t' : table_store) (r : insert_row) :
  store_insert t "employees" r = Some t' ->
  employees t' = employees t ++ [r] /\ pay_structure t' = pay_structure t.
Proof.
  unfold store_insert. change (String.eqb "employees" "employees") with true. cbv iota.
  destruct (employees_accepts t r); [|discriminate]. intros [= <-]. split; reflexivity.
Qed.

Lemma store_insert_pay_employees (t t' : table_store) (r : insert_row) :
  store_insert t "pay_structure" r = Some t' ->
  employees t' = employees t /\ length (pay_structure t') = S (length (pay_structure t)).
Proof.
  intros H. destruct (store_insert_pay_row _ _ _ H) as [stored [Ep _]].
  split; [|rewrite Ep, length_app; simpl; lia].
  revert H. unfold store_insert. change (String.eqb "pay_structure" "employees") with false.
  change (String.eqb "pay_structure" "pay_structure") with true. cbv iota.
  destruct (pay_structure_row r) as [s|]; [|discriminate]. cbn [mbind option_bind].
  destruct (int_column "pay_id" s); [|discriminate]. cbn [mbind option_bind].
  destruct (int_column "employee_id" s); [|discriminate]. cbn [mbind option_bind].
  match goal with |- (if ?b then _ else _) = _ -> _ => destruct b; [|discriminate] end.
  intros [= <-]. reflexivity.
Qed.

(** After a completed run on the store, each table has grown by exactly the
    number of rows counted as successful for its kind: what is counted as
    failed is not stored, and what is counted as successful is. *)
Theorem completed_run_stores_what_it_counts (self : DatabaseManager) (t : table_store)
        (employees_df pay_df : list row) (st : @state table_store) (ec pc : counts) :
  import_data store_insert self t employees_df pay_df = (st, Completed ec pc) ->
  length (employees (session st)) = (length (employees t) + successful ec)%nat
  /\ length (pay_structure (session st)) = (length (pay_structure t) + successful pc)%nat.
Proof.
  unfold import_data.
  destruct (for_rows (import_employee_row store_insert) _ _ _) as [st1 [ec1|]] eqn:E1;
    [|discriminate].
  destruct (mapM prepare_pay_row pay_df) as [pay_rows|]; [|discriminate].
  destruct (for_rows (import_pay_row store_insert) _ _ _) as [st3 [pc3|]] eqn:E3;
    [|discriminate].
  intros [= <- <- <-]. cbn [session logging].
  pose proof (for_rows_counted_invariant
                (fun s c => length (employees (session s))
                            = (length (employees t) + successful c)%nat
                            /\ pay_structure (session s) = pay_structure t)
                (import_employee_row store_insert)) as He.
  specialize (He ltac:(
    intros s c r s' c'; unfold import_employee_row;
    destruct (validate_employee_data (strip_ifsc_code r)) as [[|] msg];
      [|intros [= <- <-] K; exact K];
    destruct (employee_values (strip_ifsc_code r)) as [[id values]|]; [|discriminate];
    destruct (store_insert _ _ _) as [t'|] eqn:E; [|intros [= <- <-] K; exact K];
    intros [= <- <-] [K1 K2]; apply store_insert_employees_row in E as [Ee Ep];
    cbn [session successful succeed]; rewrite Ee, Ep, length_app, K1; split;
      [simpl; lia | exact K2]) _ _ _ _ _ E1 ltac:(split; [simpl; lia | reflexivity])).
  destruct He as [He1 He2].
  pose proof (for_rows_counted_invariant
                (fun s c => employees (session s) = employees (session st1)
                            /\ length (pay_structure (session s))
                               = (length (pay_structure t) + successful c)%nat)
                (import_pay_row store_insert)) as Hp.
  specialize (Hp ltac:(
    intros s c r s' c'; unfold import_pay_row;
    destruct (r !! "employee_id") as [cid|]; [|discriminate];
    destruct (py_int cid) as [id|]; [|discriminate];
    destruct (decide _); [|intros [= <- <-] K; exact K];
    destruct (validate_pay_data r) as [[|] msg]; [|intros [= <- <-] K; exact K];
    destruct (r !! "annual_income" ≫= py_float) as [a|]; [|discriminate];
    destruct (select_calculate_income_tax a); [|intros [= <- <-] K; exact K];
    destruct (pay_values r p); [|discriminate];
    destruct (store_insert _ _ _) as [t'|] eqn:E; [|intros [= <- <-] K; exact K];
    intros [= <- <-] [K1 K2]; apply store_insert_pay_employees in E as [Ee Ep];
    cbn [session successful succeed]; rewrite Ee, Ep, K1, K2; split;
      [reflexivity | lia]) _ _ _ _ _ E3
    ltac:(cbn [session logging]; split; [reflexivity | rewrite He2; simpl; lia])).
  destruct Hp as [Hp1 Hp2]. rewrite Hp1, He1. split; [reflexivity | exact Hp2].
Qed.

Lemma completed_run_stores_what_it_counts_witness :
  length (employees (session (fst (import_data store_insert init empty_store
                                     [employee_arjun; employee_arjun] [pay_arjun]))))
  = (0 + 1)%nat
  /\ length (pay_structure (session (fst (import_data store_insert init empty_store
                                            [employee_arjun; employee_arjun] [pay_arjun]))))
     = (0 + 1)%nat.
Proof.
  apply (completed_run_stores_what_it_counts init empty_store
           [employee_arjun; employee_arjun] [pay_arjun] _ (Counts 1 1) (Counts 1 0)).
  vm_compute. reflexivity.
Defined.

(** ** NUMERIC(10,2) columns, the CHECK on [base_salary] and the PF columns *)

Lemma round2_hundredths (q : Q) (z : Z) :
  q < inject_Z z / 100 + (1 # 200) -> round2 q <= inject_Z z / 100.
Proof.
  intros H. pose proof (round2_near q) as [_ Hup].
  assert (L : round2 q < inject_Z (z + 1) / 100).
  { rewrite inject_Z_plus. change (inject_Z 1) with 1.
    apply Qle_lt_trans with (q + (1 # 200)); [exact Hup|].
    assert (E : (inject_Z z + 1) / 100 == inject_Z z / 100 + (1 # 100)) by field.
    rewrite E. lra. }
  unfold round2 in *. rewrite Qmake_Qdiv in *.
  apply Qmult_lt_r in L; [|reflexivity].
  apply Qmult_le_r; [reflexivity|].
  rewrite <- Zlt_Qlt in L. rewrite <- Zle_Qle. lia.
Qed.

Lemma pay_structure_row_inversion (r stored : insert_row) :
  pay_structure_row r = Some stored ->
  exists base_in base employee_pf employer_pf total_pf,
    amount_column "base_salary" r = Some base_in
    /\ numeric_10_2 base_in = Some base
    /\ numeric_ltb (Fin 20000) base = true
    /\ numeric_10_2 (numeric_scale (125 # 1000) base) = Some employee_pf
    /\ numeric_10_2 (numeric_scale (125 # 1000) base) = Some employer_pf
    /\ numeric_10_2 (numeric_scale (25 # 100) base) = Some total_pf
    /\ column "base_salary" stored = Some (SqlFloat base)
    /\ column "employee_pf" stored = Some (SqlFloat employee_pf)
    /\ column "employer_pf" stored = Some (SqlFloat employer_pf)
    /\ column "total_pf" stored = Some (SqlFloat total_pf).
Proof.
  unfold pay_structure_row.
  destruct (int_column "pay_id" r) as [pay_id|]; [|discriminate].
  destruct (int_column "employee_id" r) as [employee_id|]; [|discriminate].
  cbn [mbind option_bind app mapM pay_float_columns].
  destruct (amount_column "base_salary" r) as [base_in|]; [|discriminate].
  cbn [mbind option_bind].
  destruct (numeric_10_2 base_in) as [base|] eqn:Eb; [|discriminate].
  cbn [mbind option_bind].
  repeat match goal with
         | |- context [amount_column ?k r ≫= numeric_10_2] =>
             destruct (amount_column k r ≫= numeric_10_2);
             cbn [mbind option_bind mret option_ret]; [|discriminate]
         end.
  destruct (numeric_10_2 (numeric_scale (125 # 1000) base)) as [pf|] eqn:Ep; [|discriminate].
  cbn [mbind option_bind].
  destruct (numeric_10_2 (numeric_scale (25 # 100) base)) as [tpf|] eqn:Et; [|discriminate].
  cbn [mbind option_bind].
  match goal with
  | |- context [numeric_10_2 ?x ≫= _] =>
      destruct (numeric_10_2 x); cbn [mbind option_bind]; [|discriminate]
  end.
  destruct (numeric_ltb (Fin 20000) base) eqn:Ec; [|discriminate].
  match goal with |- (if ?b then _ else _) = _ -> _ => destruct b; [|discriminate] end.
  intros [= <-]. exists base_in, base, pf, pf, tpf. repeat split; assumption.
Qed.

(** The CHECK on [base_salary] is evaluated on the stored NUMERIC(10,2)
    value: a row whose [base_salary] is below 20000.005 is never stored, also
    when it is above 20000 and has passed [validate_pay_data]. *)
Theorem base_salary_check_after_rounding (r : insert_row) (q : Q) :
  amount_column "base_salary" r = Some (Fin q) ->
  q < 20000005 # 1000 ->
  pay_structure_row r = None.
Proof.
  intros Hb Hq. destruct (pay_structure_row r) as [stored|] eqn:E; [|reflexivity].
  exfalso. apply pay_structure_row_inversion in E
    as (base_in & base & _ & _ & _ & Ein & Eb & Ec & _).
  rewrite Hb in Ein. injection Ein as <-. unfold numeric_10_2 in Eb.
  destruct (Qle_bool 100000000 (Qabs (round2 q))); [discriminate|]. injection Eb as <-.
  pose proof (round2_hundredths q 2000000) as H.
  assert (Hr : round2 q <= 20000).
  { apply Qle_trans with (inject_Z 2000000 / 100); [apply H | discriminate].
    apply Qlt_le_trans with (20000005 # 1000); [exact Hq | discriminate]. }
  apply Qle_bool_iff in Hr. unfold numeric_ltb, numeric_leb, float_leb in Ec.
  rewrite Hr in Ec. discriminate Ec.
Qed.

Lemma base_salary_check_after_rounding_witness :
  validate_pay_data (<["base_salary" := CFloat (Fin (20000004 # 1000))]> pay_negative_ta)
  = (true, None)
  /\ pay_structure_row
       (combine pay_insert_columns
          (default [] (pay_values (<["base_salary" := CFloat (Fin (20000004 # 1000))]>
                                     pay_negative_ta) (Fin 0))))
     = None.
Proof.
  split; [vm_compute; reflexivity|].
  apply (base_salary_check_after_rounding _ (20000004 # 1000)); reflexivity.
Defined.

(** The three PF columns of a stored row with a finite [base_salary]: the two
    shares are equal, each within half a hundredth of an eighth of the salary,
    and [total_pf] differs from their sum by at most one hundredth. *)
Theorem pf_columns (r stored : insert_row) (b : Q) :
  pay_structure_row r = Some stored ->
  column "base_salary" stored = Some (SqlFloat (Fin b)) ->
  exists e t : Q,
    column "employee_pf" stored = Some (SqlFloat (Fin e))
    /\ column "employer_pf" stored = Some (SqlFloat (Fin e))
    /\ column "total_pf" stored = Some (SqlFloat (Fin t))
    /\ b / 8 - (1 # 200) <= e <= b / 8 + (1 # 200)
    /\ Qabs (t - (e + e)) <= 1 # 100.
Proof.
  intros E Hb. apply pay_structure_row_inversion in E
    as (base_in & base & epf & rpf & tpf & _ & _ & _ & Ee & Er & Et & Cb & Ce & Cr & Ct).
  rewrite Hb in Cb. injection Cb as <-. cbn [numeric_scale numeric_10_2] in Ee, Er, Et.
  destruct (Qle_bool _ (Qabs (round2 (b * (125 # 1000))))); [discriminate|].
  destruct (Qle_bool _ (Qabs (round2 (b * (25 # 100))))); [discriminate|].
  injection Ee as <-. injection Er as <-. injection Et as <-.
  exists (round2 (b * (125 # 1000))), (round2 (b * (25 # 100))).
  split; [exact Ce|]. split; [exact Cr|]. split; [exact Ct|].
  pose proof (round2_near (b * (125 # 1000))) as [E1 E2].
  pose proof (round2_near (b * (25 # 100))) as [T1 T2].
  assert (E8 : b / 8 == b * (125 # 1000)) by field.
  split; [rewrite E8; split; assumption|].
  (* both are hundredths, and they are within 15 thousandths of each other *)
  set (ze := round_half_away (b * (125 # 1000) * 100)) in *.
  set (zt := round_half_away (b * (25 # 100) * 100)) in *.
  assert (Ee : round2 (b * (125 # 1000)) == inject_Z ze / 100)
    by (unfold round2; rewrite Qmake_Qdiv; reflexivity).
  assert (Et : round2 (b * (25 # 100)) == inject_Z zt / 100)
    by (unfold round2; rewrite Qmake_Qdiv; reflexivity).
  rewrite Ee in E1, E2. rewrite Et in T1, T2. rewrite Ee, Et.
  set (qe := inject_Z ze / 100) in *. set (qt := inject_Z zt / 100) in *.
  assert (D : - (15 # 1000) <= qt - (qe + qe) <= 15 # 1000) by lra.
  assert (Dz : (-1 <= zt - (ze + ze) <= 1)%Z).
  { assert (D' : - (3 # 2) <= inject_Z (zt - (ze + ze)) <= 3 # 2).
    { assert (Q0 : inject_Z (zt - (ze + ze)) == (qt - (qe + qe)) * 100).
      { unfold Z.sub. rewrite inject_Z_plus, inject_Z_opp, inject_Z_plus. unfold qt, qe. field. }
      rewrite Q0. lra. }
    destruct D' as [D1 D2]. split.
    - assert (inject_Z (-2) < inject_Z (zt - (ze + ze))) as L
          by (apply Qlt_le_trans with (- (3 # 2)); [reflexivity | exact D1]).
      rewrite <- Zlt_Qlt in L. lia.
    - assert (inject_Z (zt - (ze + ze)) < inject_Z 2) as L
          by (apply Qle_lt_trans with (3 # 2); [exact D2 | reflexivity]).
      rewrite <- Zlt_Qlt in L. lia. }
  apply Qabs_Qle_condition.
  assert (Q1 : qt - (qe + qe) == inject_Z (zt - (ze + ze)) * (1 # 100)).
  { unfold Z.sub. rewrite inject_Z_plus, inject_Z_opp, inject_Z_plus. unfold qt, qe. field. }
  rewrite Q1. destruct Dz as [Dz1 Dz2].
  rewrite Zle_Qle in Dz1, Dz2. change (inject_Z (-1)) with (-(1)) in Dz1.
  change (inject_Z 1) with 1 in Dz2. split; lra.
Qed.

Lemma pf_columns_witness :
  exists e t : Q,
    column "employee_pf" (default [] (head (pay_structure (session
        (fst (import_data store_insert init empty_store [employee_arjun] [pay_arjun]))))))
    = Some (SqlFloat (Fin e))
    /\ column "employer_pf" (default [] (head (pay_structure (session
        (fst (import_data store_insert init empty_store [employee_arjun] [pay_arjun]))))))
       = Some (SqlFloat (Fin e))
    /\ column "total_pf" (default [] (head (pay_structure (session
        (fst (import_data store_insert init empty_store [employee_arjun] [pay_arjun]))))))
       = Some (SqlFloat (Fin t))
    /\ round2 50000 / 8 - (1 # 200) <= e <= round2 50000 / 8 + (1 # 200)
    /\ Qabs (t - (e + e)) <= 1 # 100.
Proof.
  apply (pf_columns
           (combine pay_insert_columns
              (default [] (pay_values (default ∅ (prepare_pay_row pay_arjun))
                                      (Fin (calculate_income_tax 913000)))))).
  - vm_compute. reflexivity.
  - vm_compute. reflexivity.
Defined.

(** ** Decimal texts of integers *)

Lemma of_lu_bound (d : uint) : (Unsigned.of_lu d < 10 ^ Unsigned.usize d)%N.
Proof.
  induction d; simpl Unsigned.of_lu; simpl Unsigned.usize;
    rewrite ?N.pow_succ_r'; [simpl; lia | lia ..].
Qed.

Lemma usize_revapp (d d' : uint) :
  Unsigned.usize (revapp d d') = (Unsigned.usize d + Unsigned.usize d')%N.
Proof.
  revert d'. induction d; intros d'; simpl revapp; simpl Unsigned.usize;
    rewrite ?IHd; simpl Unsigned.usize; lia.
Qed.

Lemma usize_nb_digits (d : uint) : Unsigned.usize d = N.of_nat (nb_digits d).
Proof. induction d; simpl Unsigned.usize; simpl nb_digits; lia. Qed.

(** A number written with a non-zero first digit and [n] more digits lies
    between [10 ^ n] and [10 ^ (n + 1)]. *)
Lemma of_uint_bounds (d : uint) :
  d <> Nil -> unorm d = d -> d <> zero ->
  (10 ^ (Unsigned.usize d - 1) <= Pos.of_uint d < 10 ^ Unsigned.usize d)%N.
Proof.
  intros Hnil Hnorm Hz. rewrite Unsigned.of_uint_alt. split.
  - destruct d as [|d|d|d|d|d|d|d|d|d|d]; [contradiction Hnil; reflexivity | | ..].
    1: { (* a leading zero contradicts the normal form *)
      exfalso. rewrite unorm_D0 in Hnorm.
      destruct d as [|d|d|d|d|d|d|d|d|d|d]; [contradiction Hz; reflexivity | ..];
        match type of Hnorm with
        | unorm ?u = _ =>
            pose proof (nb_digits_unorm u ltac:(discriminate)) as L;
            rewrite Hnorm in L; simpl in L; lia
        end. }
    all: unfold Decimal.rev; simpl revapp; rewrite Unsigned.of_lu_revapp;
      simpl Unsigned.of_lu; simpl Unsigned.usize;
      replace (N.succ (Unsigned.usize d) - 1)%N with (Unsigned.usize d) by lia;
      pose proof (N.pow_nonzero 10 (Unsigned.usize d) ltac:(lia)); nia.
  - pose proof (of_lu_bound (Decimal.rev d)) as H. unfold Decimal.rev in H at 2.
    rewrite usize_revapp in H. simpl Unsigned.usize in H. rewrite N.add_0_r in H. exact H.
Qed.

Lemma string_of_uint_digits (d : uint) :
  forallb is_digit (list_ascii_of_string (NilEmpty.string_of_uint d)) = true
  /\ length (list_ascii_of_string (NilEmpty.string_of_uint d)) = nb_digits d.
Proof.
  induction d; simpl; [split; reflexivity | ..]; destruct IHd as [H1 H2];
    rewrite H2; (split; [|reflexivity]); exact H1.
Qed.

(** The text of an integer between [10 ^ n] and [10 ^ (n + 1)]: [n + 1]
    digits. *)
Lemma string_of_Z_digits (z : Z) (n : nat) :
  (10 ^ Z.of_nat n <= z < 10 ^ Z.of_nat (S n))%Z ->
  forallb is_digit (list_ascii_of_string (string_of_Z z)) = true
  /\ length (list_ascii_of_string (string_of_Z z)) = S n.
Proof.
  intros [Lo Hi].
  assert (Hpos : (0 < z)%Z) by (pose proof (Z.pow_pos_nonneg 10 (Z.of_nat n)); lia).
  destruct z as [|p|p]; try lia.
  unfold string_of_Z. cbn [Z.to_int NilZero.string_of_int NilZero.string_of_uint].
  pose proof (Unsigned.to_uint_nonnil p) as Hnil.
  pose proof (Unsigned.to_uint_nonzero p) as Hz.
  assert (Hnorm : unorm (Pos.to_uint p) = Pos.to_uint p).
  { rewrite <- Unsigned.to_of. rewrite Unsigned.of_to. reflexivity. }
  pose proof (of_uint_bounds _ Hnil Hnorm Hz) as [B1 B2].
  rewrite Unsigned.of_to in B1, B2. rewrite usize_nb_digits in B1, B2.
  destruct (Pos.to_uint p) eqn:E; [contradiction Hnil; reflexivity | ..];
    rewrite <- E in *;
    (destruct (string_of_uint_digits (Pos.to_uint p)) as [D1 D2];
     replace (NilZero.string_of_uint (Pos.to_uint p)) with (NilEmpty.string_of_uint (Pos.to_uint p))
       by (rewrite E; reflexivity);
     split; [exact D1|]; rewrite D2;
     set (k := nb_digits (Pos.to_uint p)) in *;
     assert (Hk : k <> 0%nat) by (unfold k; rewrite E; discriminate);
     assert (B1' : (10 ^ Z.of_nat (k - 1) <= Z.pos p)%Z)
       by (replace (Z.of_nat (k - 1)) with (Z.of_N (N.of_nat k - 1)) by lia;
           rewrite <- (N2Z.inj_pow 10); change (Z.pos p) with (Z.of_N (N.pos p)); lia);
     assert (B2' : (Z.pos p < 10 ^ Z.of_nat k)%Z)
       by (replace (Z.of_nat k) with (Z.of_N (N.of_nat k)) by lia;
           rewrite <- (N2Z.inj_pow 10); change (Z.pos p) with (Z.of_N (N.pos p)); lia);
     assert (C1 : (Z.of_nat (k - 1) < Z.of_nat (S n))%Z)
       by (apply (Z.pow_lt_mono_r_iff 10); lia);
     assert (C2 : (Z.of_nat n < Z.of_nat k)%Z)
       by (apply (Z.pow_lt_mono_r_iff 10); lia);
     lia).
Qed.

(** ** What the generator writes against what the importer accepts *)

(** A run of characters of the class of an item, of an admissible length,
    followed by a match of the rest of the pattern. *)
Lemma repetitions_run (at_end : list ascii -> bool) (it : re_item) (rest : list re_item)
      (run s : list ascii) (n : nat) :
  forallb (rclass it) run = true ->
  (rmin it <= n + length run)%nat ->
  (forall m, rmax it = Some m -> (n + length run <= m)%nat) ->
  match_items at_end rest s = true ->
  repetitions_from at_end it rest n (run ++ s) = true.
Proof.
  revert n. induction run as [|c run IH]; intros n Hc Hmin Hmax Hrest.
  - cbn [app length] in *. rewrite Nat.add_0_r in Hmin.
    destruct s; cbn [repetitions_from]; apply Nat.leb_le in Hmin; rewrite Hmin, Hrest;
      reflexivity.
  - cbn [forallb] in Hc. apply andb_prop in Hc as [Hc Hrun].
    cbn [app repetitions_from]. rewrite Hc.
    destruct (if Nat.leb (rmin it) n then match_items at_end rest (c :: run ++ s) else false);
      [reflexivity|].
    assert (Hb : below n (rmax it) = true).
    { unfold below. destruct (rmax it) as [m|]; [|reflexivity].
      apply Nat.ltb_lt. specialize (Hmax m eq_refl). cbn [length] in Hmax. lia. }
    rewrite Hb. apply IH; try assumption.
    + cbn [length] in Hmin. lia.
    + intros m Hm. specialize (Hmax m Hm). cbn [length] in Hmax. lia.
Qed.

Lemma match_items_run (at_end : list ascii -> bool) (it : re_item) (rest : list re_item)
      (run s : list ascii) :
  forallb (rclass it) run = true ->
  (rmin it <= length run)%nat ->
  (forall m, rmax it = Some m -> (length run <= m)%nat) ->
  match_items at_end rest s = true ->
  match_items at_end (it :: rest) (run ++ s) = true.
Proof.
  intros. rewrite match_items_cons. apply repetitions_run; assumption.
Qed.

Lemma re_match_run (it : re_item) (s : string) :
  forallb (rclass it) (list_ascii_of_string s) = true ->
  (rmin it <= String.length s)%nat ->
  (forall m, rmax it = Some m -> (String.length s <= m)%nat) ->
  re_match [it] s = true.
Proof.
  intros Hc Hmin Hmax. unfold re_match.
  rewrite <- (app_nil_r (list_ascii_of_string s)).
  assert (L : length (list_ascii_of_string s) = String.length s).
  { clear. induction s; simpl; congruence. }
  apply match_items_run; rewrite ?L; try assumption. reflexivity.
Qed.

Lemma string_length_list (s : string) : String.length s = length (list_ascii_of_string s).
Proof. induction s; simpl; congruence. Qed.

(** *** The numbers *)

Lemma generated_phone_number_matches (draw : Z) :
  (100000000 <= draw <= 999999999)%Z ->
  re_match re_phone_number (generate_phone_number draw) = true.
Proof.
  intros H. destruct (string_of_Z_digits draw 8) as [D L]; [simpl; lia|].
  apply re_match_run.
  - unfold generate_phone_number. rewrite list_ascii_of_string_app.
    cbn [rclass times list_ascii_of_string app forallb]. rewrite D. reflexivity.
  - unfold generate_phone_number. rewrite string_length_list, list_ascii_of_string_app,
      length_app, L. simpl. lia.
  - intros m [= <-]. unfold generate_phone_number.
    rewrite string_length_list, list_ascii_of_string_app, length_app, L. simpl. lia.
Qed.

(** The digits of an integer that has between [lo + 1] and [hi + 1] of them. *)
Lemma string_of_Z_digits_between (z : Z) (lo hi : nat) :
  (lo <= hi)%nat ->
  (10 ^ Z.of_nat lo <= z < 10 ^ Z.of_nat (S hi))%Z ->
  forallb is_digit (list_ascii_of_string (string_of_Z z)) = true
  /\ (S lo <= length (list_ascii_of_string (string_of_Z z)) <= S hi)%nat.
Proof.
  induction 1 as [|hi Hle IH]; intros [Lo Hi].
  - destruct (string_of_Z_digits z lo) as [D L]; [lia|]. rewrite L. split; [exact D|lia].
  - destruct (Z_lt_le_dec z (10 ^ Z.of_nat (S hi))) as [Hlt|Hge].
    + destruct IH as [D L]; [lia|]. split; [exact D|lia].
    + destruct (string_of_Z_digits z (S hi)) as [D L]; [lia|]. rewrite L.
      split; [exact D|]. apply Nat.le_le_succ_r in Hle. lia.
Qed.

Lemma generated_account_number_matches (draw : Z) :
  (10000000000 <= draw <= 99999999999999999)%Z ->
  re_match re_account_number (generate_account_number draw) = true.
Proof.
  intros H. destruct (string_of_Z_digits_between draw 10 16) as [D L]; [lia|simpl; lia|].
  unfold generate_account_number. apply re_match_run.
  - exact D.
  - rewrite string_length_list. simpl. lia.
  - intros m [= <-]. rewrite string_length_list. lia.
Qed.

Lemma generated_quarter_no_matches (d : quarter_draws) :
  possible_quarter d ->
  generate_quarter_no d = "" \/ re_match re_quarter_no (generate_quarter_no d) = true.
Proof.
  intros Hd. unfold generate_quarter_no.
  destruct (has_quarter_draw d) eqn:Eh; [right|left; reflexivity].
  destruct (Hd Eh) as (Hs & Ht & Hq & Hn).
  destruct (string_of_Z_digits (second_digit d) 0) as [D1 L1]; [simpl; lia|].
  destruct (string_of_Z_digits (quarter_number d) 3) as [D4 L4]; [simpl; lia|].
  unfold re_match. rewrite !list_ascii_of_string_app.
  destruct (list_ascii_of_string (string_of_Z (second_digit d))) as [|a [|? ?]];
    try discriminate L1.
  destruct (list_ascii_of_string (string_of_Z (quarter_number d)))
    as [|n1 [|n2 [|n3 [|n4 [|? ?]]]]]; try discriminate L4.
  cbn [forallb] in D1, D4. rewrite andb_true_r in D1.
  apply list_elem_of_In in Ht, Hq. simpl in Ht, Hq.
  assert (Ht' : exists t, list_ascii_of_string (third_digit d) = [t] /\ is_upper t = true).
  { destruct Ht as [<-|[<-|[<-|[<-|[<-|[<-|[]]]]]]]; eexists; split; reflexivity. }
  assert (Hq' : exists q, list_ascii_of_string (quarter_type d) = [q] /\ is_upper q = true).
  { destruct Hq as [<-|[<-|[<-|[<-|[]]]]]; eexists; split; reflexivity. }
  destruct Ht' as (t & -> & Ut). destruct Hq' as (q & -> & Uq).
  cbn [list_ascii_of_string app].
  change (match_items at_dollar re_quarter_no
            (["0"%char; a] ++ [t; q] ++ [n1; n2; n3; n4] ++ []) = true).
  unfold re_quarter_no.
  apply match_items_run;
    [cbn [rclass times forallb]; rewrite D1; reflexivity
    | simpl; lia | intros m [= <-]; simpl; lia |].
  apply match_items_run;
    [cbn [rclass times forallb]; rewrite Ut, Uq; reflexivity
    | simpl; lia | intros m [= <-]; simpl; lia |].
  apply match_items_run;
    [cbn [rclass times]; exact D4 | simpl; lia | intros m [= <-]; simpl; lia |].
  reflexivity.
Qed.

(** *** Texts without blanks at their ends *)

Lemma digit_not_space (c : ascii) : is_digit c = true -> is_space c = false.
Proof. destruct c as [[] [] [] [] [] [] [] []]; vm_compute; congruence. Qed.

Lemma upper_not_space (c : ascii) : is_upper c = true -> is_space c = false.
Proof. destruct c as [[] [] [] [] [] [] [] []]; vm_compute; congruence. Qed.

Lemma strip_chars_fixed (c e : ascii) (m : list ascii) :
  is_space c = false -> is_space e = false ->
  strip_chars (c :: m ++ [e]) = c :: m ++ [e].
Proof.
  intros Hc He. unfold strip_chars. cbn [drop_while]. rewrite Hc.
  change (c :: m ++ [e]) with ((c :: m) ++ [e]). rewrite rev_app_distr.
  cbn [rev app drop_while]. rewrite He.
  change (e :: rev m ++ [c]) with ([e] ++ rev (c :: m)).
  rewrite rev_app_distr, rev_involutive. reflexivity.
Qed.

Lemma generated_ifsc_code_valid (bank : string * string) (draw : Z) :
  bank ∈ BANKS -> (10000 <= draw <= 99999)%Z ->
  py_strip (generate_ifsc_code (snd bank) draw) = generate_ifsc_code (snd bank) draw
  /\ re_match re_ifsc_code (generate_ifsc_code (snd bank) draw) = true.
Proof.
  intros Hb Hd.
  destruct (string_of_Z_digits draw 4) as [D L]; [simpl; lia|].
  assert (Hcode : exists b1 b2 b3 b4,
             list_ascii_of_string (snd bank) = [b1; b2; b3; b4]
             /\ forallb is_upper [b1; b2; b3; b4] = true).
  { apply list_elem_of_In in Hb. simpl in Hb.
    destruct Hb as [<-|[<-|[<-|[<-|[<-|[<-|[]]]]]]]; do 4 eexists; split; reflexivity. }
  destruct Hcode as (b1 & b2 & b3 & b4 & Eb & Ub).
  assert (El : list_ascii_of_string (generate_ifsc_code (snd bank) draw)
               = [b1; b2; b3; b4] ++ list_ascii_of_string (string_of_Z draw) ++ []).
  { unfold generate_ifsc_code. rewrite list_ascii_of_string_app, Eb, app_nil_r. reflexivity. }
  split.
  - unfold py_strip. rewrite El.
    destruct (list_ascii_of_string (string_of_Z draw)) as [|n1 [|n2 [|n3 [|n4 [|n5 [|? ?]]]]]];
      try discriminate L.
    cbn [forallb] in D, Ub.
    repeat match goal with H : _ && _ = true |- _ => apply andb_prop in H as [? H] end.
    change ([b1; b2; b3; b4] ++ [n1; n2; n3; n4; n5] ++ [])
      with (b1 :: [b2; b3; b4; n1; n2; n3; n4] ++ [n5]).
    rewrite strip_chars_fixed.
    + rewrite <- (string_of_list_ascii_of_string (generate_ifsc_code (snd bank) draw)), El.
      reflexivity.
    + apply upper_not_space. assumption.
    + apply digit_not_space. assumption.
  - unfold re_match. rewrite El. unfold re_ifsc_code.
    apply match_items_run;
      [cbn [rclass times]; exact Ub | simpl; lia | intros m [= <-]; simpl; lia |].
    apply match_items_run;
      [cbn [rclass]; exact D | cbn [rmin]; lia | intros m Hm; discriminate Hm |].
    reflexivity.
Qed.

(** *** Names and the address made of them *)

Lemma name_mapping_alphabetic :
  map_Forall (fun first_name last_names =>
                pg_match re_name first_name = true
                /\ Forall (fun last_name => pg_match re_name last_name = true) last_names)
             create_name_mapping.
Proof. eapply bool_decide_unpack. vm_compute. exact I. Qed.

Lemma possible_name_alphabetic (draw : string * string) :
  possible_name draw ->
  pg_match re_name (fst draw) = true /\ pg_match re_name (snd draw) = true.
Proof.
  intros (last_names & Hm & Hl).
  destruct (name_mapping_alphabetic _ _ Hm) as [Hf Hls]. split; [exact Hf|].
  rewrite Forall_forall in Hls. apply Hls, Hl.
Qed.

Lemma to_lower_alpha (c : ascii) : is_alpha c = true -> is_alpha (to_lower c) = true.
Proof. destruct c as [[] [] [] [] [] [] [] []]; vm_compute; congruence. Qed.

(** A text that [^[A-Za-z]+$] matches to its very end: letters, at least one. *)
Lemma pg_match_name (s : string) :
  pg_match re_name s = true ->
  forallb is_alpha (list_ascii_of_string s) = true /\ (1 <= String.length s)%nat.
Proof.
  rewrite pg_match_unfold. unfold re_name. rewrite match_items_cons.
  rewrite string_length_list.
  enough (H : forall l n, repetitions_from at_very_end (plus is_alpha) [] n l = true ->
                forallb is_alpha l = true /\ (1 <= n + length l)%nat).
  { intros Hm. apply (H _ 0%nat Hm). }
  clear s. induction l as [|c l IH]; intros n.
  - cbn. destruct n; [discriminate|]. intros _. split; [reflexivity|lia].
  - cbn [repetitions_from match_items at_very_end plus rmin rclass rmax below].
    replace (if Nat.leb 1 n then false else false) with false
      by (destruct (Nat.leb 1 n); reflexivity).
    destruct (is_alpha c) eqn:Ec; [|discriminate]. intros H. cbn [forallb length]. rewrite Ec.
    destruct (IH _ H) as [H1 H2]. split; [exact H1|lia].
Qed.

Lemma lower_string_alpha (s : string) :
  forallb is_alpha (list_ascii_of_string s) = true ->
  forallb is_alpha (list_ascii_of_string (lower_string (list_ascii_of_string s))) = true
  /\ length (list_ascii_of_string (lower_string (list_ascii_of_string s))) = String.length s.
Proof.
  unfold lower_string. rewrite list_ascii_of_string_of_list_ascii, string_length_list.
  rewrite length_map. intros H. split; [|reflexivity].
  rewrite forallb_forall in *. intros c Hc. apply in_map_iff in Hc as (c0 & <- & Hc0).
  apply to_lower_alpha, H, Hc0.
Qed.

Lemma generated_email_id_matches (first_name last_name : string) :
  pg_match re_name first_name = true -> pg_match re_name last_name = true ->
  re_match re_email_id
    (lower_string (list_ascii_of_string first_name) +:+ "."
       +:+ lower_string (list_ascii_of_string last_name) +:+ "@sail.bokaro.com") = true.
Proof.
  intros Hf Hl.
  apply pg_match_name in Hf as [Hf Lf]. apply pg_match_name in Hl as [Hl Ll].
  apply lower_string_alpha in Hf as [Hf Ef]. apply lower_string_alpha in Hl as [Hl El].
  unfold re_match. rewrite !list_ascii_of_string_app.
  unfold re_email_id. cbn [app].
  apply match_items_run;
    [exact Hf | cbn [plus rmin]; lia | intros m Hm; discriminate Hm|].
  change (list_ascii_of_string ".") with (["."%char] ++ []). rewrite <- app_assoc.
  apply match_items_run;
    [reflexivity | simpl; lia | intros m [= <-]; simpl; lia|].
  cbn [app].
  apply match_items_run;
    [exact Hl | cbn [plus rmin]; lia | intros m Hm; discriminate Hm|].
  vm_compute. reflexivity.
Qed.

(** *** [int] of the text of an integer *)

Lemma strip_chars_no_space (l : list ascii) :
  forallb (fun c => negb (is_space c)) l = true -> strip_chars l = l.
Proof.
  intros H. unfold strip_chars.
  assert (D : forall u, forallb (fun c => negb (is_space c)) u = true ->
                drop_while is_space u = u).
  { intros [|c u]; [reflexivity|]. cbn [forallb drop_while]. intros Hu.
    apply andb_prop in Hu as [Hc _]. destruct (is_space c); [discriminate|reflexivity]. }
  rewrite (D l H), (D (rev l)), rev_involutive; [reflexivity|].
  rewrite forallb_forall in *. intros c Hc. apply H, in_rev, Hc.
Qed.

Lemma digit_run_rest_uint (d : uint) (acc : Z) (n : nat) :
  digit_run_rest (list_ascii_of_string (NilEmpty.string_of_uint d)) acc n
  = ((acc * 10 ^ Z.of_nat (nb_digits d) + Z.of_N (Unsigned.of_lu (Decimal.rev d)))%Z,
     (n + nb_digits d)%nat, []).
Proof.
  revert acc n.
  induction d; intros acc n;
    [cbn; rewrite Z.mul_1_r, Z.add_0_r, Nat.add_0_r; reflexivity | ..].
  all: cbn [NilEmpty.string_of_uint list_ascii_of_string digit_run_rest].
  all: match goal with |- context [is_digit ?c] => change (is_digit c) with true end.
  all: cbn iota.
  all: unfold Decimal.rev; cbn [revapp]; rewrite (Unsigned.of_lu_revapp d).
  all: rewrite IHd; cbn [nb_digits Unsigned.of_lu].
  all: rewrite usize_nb_digits, Nat2Z.inj_succ, Z.pow_succ_r by lia.
  all: rewrite N2Z.inj_add, N2Z.inj_mul, N2Z.inj_pow, nat_N_Z.
  all: match goal with |- context [digit_value ?c] =>
         let v := eval vm_compute in (digit_value c) in change (digit_value c) with v end.
  all: repeat match goal with
              | |- context [Z.of_N ?x] =>
                  lazymatch x with
                  | context [Unsigned.of_lu] => fail
                  | _ => let v := eval vm_compute in (Z.of_N x) in change (Z.of_N x) with v
                  end
              end.
  all: apply pair_equal_spec; split; [apply pair_equal_spec; split; [ring|lia] | reflexivity].
Qed.

Lemma digit_run_uint (d : uint) :
  d <> Nil ->
  exists n, digit_run (list_ascii_of_string (NilEmpty.string_of_uint d))
            = Some (Z.of_N (Pos.of_uint d), n, []).
Proof.
  intros Hd. rewrite Unsigned.of_uint_alt.
  pose proof (digit_run_rest_uint d 0 0) as H.
  destruct d; [contradiction Hd; reflexivity | ..];
    cbn [NilEmpty.string_of_uint list_ascii_of_string digit_run_rest digit_run] in *;
    match goal with |- context [is_digit ?c] => change (is_digit c) with true in * end;
    cbn iota in *;
    match type of H with context [digit_value ?c] =>
      let v := eval vm_compute in (digit_value c) in
      change (0 * 10 + digit_value c)%Z with v in H; change (digit_value c) with v
    end;
    eexists; rewrite H, Z.mul_0_l, Z.add_0_l; reflexivity.
Qed.

Lemma is_digit_not_sign (c : ascii) :
  is_digit c = true -> is_char "-" c = false /\ is_char "+" c = false /\ is_space c = false.
Proof. destruct c as [[] [] [] [] [] [] [] []]; vm_compute; intuition congruence. Qed.

(** [int] reads back the text that [str] gives an integer. *)
Lemma int_of_string_of_Z (z : Z) : int_of_string (string_of_Z z) = Some z.
Proof.
  assert (Hpos : forall p sign,
             forallb (fun c => negb (is_space c))
                     (list_ascii_of_string (NilEmpty.string_of_uint (Pos.to_uint p))) = true
             /\ read_sign (list_ascii_of_string (NilEmpty.string_of_uint (Pos.to_uint p)))
                = (false, list_ascii_of_string (NilEmpty.string_of_uint (Pos.to_uint p)))
             /\ match digit_run (list_ascii_of_string
                                   (NilEmpty.string_of_uint (Pos.to_uint p))) with
                | Some (v, _, []) => Some (if sign : bool then (- v)%Z else v)
                | _ => None
                end = Some (if sign then Z.neg p else Z.pos p)).
  { intros p sign.
    destruct (string_of_uint_digits (Pos.to_uint p)) as [D _].
    destruct (digit_run_uint (Pos.to_uint p) (Unsigned.to_uint_nonnil p)) as [n E].
    rewrite E, Unsigned.of_to. split; [|split].
    - rewrite forallb_forall in *. intros c Hc.
      rewrite (proj2 (proj2 (is_digit_not_sign c (D c Hc)))). reflexivity.
    - destruct (list_ascii_of_string _) as [|c l]; [reflexivity|].
      cbn [forallb] in D. apply andb_prop in D as [Dc _].
      destruct (is_digit_not_sign c Dc) as (H1 & H2 & _).
      cbn [read_sign]. rewrite H1, H2. reflexivity.
    - destruct sign; reflexivity. }
  assert (Hnil : forall p, NilZero.string_of_uint (Pos.to_uint p)
                           = NilEmpty.string_of_uint (Pos.to_uint p)).
  { intros p. pose proof (Unsigned.to_uint_nonnil p).
    destruct (Pos.to_uint p); [contradiction|reflexivity ..]. }
  unfold int_of_string, string_of_Z.
  destruct z as [|p|p]; cbn [Z.to_int NilZero.string_of_int].
  - reflexivity.
  - rewrite Hnil. destruct (Hpos p false) as (S1 & S2 & S3).
    rewrite (strip_chars_no_space _ S1), S2. exact S3.
  - rewrite Hnil. destruct (Hpos p true) as (S1 & S2 & S3).
    cbn [list_ascii_of_string].
    rewrite strip_chars_no_space by (cbn [forallb]; rewrite S1; reflexivity).
    cbn [read_sign]. change (is_char "-" "-") with true. cbn iota. exact S3.
Qed.

(** *** The date of joining *)

Lemma dates_from_lookup (n k : nat) (d : date) :
  (n < k)%nat -> dates_from d k !! n = Some (add_days d n).
Proof.
  revert d k. induction n as [|n IH]; intros d [|k] H; try lia; cbn.
  - reflexivity.
  - apply IH. lia.
Qed.

Lemma days_between_value : days_between = 8765%Z.
Proof. vm_compute. reflexivity. Qed.

Lemma generated_dates_parse :
  forallb (fun d => strptime_ymd (strftime_ymd d)) (dates_from start_date (Z.to_nat 8765)) = true.
Proof. vm_compute. reflexivity. Qed.

Lemma generated_date_of_joining_parses (random_days : nat) :
  (Z.of_nat random_days < days_between)%Z ->
  strptime_ymd (generate_date_of_joining random_days) = true.
Proof.
  rewrite days_between_value. intros H.
  pose proof generated_dates_parse as A. rewrite forallb_forall in A.
  apply (A (add_days start_date random_days)).
  apply list_elem_of_In. apply (list_elem_of_lookup_2 _ random_days).
  apply dates_from_lookup. lia.
Qed.

(** *** One record, from the generator to the validator *)

Lemma generate_unique_full_name_chosen (existing_names names' : gset string)
      (draws : list (string * string)) (first_name last_name : string) :
  generate_unique_full_name existing_names draws = Some (first_name, last_name, names') ->
  ((first_name, last_name) ∈ draws)
  /\ (full_name first_name last_name ∉ existing_names)
  /\ names' = {[full_name first_name last_name]} ∪ existing_names.
Proof.
  induction draws as [|[f l] draws IH]; cbn [generate_unique_full_name]; [discriminate|].
  destruct (decide (full_name f l ∈ existing_names)) as [Hin|Hout].
  - intros H. destruct (IH H) as (H1 & H2 & H3). repeat split; try assumption.
    apply list_elem_of_further, H1.
  - intros [= <- <- <-]. repeat split; try assumption. apply list_elem_of_here.
Qed.

Lemma record_lookup (v1 v2 v3 v4 v5 v6 v7 v8 v9 v10 v11 v12 v13 v14 v15 v16 : string) :
  let record : gmap string string :=
    list_to_map
      [("employee_id", v1); ("first_name", v2); ("last_name", v3); ("designation", v4);
       ("department", v5); ("grade", v6); ("date_of_joining", v7); ("quarter_no", v8);
       ("has_quarter", v9); ("email_id", v10); ("phone_number", v11);
       ("account_number", v12); ("ifsc_code", v13); ("branch_name", v14);
       ("bank_name", v15); ("shop", v16)] in
  record !! "employee_id" = Some v1 /\ record !! "first_name" = Some v2
  /\ record !! "last_name" = Some v3 /\ record !! "date_of_joining" = Some v7
  /\ record !! "quarter_no" = Some v8 /\ record !! "email_id" = Some v10
  /\ record !! "phone_number" = Some v11 /\ record !! "account_number" = Some v12
  /\ record !! "ifsc_code" = Some v13 /\ record !! "designation" = Some v4
  /\ record !! "has_quarter" = Some v9.
Proof. vm_compute. repeat split; reflexivity. Qed.

Lemma read_as_text (field : string) (c : cell) :
  field <> "" -> read_as field c -> pd_isna c = false /\ py_str c = field.
Proof.
  unfold read_as. intros Hne. destruct (String.eqb_spec field ""); [contradiction|].
  intros [->|(z & -> & Hz)]; split; try reflexivity. exact Hz.
Qed.

Lemma strip_ifsc_code_lookup_ne (r : row) (k : string) :
  k <> "ifsc_code" -> strip_ifsc_code r !! k = r !! k.
Proof.
  intros Hk. unfold strip_ifsc_code. destruct (r !! "ifsc_code"); [|reflexivity].
  apply lookup_insert_ne. congruence.
Qed.

(** A field of the file, as the validator finds it in the row: the text
    written, [NA] for an empty one. *)
Lemma read_text_passes (record : gmap string string) (r : row) (k field : string)
      (check : string -> bool) :
  record !! k = Some field -> read_csv record r -> k <> "ifsc_code" ->
  check (if String.eqb field "" then "NA" else field) = true ->
  text_passes (strip_ifsc_code (fillna_NA r)) k check.
Proof.
  intros Hk Hr Hne Hc. destruct (Hr k field Hk) as (c & Ec & Hread).
  unfold text_passes. rewrite strip_ifsc_code_lookup_ne by exact Hne.
  unfold fillna_NA. rewrite lookup_fmap, Ec. cbn [fmap option_fmap option_map].
  eexists. split; [reflexivity|].
  destruct (String.eqb_spec field "") as [->|Hf].
  - unfold read_as in Hread. cbn in Hread. subst c. exact Hc.
  - destruct (read_as_text field c Hf Hread) as [-> ->]. exact Hc.
Qed.

Lemma checked_text_not_empty (check : string -> bool) (field : string) :
  check "" = false -> check field = true ->
  check (if String.eqb field "" then "NA" else field) = true.
Proof.
  intros H0 H1. destruct (String.eqb_spec field "") as [->|_]; [congruence|exact H1].
Qed.

Lemma grade_and_designation_pair (d : employee_draws) :
  exists grade designation, grade_and_designation d = (grade, designation).
Proof. destruct (grade_and_designation d); eauto. Qed.

Lemma generated_employee_rules (emp_id : Z) (existing_names names' : gset string)
      (d : employee_draws) (record : gmap string string) (r : row) :
  (1000000 <= emp_id <= 9999999)%Z ->
  possible d ->
  generate_employee_data emp_id existing_names d = Some (record, names') ->
  read_csv record r ->
  employee_rules_hold (strip_ifsc_code (fillna_NA r)).
Proof.
  intros Hid (Hnames & _ & _ & _ & _ & _ & Hbank & _ & Hquarter & _ & Hdays & Hphone
              & Haccount & Hifsc & _) Hgen Hread.
  unfold generate_employee_data in Hgen.
  destruct (generate_unique_full_name existing_names (name_draws d))
    as [[[first_name last_name] names1]|] eqn:Hfull; [|discriminate].
  cbn [mbind option_bind] in Hgen.
  destruct (grade_and_designation_pair d) as (grade & designation & Eg). rewrite Eg in Hgen.
  destruct (bank_draw d) as [bank_name bank_code] eqn:Eb.
  match type of Hgen with
  | Some (?m, _) = _ =>
      lazymatch m with
      | list_to_map [(_, ?v1); (_, ?v2); (_, ?v3); (_, ?v4); (_, ?v5); (_, ?v6); (_, ?v7);
                     (_, ?v8); (_, ?v9); (_, ?v10); (_, ?v11); (_, ?v12); (_, ?v13);
                     (_, ?v14); (_, ?v15); (_, ?v16)] =>
          pose proof (record_lookup v1 v2 v3 v4 v5 v6 v7 v8 v9 v10 v11 v12 v13 v14 v15 v16)
            as L
      end;
      assert (Hrec : m = record) by (injection Hgen as H _; exact H)
  end.
  cbv zeta in L. rewrite Hrec in L.
  destruct L as (L1 & L2 & L3 & L7 & L8 & L10 & L11 & L12 & L13 & _).
  apply generate_unique_full_name_chosen in Hfull as (Hin & _).
  rewrite Forall_forall in Hnames.
  destruct (possible_name_alphabetic _ (Hnames _ Hin)) as [Hf Hl]. cbn [fst snd] in Hf, Hl.
  pose proof (generated_ifsc_code_valid (bank_name, bank_code) (ifsc_draw d)) as Hcode.
  specialize (Hcode Hbank Hifsc). cbn [snd] in Hcode.
  destruct Hcode as [Hstrip Hmatch].
  unfold employee_rules_hold. repeat apply conj.
  - destruct (Hread _ _ L1) as (c & Ec & Hc).
    assert (Hne : string_of_Z emp_id <> "").
    { intros E. pose proof (int_of_string_of_Z emp_id) as R. rewrite E in R. discriminate R. }
    destruct (read_as_text _ c Hne Hc) as [Hna Hs].
    exists c, emp_id. split; [|split; [|exact Hid]].
    + rewrite strip_ifsc_code_lookup_ne by discriminate.
      unfold fillna_NA. rewrite lookup_fmap, Ec. cbn [fmap option_fmap option_map].
      rewrite Hna. reflexivity.
    + unfold read_as in Hc. destruct (String.eqb_spec (string_of_Z emp_id) ""); [contradiction|].
      destruct Hc as [->|(z & -> & Hz)].
      * apply int_of_string_of_Z.
      * cbn [py_int]. pose proof (int_of_string_of_Z z) as R. rewrite Hz in R.
        rewrite int_of_string_of_Z in R. congruence.
  - apply (read_text_passes record r _ _ _ L2 Hread); [discriminate|].
    apply checked_text_not_empty; [reflexivity|]. apply re_match_newline, Hf.
  - apply (read_text_passes record r _ _ _ L3 Hread); [discriminate|].
    apply checked_text_not_empty; [reflexivity|]. apply re_match_newline, Hl.
  - apply (read_text_passes record r _ _ _ L7 Hread); [discriminate|].
    apply checked_text_not_empty; [reflexivity|].
    apply generated_date_of_joining_parses, Hdays.
  - apply (read_text_passes record r _ _ _ L8 Hread); [discriminate|].
    destruct (generated_quarter_no_matches _ Hquarter) as [->|Hq]; [reflexivity|].
    destruct (String.eqb_spec (generate_quarter_no (quarter d)) "") as [->|_];
      [reflexivity|]. rewrite Hq. apply orb_true_r.
  - apply (read_text_passes record r _ _ _ L10 Hread); [discriminate|].
    apply checked_text_not_empty; [reflexivity|]. apply generated_email_id_matches; assumption.
  - apply (read_text_passes record r _ _ _ L11 Hread); [discriminate|].
    apply checked_text_not_empty; [reflexivity|]. apply generated_phone_number_matches, Hphone.
  - destruct (Hread _ _ L13) as (c & Ec & Hc).
    assert (Hne : generate_ifsc_code bank_code (ifsc_draw d) <> "").
    { intros E. rewrite E in Hmatch. discriminate Hmatch. }
    destruct (read_as_text _ c Hne Hc) as [Hna Hs].
    unfold strip_ifsc_code, fillna_NA. rewrite lookup_fmap, Ec.
    cbn [fmap option_fmap option_map]. rewrite Hna.
    eexists. split; [apply lookup_insert_eq|].
    unfold validate_ifsc_code. cbn [pd_isna py_str]. rewrite Hs, Hstrip, Hstrip. exact Hmatch.
  - apply (read_text_passes record r _ _ _ L12 Hread); [discriminate|].
    apply checked_text_not_empty; [reflexivity|].
    apply generated_account_number_matches, Haccount.
Qed.

Lemma read_csv_field_cell (record : gmap string string) :
  read_csv record (field_cell <$> record).
Proof.
  intros k field Hk. exists (field_cell field). rewrite lookup_fmap, Hk.
  split; [reflexivity|]. unfold read_as, field_cell.
  destruct (String.eqb field ""); [reflexivity|left; reflexivity].
Qed.

Ltac among := apply list_elem_of_In; simpl; repeat (first [left; reflexivity | right]).

Lemma possible_draws_of_a_manager : possible draws_of_a_manager.
Proof.
  unfold possible. cbn [draws_of_a_manager name_draws role_type grade_draw designation_draw
                        bank_draw branch_draw quarter department_draw joining_draw phone_draw
                        account_draw ifsc_draw shop_draw].
  repeat apply conj; try among; try (intros H; discriminate H); try (intros _; among);
    try (rewrite ?days_between_value; lia).
  constructor; [|constructor]. eexists. split; [vm_compute; reflexivity|among].
Qed.

Lemma possible_draws_of_a_worker : possible draws_of_a_worker.
Proof.
  unfold possible. cbn [draws_of_a_worker name_draws role_type grade_draw designation_draw
                        bank_draw branch_draw quarter department_draw joining_draw phone_draw
                        account_draw ifsc_draw shop_draw].
  repeat apply conj; try among; try (intros H; discriminate H); try (intros _; lia);
    try (rewrite ?days_between_value; lia).
  - constructor; [|constructor; [|constructor]];
      (eexists; split; [vm_compute; reflexivity|among]).
  - intros _. cbn. repeat apply conj; try lia; among.
Qed.

(** A record that [generate_employee_data] makes for one of the identifiers
    of [generate_employee_ids] passes [validate_employee_data] when the
    importer reads it back: [import_data] puts [NA] where the file has an
    empty field and strips the IFSC code before it validates the row. *)
Theorem generated_employee_is_accepted (emp_id : Z) (existing_names names' : gset string)
        (d : employee_draws) (record : gmap string string) (r : row) :
  (1000000 <= emp_id <= 9999999)%Z ->
  possible d ->
  generate_employee_data emp_id existing_names d = Some (record, names') ->
  read_csv record r ->
  validate_employee_data (strip_ifsc_code (fillna_NA r)) = (true, None).
Proof.
  intros Hid Hd Hgen Hread. apply validate_employee_data_rules.
  exact (generated_employee_rules emp_id existing_names names' d record r Hid Hd Hgen Hread).
Qed.

Lemma generated_employee_is_accepted_witness :
  validate_employee_data (strip_ifsc_code (fillna_NA (field_cell <$> record_of_a_worker)))
  = (true, None).
Proof.
  apply (generated_employee_is_accepted
           1234567 {["Arjun Acharya"]} ({["Diya Bose"]} ∪ {["Arjun Acharya"]})
           draws_of_a_worker record_of_a_worker).
  - lia.
  - exact possible_draws_of_a_worker.
  - vm_compute. reflexivity.
  - apply read_csv_field_cell.
Defined.

(** ** The base salary that the generator draws *)

Lemma round_half_even_floor (x : Q) : (Qfloor x <= round_half_even x)%Z.
Proof.
  unfold round_half_even.
  destruct (Qle_bool _ _); [destruct (Qle_bool _ _); [destruct (Z.even _)|]|]; lia.
Qed.

Lemma Qle_bool_gt (p q : Q) : q < p -> Qle_bool p q = false.
Proof.
  intros H. destruct (Qle_bool p q) eqn:E; [|reflexivity].
  apply Qle_bool_iff in E. exfalso. exact (Qlt_not_le _ _ H E).
Qed.

Lemma Qfloor_at_least (x : Q) (k : Z) : inject_Z k <= x -> (k <= Qfloor x)%Z.
Proof.
  intros H. rewrite <- (Qfloor_Z k). apply Qfloor_resp_le. exact H.
Qed.

Lemma Qfloor_between (x : Q) (k : Z) :
  inject_Z k <= x -> x < inject_Z (k + 1) -> Qfloor x = k.
Proof.
  intros Hlo Hhi. pose proof (Qfloor_at_least x k Hlo) as H1.
  pose proof (Qfloor_le x) as H2.
  assert (H3 : inject_Z (Qfloor x) < inject_Z (k + 1)) by (eapply Qle_lt_trans; eassumption).
  rewrite <- Zlt_Qlt in H3. lia.
Qed.

Lemma salary_ranges_cases (role : string) (lo hi : Z) :
  salary_ranges !! role = Some (lo, hi) ->
  (role = "Worker" /\ lo = 20000%Z /\ hi = 28000%Z) \/ (role <> "Worker" /\ (44000 <= lo)%Z).
Proof.
  intros H. apply elem_of_list_to_map_2 in H. apply list_elem_of_In in H. simpl in H.
  destruct H as [H|[H|[H|[H|[]]]]]; injection H as <- <- <-;
    [left; repeat split; reflexivity | right; split; [discriminate|lia] ..].
Qed.

(** A worker whose draw is at most 20500 gets the base salary 20000.0, which
    [validate_pay_data] rejects whatever the rest of the record holds; every
    other base salary that the generator makes is at least 21000. *)
Theorem generated_base_salary_check (role : string) (lo hi : Z) (draw salary : Q) :
  salary_ranges !! role = Some (lo, hi) ->
  inject_Z lo <= draw <= inject_Z hi ->
  generate_base_salary role draw = Some salary ->
  (role = "Worker" /\ draw <= 20500 ->
   salary = 20000
   /\ forall r : row, r !! "base_salary" = Some (CFloat (Fin salary)) ->
        validate_pay_data r = (false, Some (Invalid "base_salary" (CFloat (Fin salary)))))
  /\ (~ (role = "Worker" /\ draw <= 20500) -> 21000 <= salary).
Proof.
  intros Hrange [Hlo Hhi] Hgen. unfold generate_base_salary in Hgen. rewrite Hrange in Hgen.
  injection Hgen as <-. unfold round_to_thousands.
  assert (Hx : draw / 1000 == draw * (1 # 1000)) by (field; discriminate).
  split.
  - intros [-> Hd]. destruct (salary_ranges_cases _ _ _ Hrange) as [(_ & -> & ->)|[Hne _]];
      [|contradiction Hne; reflexivity].
    assert (E : round_half_even (draw / 1000) = 20%Z).
    { unfold round_half_even.
      destruct (Qeq_dec draw 20500) as [Et|Hnt].
      - assert (F : Qfloor (draw / 1000) = 20%Z).
        { apply Qfloor_between; rewrite Hx, Et; vm_compute; [discriminate|reflexivity]. }
        rewrite F.
        assert (R : draw / 1000 - inject_Z 20 == 1 # 2) by (rewrite Hx, Et; reflexivity).
        assert (L1 : Qle_bool (draw / 1000 - inject_Z 20) (1 # 2) = true)
          by (apply Qle_bool_iff; rewrite R; apply Qle_refl).
        assert (L2 : Qle_bool (1 # 2) (draw / 1000 - inject_Z 20) = true)
          by (apply Qle_bool_iff; rewrite R; apply Qle_refl).
        rewrite L1, L2. reflexivity.
      - assert (F : Qfloor (draw / 1000) = 20%Z).
        { apply Qfloor_between; rewrite Hx;
            change (inject_Z (20 + 1)) with 21; change (inject_Z 20) with 20;
            change (inject_Z 20000) with 20000 in Hlo; lra. }
        rewrite F.
        assert (L1 : Qle_bool (draw / 1000 - inject_Z 20) (1 # 2) = true).
        { apply Qle_bool_iff. rewrite Hx. change (inject_Z 20) with 20. lra. }
        assert (L2 : Qle_bool (1 # 2) (draw / 1000 - inject_Z 20) = false).
        { apply Qle_bool_gt. rewrite Hx. change (inject_Z 20) with 20.
          assert (draw < 20500) by (apply Qle_lteq in Hd as [?|?]; [assumption|contradiction]).
          lra. }
        rewrite L1, L2. reflexivity. }
    rewrite E. split; [reflexivity|].
    intros r Hr. unfold validate_pay_data. rewrite pay_checks_unfold, Hr. reflexivity.
  - intros Hnot.
    assert (G : (21 <= round_half_even (draw / 1000))%Z).
    { destruct (salary_ranges_cases _ _ _ Hrange) as [(-> & -> & ->)|[Hne Hlo']].
      - assert (Hd : 20500 < draw).
        { apply Qnot_le_lt. intros Hle. apply Hnot. split; [reflexivity|exact Hle]. }
        pose proof (Qfloor_at_least (draw / 1000) 20) as F.
        assert (F' : (20 <= Qfloor (draw / 1000))%Z).
        { apply F. rewrite Hx. change (inject_Z 20) with 20.
          change (inject_Z 20000) with 20000 in Hlo. lra. }
        destruct (Z.eq_dec (Qfloor (draw / 1000)) 20%Z) as [E20|N20].
        + unfold round_half_even. rewrite E20.
          assert (L1 : Qle_bool (draw / 1000 - inject_Z 20) (1 # 2) = false).
          { apply Qle_bool_gt. rewrite Hx. change (inject_Z 20) with 20. lra. }
          rewrite L1. lia.
        + pose proof (round_half_even_floor (draw / 1000)). lia.
      - pose proof (round_half_even_floor (draw / 1000)) as F.
        assert (F' : (44 <= Qfloor (draw / 1000))%Z).
        { apply Qfloor_at_least. rewrite Hx.
          assert (H44 : inject_Z 44000 <= inject_Z lo) by (rewrite <- Zle_Qle; exact Hlo').
          change (inject_Z 44000) with 44000 in H44. change (inject_Z 44) with 44.
          assert (44000 <= draw) by (eapply Qle_trans; eassumption). lra. }
        lia. }
    change 21000 with (inject_Z 21000). rewrite <- Zle_Qle. lia.
Qed.

Lemma generated_base_salary_check_witness :
  validate_pay_data (<["base_salary" := CFloat (Fin 20000)]> pay_arjun)
  = (false, Some (Invalid "base_salary" (CFloat (Fin 20000)))).
Proof.
  assert (R : salary_ranges !! "Worker" = Some (20000, 28000)%Z) by (vm_compute; reflexivity).
  assert (G : generate_base_salary "Worker" 20300 = Some 20000) by (vm_compute; reflexivity).
  assert (B : inject_Z 20000 <= 20300 <= inject_Z 28000)
    by (split; vm_compute; discriminate).
  apply (proj1 (generated_base_salary_check "Worker" 20000 28000 20300 20000 R B G)).
  - split; [reflexivity|vm_compute; discriminate].
  - vm_compute. reflexivity.
Defined.
